(** * The real-time relay of easyboard ([apps/backend/dist/raw-server.js])

    A shallow embedding of the WebSocket relay: the room registry [docs],
    the per-room object [WSSharedDoc] (connection map, presence table,
    replicated document), the helpers [send] and [closeConn], the two
    update handlers and the per-connection session handler
    [setupConnection].

    The relay is written against four libraries that are not part of the
    repository.  Their parts are kept apart from the relay's own code:
    - lib0 ([encoding], [decoding]): modelled concretely, byte for byte;
    - ws (the transport object): a record with a ready state, the frames
      written so far and a switch for a failing write;
    - yjs and y-protocols (document and presence engines): an interface
      [YEngine], the relay is verified for every engine. *)

From stdpp Require Import gmap strings list fin_maps.
From Stdlib Require Import NArith Lia.
From Stdlib.Strings Require Import Byte.

Open Scope N_scope.

(** ** lib0: variable-length unsigned integers and byte arrays *)

Module lib0.

(** [Uint8Array] *)
Abbreviation bytes := (list byte).

#[global] Instance byte_eq_decision : EqDecision byte := Byte.byte_eq_dec.

(** [encoding.write(encoder, num)]: a store into a [Uint8Array] keeps the
    low eight bits. *)
Definition write (num : N) : byte :=
  match Byte.of_N (N.land num 255) with
  | Some b => b
  | None => x00
  end.

Definition BITS7 : N := 127.
Definition BIT8 : N := 128.
Definition MAX_SAFE_INTEGER : N := 9007199254740991.

(** [encoding.writeVarUint]: seven bits per byte, least significant
    group first, bit eight set on every byte but the last.  The loop
    runs once per group; [N.size_nat num] bounds the number of groups. *)
Fixpoint writeVarUint_loop (groups : nat) (num : N) : bytes :=
  match groups with
  | O => [write (N.land BITS7 num)]
  | S g =>
      if BITS7 <? num
      then write (N.lor BIT8 (N.land BITS7 num)) :: writeVarUint_loop g (num / 128)
      else [write (N.land BITS7 num)]
  end.

Definition writeVarUint (num : N) : bytes :=
  writeVarUint_loop (N.size_nat num) num.

(** [encoding.writeVarUint8Array] *)
Definition writeVarUint8Array (arr : bytes) : bytes :=
  writeVarUint (N.of_nat (length arr)) ++ arr.

(** [decoding.readVarUint]: [None] is a throw ([Unexpected end of array]
    or [Integer out of Range]); a result comes with the rest of the
    decoder. *)
Fixpoint readVarUint_loop (num mult : N) (arr : bytes) : option (N * bytes) :=
  match arr with
  | [] => None
  | r :: rest =>
      let num' := num + N.land (Byte.to_N r) BITS7 * mult in
      if Byte.to_N r <? BIT8 then Some (num', rest)
      else if MAX_SAFE_INTEGER <? num' then None
      else readVarUint_loop num' (mult * 128) rest
  end.

Definition readVarUint (arr : bytes) : option (N * bytes) :=
  readVarUint_loop 0 1 arr.

(** [decoding.readVarUint8Array]: the length, then a view of that many
    bytes; a view past the end of the buffer throws. *)
Definition readVarUint8Array (arr : bytes) : option (bytes * bytes) :=
  match readVarUint arr with
  | None => None
  | Some (len, rest) =>
      if N.of_nat (length rest) <? len then None
      else Some (take (N.to_nat len) rest, drop (N.to_nat len) rest)
  end.

End lib0.
Import lib0.

(** ** Identities and wire constants *)

(** A WebSocket object and a [WSSharedDoc] object are known by their
    identity: closures keep a room object alive after the registry has
    dropped it, so rooms live in a heap and [docs] maps names to
    references. *)
Abbreviation conn := nat.
Abbreviation docref := nat.
Abbreviation clientID := N.

(** Message types defined by y-protocols *)
Definition messageSync : N := 0.
Definition messageAwareness : N := 1.
Definition messageStats : N := 10.

(** Sub-tags of the sync protocol (y-protocols/sync) *)
Definition messageYjsSyncStep1 : N := 0.
Definition messageYjsSyncStep2 : N := 1.
Definition messageYjsUpdate : N := 2.

(** ** ws: the transport object *)

Inductive ReadyState := CONNECTING | OPEN | CLOSING | CLOSED.

#[global] Instance ReadyState_eq_dec : EqDecision ReadyState.
Proof. solve_decision. Defined.

Record WebSocket := mkWebSocket {
  readyState : ReadyState;
  sent : list bytes;      (* frames accepted by [conn.send], oldest first *)
  sendThrows : bool;      (* the underlying write fails: [conn.send] throws *)
  closeCalls : nat        (* how often [conn.close()] was called *)
}.

(** [conn.send(m, cb)] on an open, working socket *)
Definition ws_send (m : bytes) (s : WebSocket) : WebSocket :=
  {| readyState := readyState s; sent := sent s ++ [m];
     sendThrows := sendThrows s; closeCalls := closeCalls s |}.

(** [conn.close()]: an open or connecting socket starts closing, a closing
    or closed one stays as it is. *)
Definition ws_close (s : WebSocket) : WebSocket :=
  {| readyState := match readyState s with CLOSED => CLOSED | _ => CLOSING end;
     sent := sent s; sendThrows := sendThrows s;
     closeCalls := S (closeCalls s) |}.

(** ** yjs and y-protocols: the engine interface

    The relay never looks inside a document update or a presence update.
    What it calls is collected here, with a throw as [None].  A presence
    merge decodes and merges entry by entry, so a throw may come after a
    part of the update was merged: [applyAwarenessUpdate] returns the
    table in both cases, and the change lists only when it completed. *)

Record changes := mkChanges {
  added : list clientID;
  updated : list clientID;
  removed : list clientID
}.

Class YEngine : Type := {
  (* yjs *)
  YDoc : Type;
  Y_Doc : YDoc;                                            (* [new Y.Doc()] *)
  Y_encodeStateVector : YDoc -> bytes;
  Y_encodeStateAsUpdate : YDoc -> bytes -> option bytes;   (* diff against a state vector *)
  Y_applyUpdate : YDoc -> bytes -> option (YDoc * option bytes);
                        (* the new document and the update it emits, if it changed *)
  (* y-protocols/awareness *)
  Awareness : Type;
  new_Awareness : Awareness;    (* [new Awareness(doc)], then [setLocalState(null)] *)
  getStates : Awareness -> list clientID;                  (* keys of [getStates()] *)
  applyAwarenessUpdate : Awareness -> bytes -> Awareness * option changes;
  removeAwarenessStates : Awareness -> list clientID -> Awareness * list clientID;
  encodeAwarenessUpdate : Awareness -> list clientID -> bytes
}.

(** What the relay relies on in the presence engine: removing ids deletes
    exactly those from the table and reports the ones that were there. *)
Class YEngineLaws (Y : YEngine) : Prop := {
  removeAwarenessStates_states : forall a ids,
    getStates (fst (removeAwarenessStates a ids))
    = filter (fun i => i ∉ ids) (getStates a);
  removeAwarenessStates_removed : forall a ids i,
    i ∈ snd (removeAwarenessStates a ids) <-> i ∈ ids /\ i ∈ getStates a
}.

(** ** The connection map of a room: a JS [Map] from connection to the [Set]
    of participant ids it controls, both in insertion order *)

Abbreviation ConnMap := (list (conn * list clientID)).

Fixpoint conns_get (c : conn) (m : ConnMap) : option (list clientID) :=
  match m with
  | [] => None
  | e :: m' => if decide (e.1 = c) then Some e.2 else conns_get c m'
  end.

Definition conns_has (c : conn) (m : ConnMap) : bool :=
  bool_decide (is_Some (conns_get c m)).

Fixpoint conns_set (c : conn) (ids : list clientID) (m : ConnMap) : ConnMap :=
  match m with
  | [] => [(c, ids)]
  | e :: m' => if decide (e.1 = c) then (c, ids) :: m' else e :: conns_set c ids m'
  end.

Definition conns_delete (c : conn) (m : ConnMap) : ConnMap :=
  filter (fun e => e.1 ≠ c) m.

Definition conns_keys (m : ConnMap) : list conn := fst <$> m.

(** [Set.add] and [Set.delete] *)
Definition set_add (i : clientID) (s : list clientID) : list clientID :=
  if decide (i ∈ s) then s else s ++ [i].

Definition set_delete (i : clientID) (s : list clientID) : list clientID :=
  filter (fun j => j ≠ i) s.

(** ** The relay *)

Section Relay.
Context {Y : YEngine}.

(** [class WSSharedDoc extends Y.Doc]: one per room.  [observed] tells
    whether the listeners registered in the constructor are still
    attached; [destroy()] detaches them. *)
Record WSSharedDoc := mkWSSharedDoc {
  name : string;
  conns : ConnMap;
  awareness : Awareness;
  ydoc : YDoc;
  observed : bool
}.

(** [new WSSharedDoc(name)] *)
Definition new_WSSharedDoc (docname : string) : WSSharedDoc :=
  {| name := docname; conns := []; awareness := new_Awareness;
     ydoc := Y_Doc; observed := true |}.

(** The process: the global [docs], the room objects, the sockets, the
    closure variable [doc] of the handlers that [setupConnection] attached
    to each socket, and the number of [console.error] calls. *)
Record World := mkWorld {
  docs : gmap string docref;
  heap : gmap docref WSSharedDoc;
  socks : gmap conn WebSocket;
  handlers : gmap conn docref;
  errors : nat
}.

Definition set_docs (f : gmap string docref -> gmap string docref) (w : World) : World :=
  {| docs := f (docs w); heap := heap w; socks := socks w;
     handlers := handlers w; errors := errors w |}.

Definition set_heap (f : gmap docref WSSharedDoc -> gmap docref WSSharedDoc) (w : World) : World :=
  {| docs := docs w; heap := f (heap w); socks := socks w;
     handlers := handlers w; errors := errors w |}.

Definition set_socks (f : gmap conn WebSocket -> gmap conn WebSocket) (w : World) : World :=
  {| docs := docs w; heap := heap w; socks := f (socks w);
     handlers := handlers w; errors := errors w |}.

Definition set_handlers (f : gmap conn docref -> gmap conn docref) (w : World) : World :=
  {| docs := docs w; heap := heap w; socks := socks w;
     handlers := f (handlers w); errors := errors w |}.

(** [console.error(err)] *)
Definition console_error (w : World) : World :=
  {| docs := docs w; heap := heap w; socks := socks w;
     handlers := handlers w; errors := S (errors w) |}.

(** Reading the fields of a room object *)
Definition conns_of (w : World) (doc : docref) : ConnMap :=
  from_option conns [] (heap w !! doc).
Definition awareness_of (w : World) (doc : docref) : Awareness :=
  from_option awareness new_Awareness (heap w !! doc).
Definition ydoc_of (w : World) (doc : docref) : YDoc :=
  from_option ydoc Y_Doc (heap w !! doc).
Definition observed_of (w : World) (doc : docref) : bool :=
  from_option observed false (heap w !! doc).
Definition name_of (w : World) (doc : docref) : string :=
  from_option name EmptyString (heap w !! doc).

(** Writing them *)
Definition set_conns (doc : docref) (m : ConnMap) : World -> World :=
  set_heap (alter (fun d => {| name := name d; conns := m; awareness := awareness d;
                               ydoc := ydoc d; observed := observed d |}) doc).
Definition set_awareness (doc : docref) (a : Awareness) : World -> World :=
  set_heap (alter (fun d => {| name := name d; conns := conns d; awareness := a;
                               ydoc := ydoc d; observed := observed d |}) doc).
Definition set_ydoc (doc : docref) (y : YDoc) : World -> World :=
  set_heap (alter (fun d => {| name := name d; conns := conns d; awareness := awareness d;
                               ydoc := y; observed := observed d |}) doc).

(** [doc.destroy()]: the listeners are gone *)
Definition destroy (doc : docref) : World -> World :=
  set_heap (alter (fun d => {| name := name d; conns := conns d; awareness := awareness d;
                               ydoc := ydoc d; observed := false |}) doc).

(** Reading a socket; an identity without an object reads as closed. *)
Definition readyState_of (w : World) (c : conn) : ReadyState :=
  from_option readyState CLOSED (socks w !! c).
Definition sendThrows_of (w : World) (c : conn) : bool :=
  from_option sendThrows false (socks w !! c).
Definition sent_of (w : World) (c : conn) : list bytes :=
  from_option sent [] (socks w !! c).

(** [Map.prototype.forEach] over [doc.conns] while the callback may delete
    entries: a key deleted before its turn is not visited.  (No callback
    of the relay adds a key.) *)
Fixpoint forEach_conns (f : conn -> World -> option World) (doc : docref)
    (keys : list conn) (w : World) : option World :=
  match keys with
  | [] => Some w
  | c :: keys' =>
      if conns_has c (conns_of w doc)
      then w' ← f c w; forEach_conns f doc keys' w'
      else forEach_conns f doc keys' w
  end.

(** [send], with the [closeConn] it falls back to as a parameter *)
Definition send_with (closeConn : docref -> conn -> World -> option World)
    (doc : docref) (conn : conn) (m : bytes) (w : World) : option World :=
  if negb (bool_decide (readyState_of w conn = OPEN))
  then closeConn doc conn w
  else if sendThrows_of w conn
       then closeConn doc conn w
       else Some (set_socks (alter (ws_send m) conn) w).

(** [awarenessChangeHandler], the listener of the presence table *)
Definition awarenessChangeHandler_with
    (closeConn : docref -> conn -> World -> option World)
    (doc : docref) (ch : changes) (origin : option conn) (w : World) : option World :=
  let changedClients := added ch ++ updated ch ++ removed ch in
  let w1 :=
    match origin ≫= (fun o => (fun ids => (o, ids)) <$> conns_get o (conns_of w doc)) with
    | Some (o, connControlledIds) =>
        let ids1 := foldl (fun s i => set_add i s) connControlledIds (added ch) in
        let ids2 := foldl (fun s i => set_delete i s) ids1 (removed ch) in
        set_conns doc (conns_set o ids2 (conns_of w doc)) w
    | None => w
    end in
  let buff := writeVarUint messageAwareness
              ++ writeVarUint8Array (encodeAwarenessUpdate (awareness_of w1 doc) changedClients) in
  forEach_conns (fun c => send_with closeConn doc c buff) doc
                (conns_keys (conns_of w1 doc)) w1.

(** [closeConn].  It calls itself through the presence listener and
    [send]; every such call comes after one more connection has left the
    map, so the size of the map bounds the depth.  [None] only when the
    bound is too small. *)
Fixpoint closeConn_depth (depth : nat) (doc : docref) (conn : conn) (w : World)
    : option World :=
  match conns_get conn (conns_of w doc) with
  | Some controlledIds =>
      match depth with
      | O => None
      | S depth' =>
          let w1 := set_conns doc (conns_delete conn (conns_of w doc)) w in
          let '(a, gone) := removeAwarenessStates (awareness_of w1 doc) controlledIds in
          let w2 := set_awareness doc a w1 in
          w3 ← (if observed_of w2 doc && negb (bool_decide (gone = []))
                then awarenessChangeHandler_with (closeConn_depth depth') doc
                       (mkChanges [] [] gone) None w2
                else Some w2);
          let w4 := if bool_decide (length (conns_of w3 doc) = 0%nat)
                    then set_docs (delete (name_of w3 doc)) (destroy doc w3)
                    else w3 in
          Some (set_socks (alter ws_close conn) w4)
      end
  | None => Some (set_socks (alter ws_close conn) w)
  end.

Definition closeConn (doc : docref) (conn : conn) (w : World) : option World :=
  closeConn_depth (length (conns_of w doc)) doc conn w.

Definition send : docref -> conn -> bytes -> World -> option World :=
  send_with closeConn.

Definition awarenessChangeHandler
  : docref -> changes -> option conn -> World -> option World :=
  awarenessChangeHandler_with closeConn.

(** The listener of the document: [this.on('update', ...)] *)
Definition docUpdateHandler (doc : docref) (update : bytes) (origin : conn) (w : World)
    : option World :=
  let message := writeVarUint messageSync
                 ++ (writeVarUint messageYjsUpdate ++ writeVarUint8Array update) in
  forEach_conns (fun c w' => if bool_decide (origin ≠ c) then send doc c message w'
                             else Some w')
                doc (conns_keys (conns_of w doc)) w.

(** [getYDoc]: [map.setIfUndefined(docs, docname, ...)] *)
Definition getYDoc (docname : string) (w : World) : docref * World :=
  match docs w !! docname with
  | Some doc => (doc, w)
  | None =>
      let doc := fresh (dom (heap w)) in
      (doc, set_docs (insert docname doc)
              (set_heap (insert doc (new_WSSharedDoc docname)) w))
  end.

(** A block of statements either runs to its end or throws; a throw
    leaves the process as it was at that point. *)
Inductive Completion (A : Type) : Type :=
| Normal (a : A)
| Thrown (w : World).
Arguments Normal {A} a.
Arguments Thrown {A} w.

(** [syncProtocol.readSyncMessage(decoder, encoder, doc, ws)]: the encoder
    after the call and the process after the call.  Every throw (sub-tag,
    payload slice, engine) comes before the first effect. *)
Definition readSyncMessage (decoder encoder : bytes) (doc : docref)
    (transactionOrigin : conn) (w : World) : Completion (option (bytes * World)) :=
  match readVarUint decoder with
  | None => Thrown w
  | Some (messageType, decoder1) =>
      if messageType =? messageYjsSyncStep1 then
        match readVarUint8Array decoder1 with
        | None => Thrown w
        | Some (encodedStateVector, _) =>
            match Y_encodeStateAsUpdate (ydoc_of w doc) encodedStateVector with
            | None => Thrown w
            | Some u =>
                Normal (Some (encoder ++ writeVarUint messageYjsSyncStep2
                                      ++ writeVarUint8Array u, w))
            end
        end
      else if (messageType =? messageYjsSyncStep2) || (messageType =? messageYjsUpdate) then
        match readVarUint8Array decoder1 with
        | None => Thrown w
        | Some (update, _) =>
            match Y_applyUpdate (ydoc_of w doc) update with
            | None => Thrown w
            | Some (y, emitted) =>
                let w1 := set_ydoc doc y w in
                Normal (w2 ← match emitted with
                             | Some u => if observed_of w1 doc
                                         then docUpdateHandler doc u transactionOrigin w1
                                         else Some w1
                             | None => Some w1
                             end;
                        Some (encoder, w2))
            end
        end
      else Thrown w
  end.

(** The [try] block of [ws.on('message', ...)] for the socket [ws] set up
    on the room [doc] *)
Definition onMessage_try (doc : docref) (ws : conn) (message : bytes) (w : World)
    : Completion (option World) :=
  match readVarUint message with
  | None => Thrown w
  | Some (messageType, decoder) =>
      if messageType =? messageSync then
        match readSyncMessage decoder (writeVarUint messageSync) doc ws w with
        | Thrown w1 => Thrown w1
        | Normal r =>
            Normal ('(encoder, w1) ← r;
                    if bool_decide (1 < length encoder)%nat then send doc ws encoder w1
                    else Some w1)
        end
      else if messageType =? messageAwareness then
        match readVarUint8Array decoder with
        | None => Thrown w
        | Some (awarenessUpdate, _) =>
            let '(a, outcome) := applyAwarenessUpdate (awareness_of w doc) awarenessUpdate in
            let w1 := set_awareness doc a w in
            match outcome with
            | None => Thrown w1
            | Some ch =>
                Normal (
                  w2 ← (if observed_of w1 doc
                           && negb (bool_decide (added ch ++ updated ch ++ removed ch = []))
                        then awarenessChangeHandler doc ch (Some ws) w1
                        else Some w1);
                  let awarenessMsg := writeVarUint messageAwareness
                                      ++ writeVarUint8Array awarenessUpdate in
                  forEach_conns (fun c w' => if bool_decide (c ≠ ws)
                                             then send doc c awarenessMsg w'
                                             else Some w')
                                doc (conns_keys (conns_of w2 doc)) w2)
            end
        end
      else if messageType =? messageStats then
        Normal (send doc ws (writeVarUint messageStats
                             ++ writeVarUint (N.of_nat (length (conns_of w doc)))) w)
      else Normal (Some w)
  end.

(** [try { ... } catch (err) { console.error(err) }] *)
Definition onMessage (doc : docref) (ws : conn) (message : bytes) (w : World)
    : option World :=
  match onMessage_try doc ws message w with
  | Normal r => r
  | Thrown w1 => Some (console_error w1)
  end.

(** [setupConnection(ws, req, docName)] *)
Definition setupConnection (ws : conn) (docName : string) (w : World) : option World :=
  let '(doc, w1) := getYDoc docName w in
  let w2 := set_conns doc (conns_set ws [] (conns_of w1 doc)) w1 in
  let w3 := set_handlers (insert ws doc) w2 in
  w4 ← send doc ws (writeVarUint messageSync
                    ++ (writeVarUint messageYjsSyncStep1
                        ++ writeVarUint8Array (Y_encodeStateVector (ydoc_of w3 doc)))) w3;
  let awarenessStates := getStates (awareness_of w4 doc) in
  if bool_decide (0 < length awarenessStates)%nat
  then send doc ws (writeVarUint messageAwareness
                    ++ writeVarUint8Array
                         (encodeAwarenessUpdate (awareness_of w4 doc) awarenessStates)) w4
  else Some w4.

(** [req.url?.slice(1) || 'lobby'] *)
Definition docNameOf (url : option string) : string :=
  match url with
  | Some (String _ rest) => if bool_decide (rest = EmptyString) then "lobby" else rest
  | _ => "lobby"
  end.

(** ** The event loop

    What the runtime delivers to the relay, one callback at a time. *)
Inductive Event :=
| Connection (ws : conn) (url : option string)  (* [wss.on('connection')] with a new socket *)
| Message (ws : conn) (message : bytes)         (* ['message'] on [ws] *)
| Close (ws : conn)                             (* ['close'] on [ws] *)
| SendFailed (ws : conn)                        (* the callback of [conn.send] gets an error *)
| TransportLost (ws : conn)                     (* the socket leaves [OPEN]; no callback yet *)
| WriteBroken (ws : conn).                      (* from now on [conn.send] throws *)

Definition step (w : World) (e : Event) : option World :=
  match e with
  | Connection ws url =>
      match socks w !! ws with
      | Some _ => Some w
      | None => setupConnection ws (docNameOf url)
                  (set_socks (insert ws (mkWebSocket OPEN [] false 0)) w)
      end
  | Message ws message =>
      match handlers w !! ws with
      | Some doc => onMessage doc ws message w
      | None => Some w
      end
  | Close ws =>
      match handlers w !! ws with
      | Some doc =>
          closeConn doc ws
            (set_socks (alter (fun s => mkWebSocket CLOSED (sent s) (sendThrows s)
                                                    (closeCalls s)) ws) w)
      | None => Some w
      end
  | SendFailed ws =>
      match handlers w !! ws with
      | Some doc => closeConn doc ws w
      | None => Some w
      end
  | TransportLost ws =>
      Some (set_socks (alter (fun s =>
              mkWebSocket (match readyState s with OPEN => CLOSING | r => r end)
                          (sent s) (sendThrows s) (closeCalls s)) ws) w)
  | WriteBroken ws =>
      Some (set_socks (alter (fun s => mkWebSocket (readyState s) (sent s) true
                                                   (closeCalls s)) ws) w)
  end.

(** Running a list of events from a state *)
Fixpoint run (w : World) (es : list Event) : option World :=
  match es with
  | [] => Some w
  | e :: es' => w' ← step w e; run w' es'
  end.

(** The process after start-up: no room, no socket. *)
Definition init : World :=
  {| docs := ∅; heap := ∅; socks := ∅; handlers := ∅; errors := 0 |}.

Definition reachable (w : World) : Prop :=
  exists es, run init es = Some w.

End Relay.

Arguments World : clear implicits.
Arguments WSSharedDoc : clear implicits.
Arguments Normal {Y A} a.
Arguments Thrown {Y A} w.


(** ** A reference engine

    One engine to run the relay on: a grow-only set of items as the
    document and a last-writer-wins table keyed by participant id, with
    the wire formats of y-protocols (length-prefixed entries of id, clock
    and JSON text).  A JSON value is kept as its text; the empty text does
    not parse. *)

Module Reference.

(** *** Document: a set of items, an update is a sequence of items *)

Fixpoint readItems (n : nat) (decoder : bytes) : option (list bytes) :=
  match n with
  | O => Some []
  | S n' =>
      '(item, rest) ← readVarUint8Array decoder;
      items ← readItems n' rest;
      Some (item :: items)
  end.

Definition decodeItems (update : bytes) : option (list bytes) :=
  '(len, rest) ← readVarUint update;
  readItems (N.to_nat len) rest.

Definition encodeItems (items : list bytes) : bytes :=
  writeVarUint (N.of_nat (length items)) ++ concat (writeVarUint8Array <$> items).

Definition missing (known items : list bytes) : list bytes :=
  List.filter (fun i => negb (bool_decide (i ∈ known))) items.

Definition encodeStateAsUpdate (doc : list bytes) (sv : bytes) : option bytes :=
  known ← decodeItems sv; Some (encodeItems (missing known doc)).

Definition applyUpdate (doc : list bytes) (update : bytes)
    : option (list bytes * option bytes) :=
  items ← decodeItems update;
  let fresh_items := remove_dups (missing doc items) in
  Some (doc ++ fresh_items,
        if bool_decide (fresh_items = []) then None else Some (encodeItems fresh_items)).

(** *** Presence: [states] and [meta] of an [Awareness] *)

Record Table := mkTable {
  states : list (clientID * bytes);   (* id to JSON text, in insertion order *)
  meta : list (clientID * N);         (* id to clock *)
  localID : clientID                  (* [awareness.clientID], the relay's own id *)
}.

Definition lookup_id {A} (i : clientID) (m : list (clientID * A)) : option A :=
  snd <$> List.find (fun e => bool_decide (fst e = i)) m.

Definition delete_id {A} (i : clientID) (m : list (clientID * A)) : list (clientID * A) :=
  List.filter (fun e => negb (bool_decide (fst e = i))) m.

Fixpoint set_id {A} (i : clientID) (v : A) (m : list (clientID * A)) : list (clientID * A) :=
  match m with
  | [] => [(i, v)]
  | e :: m' => if bool_decide (fst e = i) then (i, v) :: m' else e :: set_id i v m'
  end.

Definition JSON_null : bytes := [x6e; x75; x6c; x6c].

(** [JSON.parse]: [None] throws, [Some None] is [null] *)
Definition JSON_parse (text : bytes) : option (option bytes) :=
  if bool_decide (text = []) then None
  else if bool_decide (text = JSON_null) then Some None
  else Some (Some text).

Definition JSON_stringify (state : option bytes) : bytes :=
  from_option id JSON_null state.

(** The relay's table: the constructor sets the local state, the relay
    clears it, which leaves the local clock at one. *)
Definition new_Table : Table :=
  {| states := []; meta := [(4294967295, 1)]; localID := 4294967295 |}.

(** The loop of [applyAwarenessUpdate] over [len] entries *)
Fixpoint applyEntries (len : nat) (decoder : bytes) (a : Table) (ch : changes)
    : Table * option changes :=
  match len with
  | O => (a, Some ch)
  | S len' =>
      match (i ← readVarUint decoder; c ← readVarUint i.2; t ← readVarUint8Array c.2;
             s ← JSON_parse t.1; Some (i.1, c.1, s, t.2)) with
      | None => (a, None)
      | Some (clientID, clock, state, rest) =>
          let clientMeta := lookup_id clientID (meta a) in
          let currClock := default 0 clientMeta in
          let known := bool_decide (is_Some (lookup_id clientID (states a))) in
          if (currClock <? clock)
             || ((currClock =? clock) && bool_decide (state = None) && known)
          then
            let keep_local := bool_decide (clientID = localID a)
                              && bool_decide (is_Some (lookup_id (localID a) (states a))) in
            let states' :=
              match state with
              | None => if keep_local then states a else delete_id clientID (states a)
              | Some s => set_id clientID s (states a)
              end in
            let clock' := if bool_decide (state = None) && keep_local then clock + 1 else clock in
            let a' := {| states := states'; meta := set_id clientID clock' (meta a);
                         localID := localID a |} in
            let ch' :=
              match clientMeta, state with
              | None, Some _ => mkChanges (added ch ++ [clientID]) (updated ch) (removed ch)
              | Some _, None => mkChanges (added ch) (updated ch) (removed ch ++ [clientID])
              | Some _, Some _ => mkChanges (added ch) (updated ch ++ [clientID]) (removed ch)
              | None, None => ch
              end in
            applyEntries len' rest a' ch'
          else applyEntries len' rest a ch
      end
  end.

Definition applyAwarenessUpdate (a : Table) (update : bytes) : Table * option changes :=
  match readVarUint update with
  | None => (a, None)
  | Some (len, rest) => applyEntries (N.to_nat len) rest a (mkChanges [] [] [])
  end.

Fixpoint removeAwarenessStates (a : Table) (clients : list clientID)
    : Table * list clientID :=
  match clients with
  | [] => (a, [])
  | clientID :: clients' =>
      if bool_decide (is_Some (lookup_id clientID (states a)))
      then
        let meta' := if bool_decide (clientID = localID a)
                     then set_id clientID (default 0 (lookup_id clientID (meta a)) + 1) (meta a)
                     else meta a in
        let '(a', gone) :=
          removeAwarenessStates
            {| states := delete_id clientID (states a); meta := meta';
               localID := localID a |} clients' in
        (a', clientID :: gone)
      else removeAwarenessStates a clients'
  end.

Definition encodeAwarenessUpdate (a : Table) (clients : list clientID) : bytes :=
  writeVarUint (N.of_nat (length clients))
  ++ concat ((fun clientID =>
                writeVarUint clientID
                ++ writeVarUint (default 0 (lookup_id clientID (meta a)))
                ++ writeVarUint8Array (JSON_stringify (lookup_id clientID (states a))))
             <$> clients).

#[global] Instance engine : YEngine :=
  Build_YEngine (list bytes) [] encodeItems encodeStateAsUpdate applyUpdate
                Table new_Table (fun a => fst <$> states a)
                applyAwarenessUpdate removeAwarenessStates encodeAwarenessUpdate.

End Reference.

(** ** Scenarios on the reference engine, used as concrete inputs *)

Module Scenario.
Import Reference.

Definition r1 : option string := Some "/r1"%string.

(** A presence update with one entry *)
Definition presenceUpdate (id clock : N) (json : bytes) : bytes :=
  writeVarUint 1 ++ writeVarUint id ++ writeVarUint clock ++ writeVarUint8Array json.

(** The [PRESENCE] frame carrying it *)
Definition presenceMsg (id clock : N) (json : bytes) : bytes :=
  writeVarUint messageAwareness ++ writeVarUint8Array (presenceUpdate id clock json).

Definition json_obj : bytes := [x7b; x7d].

Definition statsMsg : bytes := writeVarUint messageStats.

Definition after (es : list Event) : World engine :=
  default init (run init es).

(** Two connections in room r1; the write to the first one fails. *)
Definition two_conns_one_broken : World engine :=
  after [Connection 1 r1; Connection 2 r1; WriteBroken 1].

(** ... and the relay has noticed it. *)
Definition after_send_failure : World engine :=
  default init (closeConn 0 1 two_conns_one_broken).

(** One connection, two connections in room r1 *)
Definition one_conn : World engine := after [Connection 1 r1].

Definition two_conns : World engine := after [Connection 1 r1; Connection 2 r1].

(** A [SYNC] frame with the Update sub-tag carrying the item 09 *)
Definition updateMsg : bytes := [x00; x02; x03; x01; x01; x09].

(** The first connection has announced participant 7. *)
Definition one_present : World engine :=
  after [Connection 1 r1; Connection 2 r1; Message 1 (presenceMsg 7 1 json_obj)].

(** ... and the second connection has then announced that 7 left. *)
Definition one_withdrawn : World engine :=
  after [Connection 1 r1; Connection 2 r1; Message 1 (presenceMsg 7 1 json_obj);
         Message 2 (presenceMsg 7 2 JSON_null)].

End Scenario.

(** ** Vocabulary of the statements *)

Section Vocabulary.
Context {Y : YEngine}.

(** A socket the relay can write to *)
Definition healthy (w : World Y) (c : conn) : Prop :=
  readyState_of w c = OPEN /\ sendThrows_of w c = false.

Definition registered (w : World Y) (doc : docref) (c : conn) : Prop :=
  is_Some (conns_get c (conns_of w doc)).

(** A frame whose type tag is [messageAwareness] *)
Definition presenceFrame (m : bytes) : Prop :=
  exists payload, m = writeVarUint messageAwareness ++ payload.

(** The effects [closeConn] is made of, on the room [doc].  Connections
    in [forced] are closed on request (a ['close'] event, a failed write
    reported later); every other connection is closed only when it is not
    healthy.  Frames written are presence frames, or frames [xf] allows
    for the connection. *)
Inductive effect (doc : docref) (forced : conn -> Prop) (xf : conn -> bytes -> Prop)
  : World Y -> World Y -> Prop :=
| effect_delete c w :
    ~ healthy w c \/ forced c ->
    effect doc forced xf w (set_conns doc (conns_delete c (conns_of w doc)) w)
| effect_remove ids w :
    effect doc forced xf w
      (set_awareness doc (removeAwarenessStates (awareness_of w doc) ids).1 w)
| effect_write c m w :
    healthy w c -> registered w doc c -> presenceFrame m \/ xf c m ->
    effect doc forced xf w (set_socks (alter (ws_send m) c) w)
| effect_destroy w :
    conns_of w doc = [] ->
    effect doc forced xf w (set_docs (delete (name_of w doc)) (destroy doc w))
| effect_close c w :
    ~ healthy w c \/ forced c ->
    effect doc forced xf w (set_socks (alter ws_close c) w).

Definition effects (doc : docref) (forced : conn -> Prop) (xf : conn -> bytes -> Prop)
  : World Y -> World Y -> Prop :=
  rtc (effect doc forced xf).

(** What a sequence of such effects can and cannot change *)
Record confined (doc : docref) (forced : conn -> Prop) (xf : conn -> bytes -> Prop)
    (w w' : World Y) : Prop := {
  confined_handlers : handlers w' = handlers w;
  confined_errors : errors w' = errors w;
  confined_other : forall d, d ≠ doc -> heap w' !! d = heap w !! d;
  confined_alive : is_Some (heap w' !! doc) <-> is_Some (heap w !! doc);
  confined_name : name_of w' doc = name_of w doc;
  confined_ydoc : ydoc_of w' doc = ydoc_of w doc;
  confined_conns : exists D : list conn,
      conns_of w' doc = filter (fun e => e.1 ∉ D) (conns_of w doc)
      /\ forall c, c ∈ D -> ~ healthy w c \/ forced c;
  confined_docs :
      docs w' = docs w
      \/ (conns_of w' doc = [] /\ docs w' = delete (name_of w doc) (docs w));
  confined_observed :
      observed_of w' doc = observed_of w doc
      \/ (conns_of w' doc = [] /\ observed_of w' doc = false);
  confined_socks : forall c,
      match socks w !! c with
      | None => socks w' !! c = None
      | Some s =>
          exists s', socks w' !! c = Some s'
            /\ sendThrows s' = sendThrows s
            /\ (readyState s' = readyState s
                \/ (readyState s' = CLOSING /\ (~ healthy w c \/ forced c)))
            /\ (closeCalls s <= closeCalls s')%nat
            /\ exists extra, sent s' = sent s ++ extra
                 /\ Forall (fun m => presenceFrame m \/ xf c m) extra
                 /\ (extra ≠ [] -> healthy w c /\ registered w doc c)
      end
}.

(** The clause of [confined] on sockets, on its own *)
Definition socks_clause (doc : docref) (forced : conn -> Prop) (xf : conn -> bytes -> Prop)
    (w w' : World Y) : Prop :=
  forall c,
      match socks w !! c with
      | None => socks w' !! c = None
      | Some s =>
          exists s', socks w' !! c = Some s'
            /\ sendThrows s' = sendThrows s
            /\ (readyState s' = readyState s
                \/ (readyState s' = CLOSING /\ (~ healthy w c \/ forced c)))
            /\ (closeCalls s <= closeCalls s')%nat
            /\ exists extra, sent s' = sent s ++ extra
                 /\ Forall (fun m => presenceFrame m \/ xf c m) extra
                 /\ (extra ≠ [] -> healthy w c /\ registered w doc c)
      end.

(** The last lines of [closeConn]: a room without connections is
    destroyed and dropped from [docs]. *)
Definition reclaim (doc : docref) (w : World Y) : World Y :=
  if bool_decide (length (conns_of w doc) = 0%nat)
  then set_docs (delete (name_of w doc)) (destroy doc w)
  else w.

(** What a broadcast of the frame [F] does to one outbox: the frame
    arrives once, between presence frames of connections that were closed
    on the way; or only such presence frames arrive. *)
Definition delivered (F : bytes) (w w' : World Y) (c : conn) : Prop :=
  exists pre post, sent_of w' c = sent_of w c ++ pre ++ F :: post
    /\ Forall presenceFrame pre /\ Forall presenceFrame post.

Definition quiet (w w' : World Y) (c : conn) : Prop :=
  exists extra, sent_of w' c = sent_of w c ++ extra /\ Forall presenceFrame extra.

(** The state of the registry between two callbacks: every registered
    name leads to a live room object of that name with at least one
    connection; a room object with a connection is the one registered
    under its name; a connection map has no key twice. *)
Record wf (w : World Y) : Prop := {
  wf_registry : forall n d, docs w !! n = Some d ->
      name_of w d = n /\ conns_of w d ≠ [] /\ observed_of w d = true;
  wf_live : forall d, conns_of w d ≠ [] -> docs w !! name_of w d = Some d;
  wf_keys : forall d, NoDup (conns_keys (conns_of w d))
}.

(** The state in which the presence listener runs inside [closeConn] *)
Definition unlinked (doc : docref) (c : conn) (ids : list clientID) (w : World Y)
    : World Y :=
  set_awareness doc (removeAwarenessStates (awareness_of w doc) ids).1
    (set_conns doc (conns_delete c (conns_of w doc)) w).

End Vocabulary.

(** ** Vocabulary of the statements about whole callbacks *)

Section Footprint.
Context {Y : YEngine}.

(** A frame that starts with one of the three type tags the relay knows *)
Definition relayFrame (m : bytes) : Prop :=
  exists t rest, m = writeVarUint t ++ rest
    /\ (t = messageSync \/ t = messageAwareness \/ t = messageStats).

(** The socket an event is about, and whether the event is a new
    connection *)
Definition connOf (e : Event) : conn :=
  match e with
  | Connection ws _ | Message ws _ | Close ws | SendFailed ws
  | TransportLost ws | WriteBroken ws => ws
  end.

Definition isConnection (e : Event) : bool :=
  match e with Connection _ _ => true | _ => false end.

(** What a callback that runs for the connection [ws] of the room [doc]
    (a frame, a close, a failed write) can and cannot change. *)
Record footprint (doc : docref) (ws : conn) (w w' : World Y) : Prop := {
  fp_handlers : handlers w' = handlers w;
  fp_other : forall d, d ≠ doc -> heap w' !! d = heap w !! d;
  fp_name : name_of w' doc = name_of w doc;
  fp_docs :
      docs w' = docs w
      \/ (conns_of w doc ≠ [] /\ conns_of w' doc = []
          /\ docs w' = delete (name_of w doc) (docs w));
  fp_registered : forall c, registered w' doc c -> registered w doc c;
  fp_outside : forall c, c ≠ ws -> ~ registered w doc c -> socks w' !! c = socks w !! c;
  fp_socks : forall c, is_Some (socks w' !! c) <-> is_Some (socks w !! c);
  fp_dead : forall c, readyState_of w c ≠ OPEN -> readyState_of w' c ≠ OPEN;
  fp_closed : forall c, registered w doc c -> ~ registered w' doc c ->
      readyState_of w' c ≠ OPEN;
  fp_keeps : forall c, c ≠ ws -> healthy w c ->
      healthy w' c /\ conns_get c (conns_of w' doc) = conns_get c (conns_of w doc);
  fp_sent : forall c, exists extra, sent_of w' c = sent_of w c ++ extra
      /\ Forall relayFrame extra /\ (extra ≠ [] -> readyState_of w c = OPEN)
}.

(** How connections, listeners and sockets hang together between two
    callbacks: a connection in the map of a room has the listeners that
    [setupConnection] attached for that room; listeners sit on a socket;
    and a socket with listeners that is open is in the map of its room. *)
Record linked (w : World Y) : Prop := {
  linked_room : forall d c, registered w d c -> handlers w !! c = Some d;
  linked_sock : forall c, is_Some (handlers w !! c) -> is_Some (socks w !! c);
  linked_open : forall c d, handlers w !! c = Some d -> readyState_of w c = OPEN ->
      registered w d c
}.

End Footprint.

(** ** The whiteboard client ([ExcalidrawCanvas.tsx]): local changes

    The component keeps the scene in the shared map [elements] of its
    document, keyed by element id.  The refs of the component: the flag
    [isLocalChange], the document (here: whether the ref holds one) and
    the shared map.  The map is modelled by its content, key to element;
    that every [set] is a new operation of the document, also when it
    writes the value that is there, is not part of the model. *)

Module Canvas.
Section Canvas.
Context {Element : Type} (id : Element -> string).   (* [el.id] *)

Record Refs := mkRefs {
  isLocalChange : bool;
  yDocRef : bool;
  yElementsRef : option (gmap string Element)
}.

(** The callback of [yDoc.transact] in [handleChange]: every element of
    the scene is stored under its id and its id is struck from the set of
    keys the map had; what is left in that set is deleted from the map. *)
Definition syncScene (elements : list Element) (yElements : gmap string Element)
    : gmap string Element :=
  let currentKeys : gset string := dom yElements in
  let '(yElements1, currentKeys1) :=
    foldl (fun '(m, ks) el => (<[id el := el]> m, ks ∖ {[id el]}))
          (yElements, currentKeys) elements in
  set_fold (fun key m => delete key m) yElements1 currentKeys1.

(** [handleChange(elements, appState)] *)
Definition handleChange (elements : list Element) (r : Refs) : Refs :=
  if isLocalChange r then r
  else match yElementsRef r, yDocRef r with
       | Some yElements, true =>
           {| isLocalChange := isLocalChange r; yDocRef := yDocRef r;
              yElementsRef := Some (syncScene elements yElements) |}
       | _, _ => r
       end.

End Canvas.
End Canvas.

(** * Properties *)

(** ** lib0 *)

Example writeVarUint_300 : writeVarUint 300 = [xac; x02].
Proof. reflexivity. Qed.

Example readVarUint_300 : readVarUint [xac; x02; x07] = Some (300, [x07]).
Proof. reflexivity. Qed.

(** Round trip of the variable-length integer, for every safe integer. *)

Lemma write_small (n : N) : n < 256 -> Byte.to_N (write n) = n.
Proof.
  intros Hn. unfold write.
  assert (Hl : N.land n 255 = n).
  { change 255 with (N.ones 8). rewrite N.land_ones.
    apply N.mod_small. exact Hn. }
  rewrite Hl. destruct (Byte.of_N n) as [b|] eqn:E.
  - apply Byte.to_of_N in E. exact E.
  - apply Byte.of_N_None_iff in E. lia.
Qed.

Lemma land_BITS7 (n : N) : N.land BITS7 n = n mod 128.
Proof.
  rewrite N.land_comm. change BITS7 with (N.ones 7).
  rewrite N.land_ones. reflexivity.
Qed.

Lemma lor_BIT8 (r : N) : r < 128 -> N.lor BIT8 r = 128 + r.
Proof.
  intros Hr. unfold BIT8.
  assert (Hz : N.land 128 r = 0).
  { apply N.bits_inj_0. intros k. rewrite N.land_spec.
    destruct (N.eq_dec k 7) as [->|Hk].
    - assert (Hb : N.testbit r 7 = false).
      { destruct (N.eq_dec r 0) as [->|Hnz]; [apply N.bits_0|].
        apply N.bits_above_log2. apply N.log2_lt_pow2; lia. }
      rewrite Hb. apply andb_false_r.
    - change 128 with (2 ^ 7). rewrite N.pow2_bits_false by congruence.
      reflexivity. }
  rewrite <- N.lxor_lor by exact Hz.
  symmetry. apply N.add_nocarry_lxor. exact Hz.
Qed.

Lemma readVarUint_loop_write (g : nat) (num acc mult : N) (rest : bytes) :
  num < 2 ^ N.of_nat g ->
  acc + num * mult <= MAX_SAFE_INTEGER ->
  readVarUint_loop acc mult (writeVarUint_loop g num ++ rest)
  = Some (acc + num * mult, rest).
Proof.
  revert num acc mult. induction g as [|g IH]; intros num acc mult Hlt Hsafe.
  - simpl in Hlt. assert (num = 0) as -> by lia.
    cbn [writeVarUint_loop app readVarUint_loop].
    change (write (N.land BITS7 0)) with x00.
    change (Byte.to_N x00) with 0.
    change (0 <? BIT8) with true. cbn iota.
    change (N.land 0 BITS7) with 0. reflexivity.
  - cbn [writeVarUint_loop]. destruct (N.ltb_spec BITS7 num) as [Hbig|Hsmall].
    + cbn [app readVarUint_loop].
      rewrite land_BITS7.
      assert (Hm : num mod 128 < 128) by (apply N.mod_lt; discriminate).
      pose proof (N.div_mod num 128 ltac:(discriminate)) as Hdm.
      assert (Hland : N.land (128 + num mod 128) BITS7 = num mod 128).
      { rewrite N.land_comm, land_BITS7.
        rewrite N.Div0.add_mod, N.Div0.mod_same, N.add_0_l.
        rewrite !N.Div0.mod_mod. reflexivity. }
      rewrite lor_BIT8 by exact Hm.
      replace (N.of_nat (S g)) with (N.succ (N.of_nat g)) in Hlt by lia.
      rewrite N.pow_succ_r' in Hlt.
      remember (num mod 128) as r eqn:Er.
      remember (num / 128) as q eqn:Eq. clear Er Eq.
      rewrite write_small by lia. rewrite Hland.
      destruct (N.ltb_spec (128 + r) BIT8) as [Hc|_]; [unfold BIT8 in Hc; lia|].
      assert (Hle : acc + r * mult <= MAX_SAFE_INTEGER) by nia.
      destruct (N.ltb_spec MAX_SAFE_INTEGER (acc + r * mult)) as [Hc|_]; [lia|].
      rewrite IH.
      * f_equal. f_equal. nia.
      * lia.
      * nia.
    + unfold BITS7 in Hsmall. cbn [app readVarUint_loop].
      rewrite land_BITS7, N.mod_small by lia.
      rewrite write_small by lia.
      rewrite N.land_comm, land_BITS7, N.mod_small by lia.
      destruct (N.ltb_spec num BIT8) as [_|Hc]; [reflexivity|unfold BIT8 in Hc; lia].
Qed.

Lemma size_nat_size (n : N) : N.of_nat (N.size_nat n) = N.size n.
Proof.
  destruct n as [|p]; [reflexivity|]. cbn [N.size_nat N.size].
  induction p as [p IH|p IH|]; cbn [Pos.size_nat Pos.size]; [| |reflexivity].
  - rewrite Nat2N.inj_succ, IH. cbn. lia.
  - rewrite Nat2N.inj_succ, IH. cbn. lia.
Qed.

Lemma readVarUint_writeVarUint (num : N) (rest : bytes) :
  num <= MAX_SAFE_INTEGER ->
  readVarUint (writeVarUint num ++ rest) = Some (num, rest).
Proof.
  intros Hsafe. unfold readVarUint, writeVarUint.
  rewrite readVarUint_loop_write.
  - f_equal. f_equal. lia.
  - rewrite size_nat_size. apply N.size_gt.
  - lia.
Qed.

Lemma readVarUint8Array_writeVarUint8Array (arr rest : bytes) :
  N.of_nat (length arr) <= MAX_SAFE_INTEGER ->
  readVarUint8Array (writeVarUint8Array arr ++ rest) = Some (arr, rest).
Proof.
  intros Hsafe. unfold readVarUint8Array, writeVarUint8Array.
  rewrite <- app_assoc, readVarUint_writeVarUint by exact Hsafe.
  rewrite length_app.
  destruct (N.ltb_spec (N.of_nat (length arr + length rest)) (N.of_nat (length arr))) as [Hc|_]; [lia|].
  rewrite Nat2N.id, take_app_length, drop_app_length. reflexivity.
Qed.

(** ** Reading and writing the process state *)

Ltac unfold_world :=
  unfold healthy, registered, conns_of, awareness_of, ydoc_of, observed_of, name_of,
    readyState_of, sendThrows_of, sent_of,
    set_conns, set_awareness, set_ydoc, destroy, set_heap, set_socks, set_docs,
    set_handlers, console_error in *; cbn [docs heap socks handlers errors] in *.

(** Closes a goal that reads a field of one room after a write to the heap *)
Ltac solve_heap_read :=
  unfold_world;
  rewrite ?lookup_alter_eq; rewrite ?lookup_alter_ne by done;
  repeat match goal with
         | |- context [?h !! ?d] => destruct (h !! d); cbn
         end; done.

Section Accessors.
Context {Y : YEngine}.
Implicit Types (w : World Y) (doc d : docref) (c : conn) (m : ConnMap).

Lemma conns_get_delete c c' m :
  conns_get c' (conns_delete c m) = if decide (c' = c) then None else conns_get c' m.
Proof.
  unfold conns_delete. induction m as [|e m IH]; [by case_decide|].
  rewrite filter_cons. cbn [conns_get]. repeat case_decide; subst; cbn [conns_get];
    repeat case_decide; subst; try done; try congruence.
Qed.

Lemma conns_get_filter (D : list conn) c m :
  conns_get c (filter (fun e => e.1 ∉ D) m)
  = if decide (c ∈ D) then None else conns_get c m.
Proof.
  induction m as [|e m IH]; [by case_decide|].
  rewrite filter_cons. cbn [conns_get]. repeat case_decide; subst; cbn [conns_get];
    repeat case_decide; subst; try done; try congruence.
Qed.

Lemma conns_delete_filter c m :
  conns_delete c m = filter (fun e => e.1 ∉ [c]) m.
Proof.
  unfold conns_delete. apply list_filter_iff. intros e.
  rewrite list_elem_of_singleton. done.
Qed.

Lemma conns_get_set c c' ids m :
  conns_get c' (conns_set c ids m) = if decide (c' = c) then Some ids else conns_get c' m.
Proof.
  induction m as [|e m IH]; cbn [conns_set conns_get].
  - repeat case_decide; simpl in *; congruence.
  - repeat case_decide; subst; cbn [conns_get]; repeat case_decide; simpl in *;
      subst; try done; try congruence.
Qed.

Lemma conns_get_keys c m : is_Some (conns_get c m) <-> c ∈ conns_keys m.
Proof.
  unfold conns_keys. induction m as [|e m IH]; cbn [conns_get fmap list_fmap].
  - split; [intros [? ?]; done | intros H; inversion H].
  - case_decide; subst.
    + split; [intros _; left | intros _; eauto].
    + rewrite IH. split; [intros; by right | intros H1; inversion H1; subst; done].
Qed.

Lemma conns_of_set_conns w doc m :
  is_Some (heap w !! doc) -> conns_of (set_conns doc m w) doc = m.
Proof. intros [x Hx]. unfold_world. by rewrite lookup_alter_eq, Hx. Qed.

Lemma conns_of_set_conns_ne w doc d m :
  d ≠ doc -> conns_of (set_conns doc m w) d = conns_of w d.
Proof. intros Hd. solve_heap_read. Qed.

Lemma conns_of_set_awareness w doc d a :
  conns_of (set_awareness doc a w) d = conns_of w d.
Proof. destruct (decide (d = doc)) as [->|Hd]; solve_heap_read. Qed.

Lemma conns_of_set_ydoc w doc d y :
  conns_of (set_ydoc doc y w) d = conns_of w d.
Proof. destruct (decide (d = doc)) as [->|Hd]; solve_heap_read. Qed.

Lemma conns_of_destroy w doc d :
  conns_of (destroy doc w) d = conns_of w d.
Proof. destruct (decide (d = doc)) as [->|Hd]; solve_heap_read. Qed.

Lemma registered_alive w doc c : registered w doc c -> is_Some (heap w !! doc).
Proof. unfold registered, conns_of. destruct (heap w !! doc); [eauto|by intros [? ?]]. Qed.

Lemma conns_delete_length c m ids :
  conns_get c m = Some ids -> (length (conns_delete c m) < length m)%nat.
Proof.
  intros Eg. assert (Hin : c ∈ conns_keys m) by (apply conns_get_keys; eauto).
  unfold conns_keys in Hin. apply list_elem_of_fmap in Hin as (e & -> & Hin).
  unfold conns_delete. eapply length_filter_lt; [exact Hin|]. by intros ?.
Qed.

End Accessors.
(** ** What the effects of [closeConn] are confined to *)

Section Confinement.
Context {Y : YEngine}.
Implicit Types (w : World Y) (doc d : docref) (c : conn) (forced : conn -> Prop)
  (xf : conn -> bytes -> Prop).

Lemma healthy_dec w c : {healthy w c} + {~ healthy w c}.
Proof. unfold healthy. apply and_dec; [apply ReadyState_eq_dec | apply bool_eq_dec]. Defined.

Lemma filter_none_deleted (m : ConnMap) : filter (fun e => e.1 ∉ ([] : list conn)) m = m.
Proof.
  induction m as [|e m IH]; [done|].
  rewrite filter_cons_True; [by rewrite IH | apply not_elem_of_nil].
Qed.

Lemma confined_refl doc forced xf w : confined doc forced xf w w.
Proof.
  split; try done; try (by left).
  - exists []. split; [by rewrite filter_none_deleted | intros c Hc; inversion Hc].
  - intros c. destruct (socks w !! c) as [s|] eqn:E; [|done].
    exists s. repeat split; try done; [by left|].
    exists []. rewrite app_nil_r. split; [done|]. split; [apply Forall_nil_2|done].
Qed.

Lemma healthy_confined doc forced xf w w' c :
  confined doc forced xf w w' -> healthy w' c -> healthy w c.
Proof.
  intros H [Hr Ht]. pose proof (confined_socks _ _ _ _ _ H c) as Hs.
  unfold healthy, readyState_of, sendThrows_of in *.
  destruct (socks w !! c) as [s|]; [|by rewrite Hs in Hr].
  destruct Hs as (s' & Es' & Hst & [Hrs|[Hrs _]] & _); rewrite Es' in Hr, Ht;
    cbn in *; split; congruence.
Qed.

Lemma confined_trans doc forced xf w1 w2 w3 :
  confined doc forced xf w1 w2 -> confined doc forced xf w2 w3 -> confined doc forced xf w1 w3.
Proof.
  intros H12 H23.
  assert (Hback : forall c, ~ healthy w2 c \/ forced c -> ~ healthy w1 c \/ forced c).
  { intros c [Hn|Hf]; [|by right].
    destruct (healthy_dec w1 c) as [Hh|Hh]; [|by left].
    pose proof (confined_socks _ _ _ _ _ H12 c) as Hs.
    destruct Hh as [Hr Ht]. unfold healthy, readyState_of, sendThrows_of in *.
    destruct (socks w1 !! c) as [s|]; [|done]. cbn in *.
    destruct Hs as (s' & Es' & Hst & [Hrs|[_ Hrs]] & _); [|done].
    exfalso. apply Hn. rewrite Es'. cbn. split; congruence. }
  pose proof H12 as K12.
  destruct H12 as [Hh1 He1 Ho1 Ha1 Hn1 Hy1 (D1 & Hc1 & HD1) Hd1 Hob1 Hs1].
  destruct H23 as [Hh2 He2 Ho2 Ha2 Hn2 Hy2 (D2 & Hc2 & HD2) Hd2 Hob2 Hs2].
  assert (Hnil : conns_of w2 doc = [] -> conns_of w3 doc = []).
  { intros E. by rewrite Hc2, E. }
  split.
  - congruence.
  - congruence.
  - intros d Hd. by rewrite Ho2, Ho1.
  - by rewrite Ha2.
  - congruence.
  - congruence.
  - exists (D1 ++ D2). split.
    + rewrite Hc2, Hc1, list_filter_filter. apply list_filter_iff.
      intros e. rewrite elem_of_app. tauto.
    + intros c [Hc|Hc]%elem_of_app; [by apply HD1 | apply Hback; by apply HD2].
  - destruct Hd1 as [E1|[E1 E1']], Hd2 as [E2|[E2 E2']].
    + left; congruence.
    + right. split; [done|]. rewrite E2', Hn1, E1. done.
    + right. split; [by apply Hnil|]. congruence.
    + right. split; [done|]. rewrite E2', E1', Hn1. apply delete_delete_eq.
  - destruct Hob1 as [E1|[E1 E1']], Hob2 as [E2|[E2 E2']].
    + left; congruence.
    + by right.
    + right. split; [by apply Hnil | congruence].
    + by right.
  - intros c. specialize (Hs1 c). specialize (Hs2 c).
    destruct (socks w1 !! c) as [s1|] eqn:Es1.
    + destruct Hs1 as (s2 & Es2 & Ht1 & Hr1 & Hcl1 & ex1 & Hx1 & Hp1 & Hne1).
      rewrite Es2 in Hs2.
      destruct Hs2 as (s3 & Es3 & Ht2 & Hr2 & Hcl2 & ex2 & Hx2 & Hp2 & Hne2).
      exists s3. split; [done|]. split; [congruence|]. split.
      { destruct Hr2 as [Hr2|[Hr2 Hu2]]; [|right; split; [done|by apply Hback]].
        destruct Hr1 as [Hr1|[Hr1 Hu1]]; [left; congruence|right; split; [congruence|done]]. }
      split; [lia|].
      exists (ex1 ++ ex2). split; [by rewrite Hx2, Hx1, app_assoc|].
      split; [by apply Forall_app|].
      intros Hne. destruct ex1 as [|x1 ex1].
      * destruct ex2 as [|x2 ex2]; [done|].
        destruct Hne2 as [Hh Hreg]; [done|]. split.
        -- exact (healthy_confined _ _ _ _ _ _ K12 Hh).
        -- unfold registered in *. rewrite Hc1, conns_get_filter in Hreg.
           by case_decide; [destruct Hreg|].
      * by apply Hne1.
    + by rewrite Hs1 in Hs2.
Qed.


Lemma socks_clause_same doc forced xf w w' :
  socks w' = socks w -> socks_clause doc forced xf w w'.
Proof.
  intros E c. rewrite E. destruct (socks w !! c) as [s|] eqn:Es; [|done].
  exists s. repeat split; try done; [by left|].
  exists []. rewrite app_nil_r. split; [done|]. split; [apply Forall_nil_2|done].
Qed.

Lemma effect_confined doc forced xf w w' :
  effect doc forced xf w w' -> confined doc forced xf w w'.
Proof.
  intros H. destruct H as [c w Hc|ids w|c m w Hh Hreg Hm|w Hnil|c w Hc].
  - split; try done; try (by left).
    + intros d Hd. unfold_world. by rewrite lookup_alter_ne.
    + unfold_world. by rewrite lookup_alter_is_Some.
    + unfold_world. rewrite lookup_alter_eq. by destruct (heap w !! doc).
    + unfold_world. rewrite lookup_alter_eq. by destruct (heap w !! doc).
    + exists [c]. split.
      * rewrite <- conns_delete_filter. unfold_world. rewrite lookup_alter_eq.
        by destruct (heap w !! doc).
      * intros c' ->%list_elem_of_singleton. done.
    + left. unfold_world. rewrite lookup_alter_eq. by destruct (heap w !! doc).
    + by apply socks_clause_same.
  - split; try done; try (by left).
    + intros d Hd. unfold_world. by rewrite lookup_alter_ne.
    + unfold_world. by rewrite lookup_alter_is_Some.
    + unfold_world. rewrite lookup_alter_eq. by destruct (heap w !! doc).
    + unfold_world. rewrite lookup_alter_eq. by destruct (heap w !! doc).
    + exists []. split; [|intros ? Hin; inversion Hin].
      rewrite filter_none_deleted. unfold_world. rewrite lookup_alter_eq.
      by destruct (heap w !! doc).
    + left. unfold_world. rewrite lookup_alter_eq. by destruct (heap w !! doc).
    + by apply socks_clause_same.
  - split; try done; try (by left).
    + exists []. split; [|intros ? Hin; inversion Hin].
      by rewrite filter_none_deleted.
    + intros c'. cbn [socks set_socks]. destruct (decide (c' = c)) as [->|Hne].
      * rewrite lookup_alter_eq. destruct (socks w !! c) as [s|] eqn:Es; [|done].
        exists (ws_send m s). cbn. repeat split; try done; [by left|].
        exists [m]. split; [done|]. split; [by apply Forall_singleton|].
        intros _. by split.
      * rewrite lookup_alter_ne by done.
        destruct (socks w !! c') as [s|] eqn:Es; [|done].
        exists s. repeat split; try done; [by left|].
        exists []. rewrite app_nil_r. split; [done|]. split; [apply Forall_nil_2|done].
  - split; try done.
    + intros d Hd. unfold_world. by rewrite lookup_alter_ne.
    + unfold_world. by rewrite lookup_alter_is_Some.
    + unfold_world. rewrite lookup_alter_eq. by destruct (heap w !! doc).
    + unfold_world. rewrite lookup_alter_eq. by destruct (heap w !! doc).
    + exists []. split; [|intros ? Hin; inversion Hin].
      rewrite filter_none_deleted. unfold_world. rewrite lookup_alter_eq.
      by destruct (heap w !! doc).
    + right. split; [|done]. unfold_world. rewrite lookup_alter_eq.
      by destruct (heap w !! doc).
    + right. unfold_world. rewrite lookup_alter_eq.
      by destruct (heap w !! doc).
    + by apply socks_clause_same.
  - split; try done; try (by left).
    + exists []. split; [|intros ? Hin; inversion Hin].
      by rewrite filter_none_deleted.
    + intros c'. cbn [socks set_socks]. destruct (decide (c' = c)) as [->|Hne].
      * rewrite lookup_alter_eq. destruct (socks w !! c) as [s|] eqn:Es; [|done].
        exists (ws_close s). cbn. repeat split; try done.
        -- destruct (readyState s); try (by left); right; done.
        -- lia.
        -- exists []. rewrite app_nil_r. split; [done|]. split; [apply Forall_nil_2|done].
      * rewrite lookup_alter_ne by done.
        destruct (socks w !! c') as [s|] eqn:Es; [|done].
        exists s. repeat split; try done; [by left|].
        exists []. rewrite app_nil_r. split; [done|]. split; [apply Forall_nil_2|done].
Qed.

Lemma effects_confined doc forced xf w w' :
  effects doc forced xf w w' -> confined doc forced xf w w'.
Proof.
  induction 1 as [|w1 w2 w3 H12 _ IH]; [apply confined_refl|].
  eapply confined_trans; [by apply effect_confined | exact IH].
Qed.


Lemma effects_trans doc forced xf w1 w2 w3 :
  effects doc forced xf w1 w2 -> effects doc forced xf w2 w3 -> effects doc forced xf w1 w3.
Proof. unfold effects. intros H1 H2. by etrans. Qed.

Lemma confined_length doc forced xf w w' :
  confined doc forced xf w w' -> (length (conns_of w' doc) <= length (conns_of w doc))%nat.
Proof.
  intros H. destruct (confined_conns _ _ _ _ _ H) as (D & -> & _). apply length_filter.
Qed.

Lemma conns_has_registered w doc c :
  conns_has c (conns_of w doc) = true <-> registered w doc c.
Proof. unfold conns_has, registered. apply bool_decide_eq_true. Qed.

(** A loop over the connection map whose callback only has such effects *)
Lemma forEach_effects doc forced xf (n : nat) (f : conn -> World Y -> option (World Y)) :
  (forall c w, registered w doc c -> (length (conns_of w doc) <= n)%nat ->
     exists w', f c w = Some w' /\ effects doc forced xf w w') ->
  forall keys w, (length (conns_of w doc) <= n)%nat ->
    exists w', forEach_conns f doc keys w = Some w' /\ effects doc forced xf w w'.
Proof.
  intros Hf keys. induction keys as [|c keys IH]; intros w Hn; cbn [forEach_conns].
  - exists w. split; [done | apply rtc_refl].
  - destruct (conns_has c (conns_of w doc)) eqn:Ec; [|by apply IH].
    apply conns_has_registered in Ec.
    destruct (Hf c w Ec Hn) as (w1 & -> & H1). cbn.
    destruct (IH w1) as (w2 & E2 & H2).
    { pose proof (confined_length _ _ _ _ _ (effects_confined _ _ _ _ _ H1)). lia. }
    exists w2. split; [done|]. by eapply effects_trans.
Qed.

Lemma presenceFrame_buff (payload : bytes) :
  presenceFrame (writeVarUint messageAwareness ++ payload).
Proof. by exists payload. Qed.

Lemma unhealthy_confined doc forced xf w w' c :
  confined doc forced xf w w' -> ~ healthy w c \/ forced c -> ~ healthy w' c \/ forced c.
Proof.
  intros H [Hn|Hf]; [left|by right]. intros Hh. apply Hn.
  by eapply healthy_confined.
Qed.

(** [send] on a registered connection, given what its [closeConn] does *)
Lemma send_with_effects doc forced xf (n : nat) closeConn :
  (forall c w, (length (conns_of w doc) <= n)%nat -> ~ healthy w c \/ forced c ->
     exists w', closeConn doc c w = Some w' /\ effects doc forced xf w w') ->
  forall c m w, presenceFrame m \/ xf c m -> registered w doc c ->
    (length (conns_of w doc) <= n)%nat ->
    exists w', send_with closeConn doc c m w = Some w' /\ effects doc forced xf w w'.
Proof.
  intros Hclose c m w Hm Hreg Hn. unfold send_with.
  destruct (decide (readyState_of w c = OPEN)) as [Hr|Hr].
  - rewrite (bool_decide_eq_true_2 _ Hr). cbn [negb].
    destruct (sendThrows_of w c) eqn:Ht.
    + apply Hclose; [done|]. left. intros [_ Hh]. congruence.
    + eexists. split; [done|]. apply rtc_once. by apply effect_write.
  - rewrite (bool_decide_eq_false_2 _ Hr). cbn [negb].
    apply Hclose; [done|]. left. by intros [Hh _].
Qed.

Lemma closeConn_depth_effects (n : nat) doc forced xf c w :
  (length (conns_of w doc) <= n)%nat -> ~ healthy w c \/ forced c ->
  exists w', closeConn_depth n doc c w = Some w' /\ effects doc forced xf w w'.
Proof.
  revert c w. induction n as [|n IH]; intros c w Hn Hc.
  - destruct (conns_get c (conns_of w doc)) as [ids|] eqn:Eg.
    + destruct (conns_of w doc); [done | cbn in Hn; lia].
    + cbn [closeConn_depth]. rewrite Eg. eexists. split; [done|].
      apply rtc_once. by apply effect_close.
  - cbn [closeConn_depth].
    destruct (conns_get c (conns_of w doc)) as [ids|] eqn:Eg.
    2:{ eexists. split; [done|]. apply rtc_once. by apply effect_close. }
    set (w1 := set_conns doc (conns_delete c (conns_of w doc)) w).
    assert (H1 : effects doc forced xf w w1) by (apply rtc_once; by apply effect_delete).
    assert (Hn1 : (length (conns_of w1 doc) <= n)%nat).
    { assert (Hlt : (length (conns_of w1 doc) < length (conns_of w doc))%nat); [|lia].
      assert (Hal : is_Some (heap w !! doc)).
      { unfold conns_of in Eg. destruct (heap w !! doc); [eauto|done]. }
      assert (E1 : conns_of w1 doc = conns_delete c (conns_of w doc)).
      { subst w1. unfold_world. rewrite lookup_alter_eq. by destruct Hal as [? ->]. }
      rewrite E1. unfold conns_delete.
      assert (Hin : c ∈ conns_keys (conns_of w doc)) by (apply conns_get_keys; eauto).
      unfold conns_keys in Hin. apply list_elem_of_fmap in Hin as (e & -> & Hin).
      eapply length_filter_lt; [exact Hin|]. by intros ?. }
    destruct (removeAwarenessStates (awareness_of w1 doc) ids) as [a gone] eqn:Er.
    set (w2 := set_awareness doc a w1).
    assert (H2 : effects doc forced xf w1 w2).
    { apply rtc_once. subst w2. replace a with (removeAwarenessStates (awareness_of w1 doc) ids).1
        by (by rewrite Er). apply effect_remove. }
    assert (H12 : effects doc forced xf w w2) by (by eapply effects_trans).
    assert (Hn2 : (length (conns_of w2 doc) <= n)%nat).
    { pose proof (confined_length _ _ _ _ _ (effects_confined _ _ _ _ _ H2)). lia. }
    assert (H3 : exists w3,
      (if observed_of w2 doc && negb (bool_decide (gone = []))
       then awarenessChangeHandler_with (closeConn_depth n) doc (mkChanges [] [] gone) None w2
       else Some w2) = Some w3 /\ effects doc forced xf w2 w3).
    { destruct (observed_of w2 doc && negb (bool_decide (gone = []))).
      2:{ exists w2. split; [done | apply rtc_refl]. }
      unfold awarenessChangeHandler_with. cbn [mbind option_bind].
      apply (forEach_effects doc forced xf n); [|done].
      intros c' w' Hreg Hn'.
      apply (send_with_effects doc forced xf n);
        [|left; apply presenceFrame_buff|done|done].
      intros c'' w'' Hn'' Hc''. by apply IH. }
    destruct H3 as (w3 & -> & H3). cbn [mbind option_bind].
    assert (H13 : effects doc forced xf w w3) by (by eapply effects_trans).
    eexists. split; [done|].
    eapply effects_trans; [exact H13|].
    case_bool_decide as Hl.
    + eapply rtc_l.
      * apply effect_destroy. by apply length_zero_iff_nil.
      * apply rtc_once. apply effect_close.
        eapply unhealthy_confined; [|exact Hc].
        apply effects_confined. eapply effects_trans; [exact H13|].
        apply rtc_once. apply effect_destroy. by apply length_zero_iff_nil.
    + apply rtc_once. apply effect_close.
      eapply unhealthy_confined; [|exact Hc]. by apply effects_confined.
Qed.

End Confinement.

(** ** The depth bound of [closeConn] does not matter once it is large enough *)

Section Depth.
Context {Y : YEngine}.
Implicit Types (w : World Y) (doc d : docref) (c : conn) (forced : conn -> Prop)
  (xf : conn -> bytes -> Prop).

Lemma closeConn_depth_S_eq (n : nat) doc c w :
  closeConn_depth (S n) doc c w =
  match conns_get c (conns_of w doc) with
  | Some controlledIds =>
      let w1 := set_conns doc (conns_delete c (conns_of w doc)) w in
      let '(a, gone) := removeAwarenessStates (awareness_of w1 doc) controlledIds in
      let w2 := set_awareness doc a w1 in
      w3 ← (if observed_of w2 doc && negb (bool_decide (gone = []))
            then awarenessChangeHandler_with (closeConn_depth n) doc
                   (mkChanges [] [] gone) None w2
            else Some w2);
      let w4 := if bool_decide (length (conns_of w3 doc) = 0%nat)
                then set_docs (delete (name_of w3 doc)) (destroy doc w3)
                else w3 in
      Some (set_socks (alter ws_close c) w4)
  | None => Some (set_socks (alter ws_close c) w)
  end.
Proof. reflexivity. Qed.

Lemma closeConn_depth_unregistered (n : nat) doc c w :
  conns_get c (conns_of w doc) = None ->
  closeConn_depth n doc c w = Some (set_socks (alter ws_close c) w).
Proof. intros E. destruct n; cbn [closeConn_depth]; by rewrite E. Qed.

Lemma forEach_conns_mono (f g : conn -> World Y -> option (World Y)) doc keys w w' :
  (forall c w w', f c w = Some w' -> g c w = Some w') ->
  forEach_conns f doc keys w = Some w' -> forEach_conns g doc keys w = Some w'.
Proof.
  intros Hfg. revert w. induction keys as [|c keys IH]; intros w; cbn [forEach_conns]; [done|].
  destruct (conns_has c (conns_of w doc)); [|apply IH].
  destruct (f c w) as [w1|] eqn:E1; [|done]. cbn.
  rewrite (Hfg _ _ _ E1). cbn. apply IH.
Qed.

Lemma send_with_mono (f g : docref -> conn -> World Y -> option (World Y)) doc c m w w' :
  (forall c w w', f doc c w = Some w' -> g doc c w = Some w') ->
  send_with f doc c m w = Some w' -> send_with g doc c m w = Some w'.
Proof.
  intros Hfg. unfold send_with.
  destruct (negb _); [apply Hfg|]. destruct (sendThrows_of w c); [apply Hfg|done].
Qed.

Lemma closeConn_depth_S (n : nat) doc c w w' :
  closeConn_depth n doc c w = Some w' -> closeConn_depth (S n) doc c w = Some w'.
Proof.
  revert c w w'. induction n as [|n IH]; intros c w w'.
  - cbn [closeConn_depth]. destruct (conns_get c (conns_of w doc)); [done|].
    intros <-. done.
  - rewrite !closeConn_depth_S_eq.
    destruct (conns_get c (conns_of w doc)) as [ids|]; [|done]. cbn zeta.
    destruct (removeAwarenessStates _ ids) as [a gone].
    destruct (observed_of _ doc && negb (bool_decide (gone = []))); [|done].
    match goal with |- context [awarenessChangeHandler_with (closeConn_depth n) ?d ?ch ?o ?x] =>
      destruct (awarenessChangeHandler_with (closeConn_depth n) d ch o x) as [w3|] eqn:E3
    end; [|done].
    unfold awarenessChangeHandler_with in *.
    erewrite forEach_conns_mono; [done| |exact E3].
    intros c1 x1 x2. apply send_with_mono. intros c2 y1 y2. apply IH.
Qed.

Lemma closeConn_depth_le (n n' : nat) doc c w w' :
  (n <= n')%nat ->
  closeConn_depth n doc c w = Some w' -> closeConn_depth n' doc c w = Some w'.
Proof. induction 1; [done|]. intros H1. by apply closeConn_depth_S, IHle. Qed.

(** [closeConn] always returns. *)
Lemma closeConn_total doc c w : is_Some (closeConn doc c w).
Proof.
  destruct (closeConn_depth_effects (length (conns_of w doc)) doc (fun _ => True) (fun _ _ => False) c w)
    as (w' & E & _); [done|by right|]. unfold closeConn. rewrite E. eauto.
Qed.

Lemma closeConn_depth_enough (n : nat) doc c w :
  (length (conns_of w doc) <= n)%nat -> closeConn_depth n doc c w = closeConn doc c w.
Proof.
  intros Hn. destruct (closeConn_total doc c w) as [w' E]. rewrite E.
  eapply closeConn_depth_le; [exact Hn|exact E].
Qed.

Lemma closeConn_effects doc forced xf c w :
  ~ healthy w c \/ forced c ->
  exists w', closeConn doc c w = Some w' /\ effects doc forced xf w w'.
Proof. intros Hc. by apply closeConn_depth_effects. Qed.

Lemma send_effects doc forced xf c m w :
  presenceFrame m \/ xf c m -> registered w doc c ->
  exists w', send doc c m w = Some w' /\ effects doc forced xf w w'.
Proof.
  intros Hm Hreg. unfold send.
  apply (send_with_effects doc forced xf (length (conns_of w doc))); try done.
  intros c' w' Hn Hc'. destruct (closeConn_effects doc forced xf c' w' Hc') as (w'' & E & He).
  eauto.
Qed.

(** Two callbacks that agree wherever the loop gets give the same loop. *)
Lemma forEach_conns_ext doc forced xf (n : nat)
    (f g : conn -> World Y -> option (World Y)) keys w :
  (forall c w, registered w doc c -> (length (conns_of w doc) <= n)%nat ->
     exists w', f c w = Some w' /\ effects doc forced xf w w') ->
  (forall c w, registered w doc c -> (length (conns_of w doc) <= n)%nat ->
     g c w = f c w) ->
  (length (conns_of w doc) <= n)%nat ->
  forEach_conns g doc keys w = forEach_conns f doc keys w.
Proof.
  intros Hf Hg. revert w. induction keys as [|c keys IH]; intros w Hn;
    cbn [forEach_conns]; [done|].
  destruct (conns_has c (conns_of w doc)) eqn:Ec; [|by apply IH].
  apply conns_has_registered in Ec. rewrite (Hg c w Ec Hn).
  destruct (Hf c w Ec Hn) as (w1 & -> & H1). cbn. apply IH.
  pose proof (confined_length _ _ _ _ _ (effects_confined _ _ _ _ _ H1)). lia.
Qed.

Lemma send_with_depth (n : nat) doc c m w :
  (length (conns_of w doc) <= n)%nat ->
  send_with (closeConn_depth n) doc c m w = send doc c m w.
Proof.
  intros Hn. unfold send, send_with. by rewrite closeConn_depth_enough.
Qed.

Lemma awarenessChangeHandler_depth (n : nat) doc gone w :
  (length (conns_of w doc) <= n)%nat ->
  awarenessChangeHandler_with (closeConn_depth n) doc (mkChanges [] [] gone) None w
  = awarenessChangeHandler doc (mkChanges [] [] gone) None w.
Proof.
  intros Hn. unfold awarenessChangeHandler, awarenessChangeHandler_with.
  cbn [mbind option_bind].
  apply (forEach_conns_ext doc (fun _ => False) (fun _ _ => False) n); [| |done].
  - intros c w' Hreg _. apply send_effects; [left; apply presenceFrame_buff|done].
  - intros c w' Hreg Hn'. by apply send_with_depth.
Qed.

(** The body of [closeConn], as the source has it *)
Lemma closeConn_eq doc c w :
  closeConn doc c w =
  match conns_get c (conns_of w doc) with
  | Some controlledIds =>
      let w1 := set_conns doc (conns_delete c (conns_of w doc)) w in
      let '(a, gone) := removeAwarenessStates (awareness_of w1 doc) controlledIds in
      let w2 := set_awareness doc a w1 in
      w3 ← (if observed_of w2 doc && negb (bool_decide (gone = []))
            then awarenessChangeHandler doc (mkChanges [] [] gone) None w2
            else Some w2);
      let w4 := if bool_decide (length (conns_of w3 doc) = 0%nat)
                then set_docs (delete (name_of w3 doc)) (destroy doc w3)
                else w3 in
      Some (set_socks (alter ws_close c) w4)
  | None => Some (set_socks (alter ws_close c) w)
  end.
Proof.
  unfold closeConn.
  destruct (conns_get c (conns_of w doc)) as [ids|] eqn:Eg.
  2:{ by apply closeConn_depth_unregistered. }
  destruct (length (conns_of w doc)) as [|n] eqn:El.
  { destruct (conns_of w doc); [done|discriminate]. }
  rewrite closeConn_depth_S_eq, Eg. cbn zeta.
  destruct (removeAwarenessStates _ ids) as [a gone].
  rewrite awarenessChangeHandler_depth; [done|].
  rewrite conns_of_set_awareness, conns_of_set_conns.
  - pose proof (conns_delete_length c _ _ Eg). lia.
  - apply (registered_alive w doc c). unfold registered. rewrite Eg. eauto.
Qed.

End Depth.

(** ** What [closeConn] leaves behind *)

Section CloseConn.
Context {Y : YEngine}.
Implicit Types (w : World Y) (doc d : docref) (c : conn) (forced : conn -> Prop)
  (xf : conn -> bytes -> Prop).

Lemma closeConn_registered doc c w w' ids :
  conns_get c (conns_of w doc) = Some ids ->
  closeConn doc c w = Some w' ->
  let r := removeAwarenessStates (awareness_of w doc) ids in
  let w2 := set_awareness doc r.1 (set_conns doc (conns_delete c (conns_of w doc)) w) in
  exists w3,
    effects doc (fun _ => False) (fun _ _ => False) w2 w3
    /\ (observed_of w doc = false \/ r.2 = [] -> w3 = w2)
    /\ (observed_of w doc = true -> r.2 ≠ [] ->
          awarenessChangeHandler doc (mkChanges [] [] r.2) None w2 = Some w3)
    /\ w' = set_socks (alter ws_close c) (reclaim doc w3).
Proof.
  intros Eg. rewrite closeConn_eq, Eg. cbn zeta.
  assert (Hal : is_Some (heap w !! doc)).
  { apply (registered_alive w doc c). unfold registered. rewrite Eg. eauto. }
  assert (Ea : awareness_of (set_conns doc (conns_delete c (conns_of w doc)) w) doc
               = awareness_of w doc) by solve_heap_read.
  rewrite Ea. destruct (removeAwarenessStates (awareness_of w doc) ids) as [a gone] eqn:Er.
  cbn [fst snd].
  set (w2 := set_awareness doc a _).
  assert (Eo : observed_of w2 doc = observed_of w doc) by (subst w2; solve_heap_read).
  rewrite Eo. destruct (observed_of w doc) eqn:Eobs; cbn [andb].
  - case_bool_decide as Hg; cbn [negb].
    + intros [= <-]. exists w2. split; [apply rtc_refl|]. split; [done|]. split; [done|].
      done.
    + destruct (awarenessChangeHandler doc (mkChanges [] [] gone) None w2) as [w3|] eqn:E3;
        [|done].
      cbn. intros [= <-]. exists w3. split.
      * unfold awarenessChangeHandler, awarenessChangeHandler_with in E3.
        cbn [mbind option_bind] in E3.
        destruct (forEach_effects doc (fun _ => False) (fun _ _ => False)
                    (length (conns_of w2 doc))
                    (fun c0 => send_with closeConn doc c0
                       (writeVarUint messageAwareness ++
                        writeVarUint8Array (encodeAwarenessUpdate (awareness_of w2 doc)
                          (added (mkChanges [] [] gone) ++ updated (mkChanges [] [] gone)
                           ++ removed (mkChanges [] [] gone)))))
                    ) with (conns_keys (conns_of w2 doc)) w2 as (w3' & E3' & H3); [|done|].
        { intros c0 w0 Hreg _. apply send_effects; [left; apply presenceFrame_buff|done]. }
        rewrite E3 in E3'. by injection E3' as <-.
      * split; [by intros [?|?]|]. done.
  - intros [= <-]. exists w2. split; [apply rtc_refl|]. split; [done|]. split; [done|].
    done.
Qed.

Lemma closeConn_unregistered doc c w :
  conns_get c (conns_of w doc) = None ->
  closeConn doc c w = Some (set_socks (alter ws_close c) w).
Proof. intros E. by rewrite closeConn_eq, E. Qed.

Lemma conns_of_reclaim doc d w : conns_of (reclaim doc w) d = conns_of w d.
Proof.
  unfold reclaim. case_bool_decide; [|done].
  change (conns_of (destroy doc w) d = conns_of w d). apply conns_of_destroy.
Qed.

(** After [closeConn] the connection is not in the map. *)
Lemma closeConn_deregisters doc c w w' :
  closeConn doc c w = Some w' -> conns_get c (conns_of w' doc) = None.
Proof.
  destruct (conns_get c (conns_of w doc)) as [ids|] eqn:Eg.
  - intros H. destruct (closeConn_registered _ _ _ _ _ Eg H) as (w3 & H3 & _ & _ & ->).
    change (conns_get c (conns_of (reclaim doc w3) doc) = None).
    rewrite conns_of_reclaim.
    destruct (confined_conns _ _ _ _ _ (effects_confined _ _ _ _ _ H3)) as (D & -> & _).
    rewrite conns_get_filter, conns_of_set_awareness, conns_of_set_conns.
    + case_decide; [done|]. rewrite conns_get_delete. by case_decide.
    + apply (registered_alive w doc c). unfold registered. rewrite Eg. eauto.
  - rewrite closeConn_unregistered by done. intros [= <-]. exact Eg.
Qed.

Lemma send_healthy doc c m w :
  healthy w c -> send doc c m w = Some (set_socks (alter (ws_send m) c) w).
Proof.
  intros [Hr Ht]. unfold send, send_with.
  by rewrite (bool_decide_eq_true_2 _ Hr), Ht.
Qed.

Lemma send_unhealthy doc c m w :
  ~ healthy w c -> send doc c m w = closeConn doc c w.
Proof.
  intros Hn. unfold send, send_with.
  destruct (decide (readyState_of w c = OPEN)) as [Hr|Hr].
  - rewrite (bool_decide_eq_true_2 _ Hr). cbn [negb].
    destruct (sendThrows_of w c) eqn:Ht; [done|]. by destruct Hn.
  - by rewrite (bool_decide_eq_false_2 _ Hr).
Qed.

Lemma confined_sent doc forced xf w w' c :
  confined doc forced xf w w' ->
  exists extra, sent_of w' c = sent_of w c ++ extra
    /\ Forall (fun m => presenceFrame m \/ xf c m) extra
    /\ (extra ≠ [] -> healthy w c /\ registered w doc c).
Proof.
  intros H. pose proof (confined_socks _ _ _ _ _ H c) as Hs. unfold sent_of.
  destruct (socks w !! c) as [s|].
  - destruct Hs as (s' & -> & _ & _ & _ & extra & Hx). by exists extra.
  - rewrite Hs. exists []. split; [done|]. split; [apply Forall_nil_2|done].
Qed.

Lemma sent_of_write c c' m w :
  sent_of (set_socks (alter (ws_send m) c) w) c'
  = if decide (c' = c) then (if socks w !! c is Some _ then sent_of w c ++ [m] else [])
    else sent_of w c'.
Proof.
  unfold sent_of. cbn [socks set_socks]. case_decide as Hc; subst.
  - rewrite lookup_alter_eq. by destruct (socks w !! c).
  - by rewrite lookup_alter_ne.
Qed.

End CloseConn.

(** ** Broadcast loops *)

Section Broadcast.
Context {Y : YEngine}.
Implicit Types (w : World Y) (doc d : docref) (c : conn) (forced : conn -> Prop)
  (xf : conn -> bytes -> Prop).

Lemma effect_mono doc forced forced' xf xf' w w' :
  (forall c, forced c -> forced' c) -> (forall c m, xf c m -> xf' c m) ->
  effect doc forced xf w w' -> effect doc forced' xf' w w'.
Proof.
  intros Hf Hx H. destruct H as [c w Hc|ids w|c m w Hh Hreg Hm|w Hnil|c w Hc].
  - apply effect_delete. destruct Hc; auto.
  - apply effect_remove.
  - apply effect_write; [done|done|]. destruct Hm; auto.
  - by apply effect_destroy.
  - apply effect_close. destruct Hc; auto.
Qed.

Lemma effects_mono doc forced forced' xf xf' w w' :
  (forall c, forced c -> forced' c) -> (forall c m, xf c m -> xf' c m) ->
  effects doc forced xf w w' -> effects doc forced' xf' w w'.
Proof.
  intros Hf Hx. induction 1 as [|w1 w2 w3 H12 _ IH]; [apply rtc_refl|].
  eapply rtc_l; [|exact IH]. by eapply effect_mono.
Qed.

(** A healthy connection nobody asked to close stays as it is. *)
Lemma confined_keeps doc forced xf w w' c :
  confined doc forced xf w w' -> healthy w c -> ~ forced c ->
  healthy w' c /\ conns_get c (conns_of w' doc) = conns_get c (conns_of w doc).
Proof.
  intros H Hh Hnf. split.
  - pose proof (confined_socks _ _ _ _ _ H c) as Hs.
    destruct Hh as [Hr Ht]. unfold healthy, readyState_of, sendThrows_of in *.
    destruct (socks w !! c) as [s|]; [|done]. cbn in *.
    destruct Hs as (s' & -> & Hst & [Hrs|[_ [Hrs|Hrs]]] & _); cbn.
    + split; congruence.
    + exfalso. apply Hrs. by split.
    + done.
  - destruct (confined_conns _ _ _ _ _ H) as (D & -> & HD).
    rewrite conns_get_filter. case_decide as Hin; [|done].
    destruct (HD c Hin); done.
Qed.

Lemma confined_unregistered doc forced xf w w' c :
  confined doc forced xf w w' -> ~ registered w doc c -> ~ registered w' doc c.
Proof.
  intros H Hn. unfold registered in *.
  destruct (confined_conns _ _ _ _ _ H) as (D & -> & _).
  rewrite conns_get_filter. case_decide; [by intros [? ?]|done].
Qed.

Lemma quiet_refl w c : quiet w w c.
Proof. exists []. split; [by rewrite app_nil_r | apply Forall_nil_2]. Qed.

Lemma quiet_trans w1 w2 w3 c : quiet w1 w2 c -> quiet w2 w3 c -> quiet w1 w3 c.
Proof.
  intros (e1 & E1 & H1) (e2 & E2 & H2). exists (e1 ++ e2).
  split; [by rewrite E2, E1, app_assoc | by apply Forall_app].
Qed.

Lemma quiet_delivered F w1 w2 w3 c :
  quiet w1 w2 c -> delivered F w2 w3 c -> delivered F w1 w3 c.
Proof.
  intros (e1 & E1 & H1) (pre & post & E2 & Hpre & Hpost).
  exists (e1 ++ pre), post. split; [|split; [by apply Forall_app|done]].
  by rewrite E2, E1, !app_assoc.
Qed.

(** Effects that only write presence frames are quiet everywhere. *)
Lemma confined_quiet doc forced w w' c :
  confined doc forced (fun _ _ => False) w w' -> quiet w w' c.
Proof.
  intros H. destruct (confined_sent _ _ _ _ _ c H) as (extra & E & Hp & _).
  exists extra. split; [done|]. eapply Forall_impl; [exact Hp|]. by intros m [?|?].
Qed.

Lemma confined_sent_unhealthy doc forced xf w w' c :
  confined doc forced xf w w' -> ~ healthy w c -> sent_of w' c = sent_of w c.
Proof.
  intros H Hn. destruct (confined_sent _ _ _ _ _ c H) as (extra & E & _ & Hne).
  destruct extra; [by rewrite app_nil_r in E|]. destruct Hne as [Hh _]; done.
Qed.

(** The loop that sends one frame [F] to the selected connections of the
    room: it returns; a healthy registered connection that is selected
    gets [F] once; an unhealthy one gets nothing and is deregistered; all
    other frames written on the way are presence frames. *)
Lemma forEach_deliver doc (F : bytes) (sel : conn -> bool)
    (f : conn -> World Y -> option (World Y)) keys w :
  (forall c w, f c w = if sel c then send doc c F w else Some w) ->
  NoDup keys ->
  exists w', forEach_conns f doc keys w = Some w'
    /\ effects doc (fun _ => False) (fun c m => sel c = true /\ m = F) w w'
    /\ (forall c, healthy w c -> registered w doc c -> c ∈ keys -> sel c = true ->
          delivered F w w' c /\ healthy w' c
          /\ conns_get c (conns_of w' doc) = conns_get c (conns_of w doc))
    /\ (forall c, c ∉ keys \/ sel c = false -> quiet w w' c)
    /\ (forall c, ~ healthy w c -> c ∈ keys -> sel c = true ->
          ~ registered w' doc c /\ sent_of w' c = sent_of w c).
Proof.
  intros Hf. revert w. induction keys as [|c0 keys IH]; intros w Hnd.
  { exists w. split; [done|]. split; [apply rtc_refl|]. split; [|split].
    - intros c _ _ Hin. inversion Hin.
    - intros c _. apply quiet_refl.
    - intros c _ Hin. inversion Hin. }
  apply NoDup_cons in Hnd as [Hc0 Hnd]. cbn [forEach_conns].
  (* the rest of the loop, after one step that is itself confined *)
  assert (Hrest : forall w1,
    effects doc (fun _ => False) (fun c m => sel c = true /\ m = F) w w1 ->
    (* what the step did for c0 *)
    (forall c, c ≠ c0 -> quiet w w1 c) ->
    (healthy w c0 -> registered w doc c0 -> sel c0 = true ->
       sent_of w1 c0 = sent_of w c0 ++ [F]) ->
    (sel c0 = false -> w1 = w) ->
    (~ healthy w c0 -> sel c0 = true -> ~ registered w1 doc c0) ->
    exists w', forEach_conns f doc keys w1 = Some w'
      /\ effects doc (fun _ => False) (fun c m => sel c = true /\ m = F) w w'
      /\ (forall c, healthy w c -> registered w doc c -> c ∈ c0 :: keys -> sel c = true ->
            delivered F w w' c /\ healthy w' c
            /\ conns_get c (conns_of w' doc) = conns_get c (conns_of w doc))
      /\ (forall c, c ∉ c0 :: keys \/ sel c = false -> quiet w w' c)
      /\ (forall c, ~ healthy w c -> c ∈ c0 :: keys -> sel c = true ->
            ~ registered w' doc c /\ sent_of w' c = sent_of w c)).
  { intros w1 H1 Hq1 Hd1 Hs1 Hu1.
    pose proof (effects_confined _ _ _ _ _ H1) as C1.
    destruct (IH w1 Hnd) as (w' & E & H2 & Hdel & Hquiet & Hun).
    pose proof (effects_confined _ _ _ _ _ H2) as C2.
    exists w'. split; [done|]. split; [by eapply effects_trans|]. split; [|split].
    - intros c Hh Hreg Hin Hsel.
      destruct (confined_keeps _ _ _ _ _ c C1 Hh) as [Hh1 Eg1]; [tauto|].
      assert (Hreg1 : registered w1 doc c) by (unfold registered; by rewrite Eg1).
      destruct (decide (c = c0)) as [->|Hne].
      + specialize (Hd1 Hh Hreg Hsel).
        destruct (Hquiet c0 (or_introl Hc0)) as (extra & Ex & Hp).
        split; [|split].
        * exists [], extra. rewrite Ex, Hd1. cbn. rewrite <- app_assoc.
          split; [done|]. split; [apply Forall_nil_2|done].
        * destruct (confined_keeps _ _ _ _ _ c0 C2 Hh1) as [? ?]; [tauto|done].
        * destruct (confined_keeps _ _ _ _ _ c0 C2 Hh1) as [_ ->]; [tauto|done].
      + assert (Hin' : c ∈ keys) by (by apply elem_of_cons in Hin as [?|?]).
        destruct (Hdel c Hh1 Hreg1 Hin' Hsel) as (Hd & Hh2 & Eg2).
        split; [|split; [done|congruence]].
        eapply quiet_delivered; [by apply Hq1 | exact Hd].
    - intros c Hc.
      assert (Hc' : c ∉ keys \/ sel c = false).
      { destruct Hc as [Hc|Hc]; [left|by right]. intros ?. apply Hc. by right. }
      destruct (decide (c = c0)) as [->|Hne].
      + destruct Hc as [Hc|Hc]; [exfalso; apply Hc; by left|].
        rewrite <- (Hs1 Hc) in *. by apply Hquiet.
      + eapply quiet_trans; [by apply Hq1 | by apply Hquiet].
    - intros c Hn Hin Hsel.
      assert (Hn1 : ~ healthy w1 c).
      { intros Hh1. apply Hn. by eapply healthy_confined. }
      assert (Es1 : sent_of w1 c = sent_of w c) by (by eapply confined_sent_unhealthy).
      destruct (decide (c = c0)) as [->|Hne].
      + split.
        * eapply confined_unregistered; [exact C2 | by apply Hu1].
        * rewrite <- Es1. by eapply confined_sent_unhealthy.
      + assert (Hin' : c ∈ keys) by (by apply elem_of_cons in Hin as [?|?]).
        destruct (Hun c Hn1 Hin' Hsel) as [Hr Es]. split; [done|congruence]. }
  destruct (conns_has c0 (conns_of w doc)) eqn:Ehas.
  2:{ (* deleted before its turn, or never there *)
    assert (Hnr : ~ registered w doc c0).
    { intros Hr. apply conns_has_registered in Hr. congruence. }
    apply Hrest; [apply rtc_refl | intros; apply quiet_refl | done | done | done]. }
  apply conns_has_registered in Ehas. rewrite Hf.
  destruct (sel c0) eqn:Esel.
  2:{ cbn. apply Hrest; [apply rtc_refl | intros; apply quiet_refl | done | done | done]. }
  destruct (healthy_dec w c0) as [Hh|Hh].
  - rewrite send_healthy by done. cbn.
    apply Hrest.
    + apply rtc_once. apply effect_write; [done|done|by right].
    + intros c Hne. exists []. rewrite app_nil_r, sent_of_write, decide_False by done.
      split; [done | apply Forall_nil_2].
    + intros _ _ _. rewrite sent_of_write, decide_True by done.
      destruct Hh as [Hr _]. unfold readyState_of in Hr. by destruct (socks w !! c0).
    + done.
    + done.
  - rewrite send_unhealthy by done.
    destruct (closeConn_effects doc (fun _ => False) (fun _ _ => False) c0 w)
      as (w1 & E1 & H1); [by left|].
    rewrite E1. cbn.
    apply Hrest.
    + eapply effects_mono; [| |exact H1]; [done | by intros ? ? ?].
    + intros c _. eapply confined_quiet. by apply effects_confined.
    + done.
    + done.
    + intros _ _. unfold registered. rewrite (closeConn_deregisters _ _ _ _ E1).
      by intros [? ?].
Qed.

End Broadcast.

(** ** The registry invariant *)

Section Invariant.
Context {Y : YEngine}.
Implicit Types (w : World Y) (doc d : docref) (c : conn) (forced : conn -> Prop)
  (xf : conn -> bytes -> Prop).

Lemma wf_init : wf (init (Y := Y)).
Proof.
  split.
  - intros n d H. unfold init in H. cbn in H. by rewrite lookup_empty in H.
  - intros d H. exfalso. apply H. unfold conns_of, init. cbn. by rewrite lookup_empty.
  - intros d. unfold conns_of, init. cbn. rewrite lookup_empty. apply NoDup_nil_2.
Qed.

(** [wf] reads the registry and, of each room, its name, the keys of its
    connection map and whether it is observed. *)
Lemma wf_ext w w' :
  docs w' = docs w ->
  (forall d, conns_keys (conns_of w' d) = conns_keys (conns_of w d)
             /\ name_of w' d = name_of w d /\ observed_of w' d = observed_of w d) ->
  wf w -> wf w'.
Proof.
  intros Ed Hacc [H1 H2 H3].
  assert (Hne : forall d, conns_of w' d ≠ [] <-> conns_of w d ≠ []).
  { intros d. destruct (Hacc d) as (Hk & _ & _). unfold conns_keys in Hk.
    destruct (conns_of w' d), (conns_of w d); cbn in Hk; try done. }
  split.
  - intros n d Hd. rewrite Ed in Hd. destruct (H1 n d Hd) as (Hn & Hc & Ho).
    destruct (Hacc d) as (_ & -> & ->). by rewrite Hne.
  - intros d Hd. destruct (Hacc d) as (_ & -> & _). rewrite Ed. apply H2. by apply Hne.
  - intros d. destruct (Hacc d) as (-> & _ & _). apply H3.
Qed.

Lemma wf_set_socks f w : wf w -> wf (set_socks f w).
Proof. by apply wf_ext. Qed.

Lemma wf_set_handlers f w : wf w -> wf (set_handlers f w).
Proof. by apply wf_ext. Qed.

Lemma wf_console_error w : wf w -> wf (console_error w).
Proof. by apply wf_ext. Qed.

Lemma wf_set_awareness doc a w : wf w -> wf (set_awareness doc a w).
Proof.
  apply wf_ext; [done|]. intros d.
  destruct (decide (d = doc)) as [->|Hd]; repeat split; solve_heap_read.
Qed.

Lemma wf_set_ydoc doc y w : wf w -> wf (set_ydoc doc y w).
Proof.
  apply wf_ext; [done|]. intros d.
  destruct (decide (d = doc)) as [->|Hd]; repeat split; solve_heap_read.
Qed.

Lemma conns_keys_set c ids (m : ConnMap) :
  is_Some (conns_get c m) -> conns_keys (conns_set c ids m) = conns_keys m.
Proof.
  unfold conns_keys. induction m as [|e m IH]; cbn [conns_get conns_set].
  - by intros [? ?].
  - case_decide as He; cbn; [by subst|]. intros H. by rewrite IH.
Qed.

Lemma conns_keys_set_new c ids (m : ConnMap) :
  conns_get c m = None -> conns_keys (conns_set c ids m) = conns_keys m ++ [c].
Proof.
  unfold conns_keys. induction m as [|e m IH]; cbn [conns_get conns_set]; [done|].
  case_decide as He; [done|]. intros H. cbn. by rewrite IH.
Qed.

Lemma conns_set_nonempty c ids (m : ConnMap) : conns_set c ids m ≠ [].
Proof. destruct m as [|e m]; cbn [conns_set]; [done|by case_decide]. Qed.

(** The controlled-id set of a registered connection changes. *)
Lemma wf_set_controlled doc c ids w :
  registered w doc c ->
  wf w -> wf (set_conns doc (conns_set c ids (conns_of w doc)) w).
Proof.
  intros Hreg. apply wf_ext; [done|]. intros d.
  destruct (decide (d = doc)) as [->|Hd]; [|repeat split; solve_heap_read].
  split; [|split; solve_heap_read].
  rewrite conns_of_set_conns by (by eapply registered_alive).
  by apply conns_keys_set.
Qed.

Lemma confined_accessors_other doc forced xf w w' d :
  confined doc forced xf w w' -> d ≠ doc ->
  conns_of w' d = conns_of w d /\ name_of w' d = name_of w d
  /\ observed_of w' d = observed_of w d.
Proof.
  intros H Hd. pose proof (confined_other _ _ _ _ _ H d Hd) as E.
  unfold conns_of, name_of, observed_of. by rewrite E.
Qed.

Lemma conns_keys_filter_NoDup (D : list conn) (m : ConnMap) :
  NoDup (conns_keys m) -> NoDup (conns_keys (filter (fun e => e.1 ∉ D) m)).
Proof.
  unfold conns_keys. intros H. eapply sublist_NoDup; [exact H|].
  apply fmap_sublist, sublist_filter.
Qed.

(** A run of effects on a room that had a connection, followed by the
    last lines of [closeConn], restores the invariant. *)
Lemma confined_reclaim_wf doc forced xf w w3 :
  wf w -> confined doc forced xf w w3 -> conns_of w doc ≠ [] -> wf (reclaim doc w3).
Proof.
  intros [H1 H2 H3] C Hne0.
  pose proof (fun d => confined_accessors_other _ _ _ _ _ d C) as Hoth.
  destruct C as [_ _ _ _ Hn _ (D & Hc & _) Hd Hob _].
  pose proof (H2 doc Hne0) as Hregd.
  unfold reclaim. case_bool_decide as Hl.
  - apply length_zero_iff_nil in Hl.
    assert (Ed : delete (name_of w3 doc) (docs w3) = delete (name_of w doc) (docs w)).
    { rewrite Hn. destruct Hd as [->|[_ ->]]; [done|apply delete_delete_eq]. }
    assert (Hacc : forall d, d ≠ doc ->
      conns_of (set_docs (delete (name_of w3 doc)) (destroy doc w3)) d = conns_of w d
      /\ name_of (set_docs (delete (name_of w3 doc)) (destroy doc w3)) d = name_of w d
      /\ observed_of (set_docs (delete (name_of w3 doc)) (destroy doc w3)) d
         = observed_of w d).
    { intros d Hdd. destruct (Hoth d Hdd) as (<- & <- & <-).
      repeat split; solve_heap_read. }
    assert (Hcd : conns_of (set_docs (delete (name_of w3 doc)) (destroy doc w3)) doc = []).
    { rewrite <- Hl. solve_heap_read. }
    split.
    + intros n d. change (docs (set_docs (delete (name_of w3 doc)) (destroy doc w3)))
        with (delete (name_of w3 doc) (docs w3)). rewrite Ed.
      intros [Hnn Hlk]%lookup_delete_Some.
      destruct (H1 n d Hlk) as (Hnm & Hcn & Hobs).
      assert (Hdd : d ≠ doc) by (intros ->; congruence).
      destruct (Hacc d Hdd) as (-> & -> & ->). done.
    + intros d Hcn. change (docs (set_docs (delete (name_of w3 doc)) (destroy doc w3)))
        with (delete (name_of w3 doc) (docs w3)). rewrite Ed.
      assert (Hdd : d ≠ doc) by (intros ->; congruence).
      destruct (Hacc d Hdd) as (Ec & En & _). rewrite Ec in Hcn. rewrite En.
      rewrite lookup_delete_ne; [by apply H2|].
      intros En'. pose proof (H2 d Hcn) as Hlk. rewrite <- En' in Hlk. congruence.
    + intros d. destruct (decide (d = doc)) as [->|Hdd].
      * rewrite Hcd. apply NoDup_nil_2.
      * destruct (Hacc d Hdd) as (-> & _ & _). apply H3.
  - assert (Hne3 : conns_of w3 doc ≠ []).
    { intros E. apply Hl. by rewrite E. }
    destruct Hd as [Ed|[? _]]; [|done]. destruct Hob as [Eo|[? _]]; [|done].
    split.
    + intros n d. rewrite Ed. intros Hlk. destruct (H1 n d Hlk) as (Hnm & Hcn & Hobs).
      destruct (decide (d = doc)) as [->|Hdd]; [by rewrite Hn, Eo|].
      destruct (Hoth d Hdd) as (-> & -> & ->). done.
    + intros d Hcn. rewrite Ed. destruct (decide (d = doc)) as [->|Hdd].
      * by rewrite Hn.
      * destruct (Hoth d Hdd) as (Ec & -> & _). rewrite Ec in Hcn. by apply H2.
    + intros d. destruct (decide (d = doc)) as [->|Hdd].
      * rewrite Hc. apply conns_keys_filter_NoDup, H3.
      * destruct (Hoth d Hdd) as (-> & _ & _). apply H3.
Qed.

Lemma closeConn_wf doc c w w' : wf w -> closeConn doc c w = Some w' -> wf w'.
Proof.
  intros Hwf E. destruct (conns_get c (conns_of w doc)) as [ids|] eqn:Eg.
  - destruct (closeConn_registered _ _ _ _ _ Eg E) as (w3 & H3 & _ & _ & ->).
    apply wf_set_socks. eapply (confined_reclaim_wf doc (eq c) (fun _ _ => False) w).
    + done.
    + apply effects_confined.
      eapply rtc_l; [apply (effect_delete _ _ _ c); by right|].
      eapply rtc_l; [apply (effect_remove _ _ _ ids)|].
      replace (awareness_of (set_conns doc (conns_delete c (conns_of w doc)) w) doc)
        with (awareness_of w doc) by solve_heap_read.
      eapply effects_mono; [| |exact H3]; [done|done].
    + intros En. by rewrite En in Eg.
  - rewrite closeConn_unregistered in E by done. injection E as <-.
    by apply wf_set_socks.
Qed.

Lemma send_wf doc c m w w' : wf w -> send doc c m w = Some w' -> wf w'.
Proof.
  intros Hwf. destruct (healthy_dec w c) as [Hh|Hh].
  - rewrite send_healthy by done. intros [= <-]. by apply wf_set_socks.
  - rewrite send_unhealthy by done. by apply closeConn_wf.
Qed.

Lemma forEach_wf (f : conn -> World Y -> option (World Y)) doc keys w w' :
  (forall c w w', wf w -> f c w = Some w' -> wf w') ->
  wf w -> forEach_conns f doc keys w = Some w' -> wf w'.
Proof.
  intros Hf. revert w. induction keys as [|c keys IH]; intros w Hwf; cbn [forEach_conns].
  - by intros [= <-].
  - destruct (conns_has c (conns_of w doc)); [|by apply IH].
    destruct (f c w) as [w1|] eqn:E1; [|done]. cbn. apply IH. by eapply Hf.
Qed.


Lemma awarenessChangeHandler_wf doc ch origin w w' :
  wf w -> awarenessChangeHandler doc ch origin w = Some w' -> wf w'.
Proof.
  intros Hwf. unfold awarenessChangeHandler, awarenessChangeHandler_with.
  set (w1 := match _ with Some _ => _ | None => w end).
  assert (Hwf1 : wf w1).
  { subst w1. destruct origin as [o|]; cbn [mbind option_bind]; [|done].
    destruct (conns_get o (conns_of w doc)) as [ids|] eqn:Eg; cbn [fmap option_fmap option_map];
      [|done].
    apply wf_set_controlled; [|done]. unfold registered. rewrite Eg. eauto. }
  clearbody w1. apply forEach_wf; [|done].
  intros c x x' Hx. apply send_wf. done.
Qed.

Lemma docUpdateHandler_wf doc u origin w w' :
  wf w -> docUpdateHandler doc u origin w = Some w' -> wf w'.
Proof.
  intros Hwf. unfold docUpdateHandler. apply forEach_wf; [|done].
  intros c x x' Hx. case_bool_decide; [by apply send_wf|by intros [= <-]].
Qed.

(** Where a throw leaves the process *)
Lemma onMessage_try_thrown doc ws message w w1 :
  onMessage_try doc ws message w = Thrown w1 ->
  w1 = w \/ exists a, w1 = set_awareness doc a w.
Proof.
  intros Ht. unfold onMessage_try in Ht.
  destruct (readVarUint message) as [[messageType decoder]|]; [|left; congruence].
  destruct (messageType =? messageSync).
  { destruct (readSyncMessage decoder (writeVarUint messageSync) doc ws w) as [r|w2] eqn:Er;
      [done|]. injection Ht as <-. left.
    unfold readSyncMessage in Er.
    destruct (readVarUint decoder) as [[t d1]|]; [|congruence].
    destruct (t =? messageYjsSyncStep1).
    { destruct (readVarUint8Array d1) as [[sv ?]|]; [|congruence].
      destruct (Y_encodeStateAsUpdate (ydoc_of w doc) sv); [done|congruence]. }
    destruct ((t =? messageYjsSyncStep2) || (t =? messageYjsUpdate)); [|congruence].
    destruct (readVarUint8Array d1) as [[update ?]|]; [|congruence].
    destruct (Y_applyUpdate (ydoc_of w doc) update) as [[y emitted]|]; [done|congruence]. }
  destruct (messageType =? messageAwareness).
  { destruct (readVarUint8Array decoder) as [[awarenessUpdate ?]|]; [|left; congruence].
    destruct (applyAwarenessUpdate (awareness_of w doc) awarenessUpdate) as [a [ch|]];
      [done|]. right. exists a. congruence. }
  destruct (messageType =? messageStats); done.
Qed.

Lemma onMessage_wf doc ws message w w' :
  wf w -> onMessage doc ws message w = Some w' -> wf w'.
Proof.
  intros Hwf. unfold onMessage.
  destruct (onMessage_try doc ws message w) as [r|w1] eqn:Et.
  2:{ intros [= <-]. apply wf_console_error.
      destruct (onMessage_try_thrown _ _ _ _ _ Et) as [->|[a ->]];
        [done|by apply wf_set_awareness]. }
  intros ->. unfold onMessage_try in Et.
  destruct (readVarUint message) as [[messageType decoder]|]; [|done].
  destruct (messageType =? messageSync).
  { destruct (readSyncMessage decoder (writeVarUint messageSync) doc ws w) as [r|w2] eqn:Er;
      [|done]. injection Et as Et.
    unfold readSyncMessage in Er.
    destruct (readVarUint decoder) as [[t d1]|]; [|done].
    destruct (t =? messageYjsSyncStep1).
    { destruct (readVarUint8Array d1) as [[sv ?]|]; [|done].
      destruct (Y_encodeStateAsUpdate (ydoc_of w doc) sv); [|done].
      injection Er as <-. cbn [mbind option_bind] in Et.
      case_bool_decide; [by eapply send_wf|]. by injection Et as <-. }
    destruct ((t =? messageYjsSyncStep2) || (t =? messageYjsUpdate)); [|done].
    destruct (readVarUint8Array d1) as [[update ?]|]; [|done].
    destruct (Y_applyUpdate (ydoc_of w doc) update) as [[y emitted]|]; [|done].
    injection Er as <-.
    set (w1 := set_ydoc doc y w) in *.
    assert (Hwf1 : wf w1) by (by apply wf_set_ydoc).
    assert (Hw2 : forall w2,
      match emitted with
      | Some u => if observed_of w1 doc then docUpdateHandler doc u ws w1 else Some w1
      | None => Some w1
      end = Some w2 -> wf w2).
    { intros w2. destruct emitted as [u|]; [|by intros [= <-]].
      destruct (observed_of w1 doc); [by apply docUpdateHandler_wf|by intros [= <-]]. }
    destruct (match emitted with Some _ => _ | None => _ end) as [w2|]; [|done].
    cbn [mbind option_bind] in Et.
    case_bool_decide; [eapply send_wf; [|exact Et]|injection Et as <-]; by apply Hw2. }
  destruct (messageType =? messageAwareness).
  { destruct (readVarUint8Array decoder) as [[awarenessUpdate ?]|]; [|done].
    destruct (applyAwarenessUpdate (awareness_of w doc) awarenessUpdate) as [a [ch|]];
      [|done].
    injection Et as Et.
    set (w1 := set_awareness doc a w) in *.
    assert (Hwf1 : wf w1) by (by apply wf_set_awareness).
    destruct (if observed_of w1 doc && _ then _ else Some w1) as [w2|] eqn:E2; [|done].
    assert (Hwf2 : wf w2).
    { destruct (observed_of w1 doc && _);
        [by eapply awarenessChangeHandler_wf | by injection E2 as <-]. }
    cbn [mbind option_bind] in Et. eapply forEach_wf; [|exact Hwf2|exact Et].
    intros c x x' Hx. cbn beta.
    match goal with |- (if ?b then _ else _) = _ -> _ => destruct b end;
      [by apply send_wf|by intros [= <-]]. }
  destruct (messageType =? messageStats).
  { injection Et as Et. by eapply send_wf. }
  by injection Et as <-.
Qed.

Lemma wf_getYDoc docname w :
  wf w ->
  let '(doc, w1) := getYDoc docname w in
  forall c ids, wf (set_conns doc (conns_set c ids (conns_of w1 doc)) w1).
Proof.
  intros [H1 H2 H3]. unfold getYDoc.
  destruct (docs w !! docname) as [d|] eqn:Ed.
  - intros c ids. destruct (H1 _ _ Ed) as (Hn & Hc & Ho).
    assert (Hal : is_Some (heap w !! d)).
    { unfold conns_of in Hc. destruct (heap w !! d); [eauto|done]. }
    split.
    + intros n d'. cbn [docs set_conns set_heap]. intros Hlk.
      destruct (H1 _ _ Hlk) as (Hn' & Hc' & Ho').
      destruct (decide (d' = d)) as [->|Hdd].
      * split; [solve_heap_read|]. split; [|solve_heap_read].
        rewrite conns_of_set_conns by done. apply conns_set_nonempty.
      * split; [solve_heap_read|]. split; [|solve_heap_read].
        by rewrite conns_of_set_conns_ne.
    + intros d'. destruct (decide (d' = d)) as [->|Hdd].
      * intros _. replace (name_of _ d) with (name_of w d) by solve_heap_read.
        cbn [docs set_conns set_heap]. by rewrite Hn.
      * rewrite conns_of_set_conns_ne by done. intros Hc'.
        replace (name_of _ d') with (name_of w d') by solve_heap_read.
        by apply H2.
    + intros d'. destruct (decide (d' = d)) as [->|Hdd].
      * rewrite conns_of_set_conns by done.
        destruct (conns_get c (conns_of w d)) as [x|] eqn:Eg.
        -- rewrite conns_keys_set by eauto. apply H3.
        -- rewrite conns_keys_set_new by done. apply NoDup_app. split; [apply H3|].
           split; [|apply NoDup_singleton].
           intros x Hx ->%list_elem_of_singleton.
           apply conns_get_keys in Hx as [? Hx]. congruence.
      * rewrite conns_of_set_conns_ne by done. apply H3.
  - intros c ids. set (d := fresh (dom (heap w))).
    assert (Hfresh : heap w !! d = None).
    { apply not_elem_of_dom. apply is_fresh. }
    assert (Hold : forall d', d' ≠ d ->
      conns_of (set_conns d (conns_set c ids
                  (conns_of (set_docs (insert docname d)
                     (set_heap (insert d (new_WSSharedDoc docname)) w)) d))
                  (set_docs (insert docname d)
                     (set_heap (insert d (new_WSSharedDoc docname)) w))) d' = conns_of w d'
      /\ name_of (set_conns d (conns_set c ids
                  (conns_of (set_docs (insert docname d)
                     (set_heap (insert d (new_WSSharedDoc docname)) w)) d))
                  (set_docs (insert docname d)
                     (set_heap (insert d (new_WSSharedDoc docname)) w))) d' = name_of w d'
      /\ observed_of (set_conns d (conns_set c ids
                  (conns_of (set_docs (insert docname d)
                     (set_heap (insert d (new_WSSharedDoc docname)) w)) d))
                  (set_docs (insert docname d)
                     (set_heap (insert d (new_WSSharedDoc docname)) w))) d' = observed_of w d').
    { intros d' Hdd. unfold_world.
      rewrite !lookup_alter_ne, !lookup_insert_ne by done. done. }
    assert (Hnew :
      conns_of (set_conns d (conns_set c ids
                  (conns_of (set_docs (insert docname d)
                     (set_heap (insert d (new_WSSharedDoc docname)) w)) d))
                  (set_docs (insert docname d)
                     (set_heap (insert d (new_WSSharedDoc docname)) w))) d = [(c, ids)]
      /\ name_of (set_conns d (conns_set c ids
                  (conns_of (set_docs (insert docname d)
                     (set_heap (insert d (new_WSSharedDoc docname)) w)) d))
                  (set_docs (insert docname d)
                     (set_heap (insert d (new_WSSharedDoc docname)) w))) d = docname
      /\ observed_of (set_conns d (conns_set c ids
                  (conns_of (set_docs (insert docname d)
                     (set_heap (insert d (new_WSSharedDoc docname)) w)) d))
                  (set_docs (insert docname d)
                     (set_heap (insert d (new_WSSharedDoc docname)) w))) d = true).
    { unfold_world. rewrite !lookup_alter_eq, !lookup_insert_eq. done. }
    assert (Hdead : forall d', conns_of w d' ≠ [] -> d' ≠ d).
    { intros d' Hc ->. unfold conns_of in Hc. by rewrite Hfresh in Hc. }
    destruct Hnew as (Ec & En & Eo).
    split.
    + intros n d'. cbn [docs set_conns set_heap set_docs].
      destruct (decide (n = docname)) as [->|Hn].
      * rewrite lookup_insert_eq. intros [= <-]. by rewrite Ec, En, Eo.
      * rewrite lookup_insert_ne by done. intros Hlk.
        destruct (H1 _ _ Hlk) as (Hn' & Hc' & Ho').
        destruct (Hold d' (Hdead d' Hc')) as (-> & -> & ->). done.
    + intros d'. destruct (decide (d' = d)) as [->|Hdd].
      * intros _. rewrite En. cbn [docs set_conns set_heap set_docs].
        by rewrite lookup_insert_eq.
      * destruct (Hold d' Hdd) as (-> & -> & _). intros Hc'.
        cbn [docs set_conns set_heap set_docs].
        rewrite lookup_insert_ne; [by apply H2|].
        intros E. pose proof (H2 d' Hc') as Hlk. rewrite <- E in Hlk. congruence.
    + intros d'. destruct (decide (d' = d)) as [->|Hdd].
      * rewrite Ec. cbn. apply NoDup_singleton.
      * destruct (Hold d' Hdd) as (-> & _ & _). apply H3.
Qed.

Lemma setupConnection_wf ws docName w w' :
  wf w -> setupConnection ws docName w = Some w' -> wf w'.
Proof.
  intros Hwf. unfold setupConnection.
  pose proof (wf_getYDoc docName w Hwf) as Hg.
  destruct (getYDoc docName w) as [doc w1].
  specialize (Hg ws []).
  set (w3 := set_handlers _ _).
  assert (Hwf3 : wf w3) by (by apply wf_set_handlers).
  clearbody w3.
  destruct (send doc ws _ w3) as [w4|] eqn:E4; [|done]. cbn [mbind option_bind].
  assert (Hwf4 : wf w4) by (by eapply send_wf).
  case_bool_decide; [by apply send_wf | by intros [= <-]].
Qed.

Lemma step_wf w e w' : wf w -> step w e = Some w' -> wf w'.
Proof.
  intros Hwf. destruct e as [ws url|ws message|ws|ws|ws|ws]; cbn [step].
  - destruct (socks w !! ws); [by intros [= <-]|].
    apply setupConnection_wf. by apply wf_set_socks.
  - destruct (handlers w !! ws) as [doc|]; [by apply onMessage_wf|by intros [= <-]].
  - destruct (handlers w !! ws) as [doc|]; [|by intros [= <-]].
    apply closeConn_wf. by apply wf_set_socks.
  - destruct (handlers w !! ws) as [doc|]; [by apply closeConn_wf|by intros [= <-]].
  - intros [= <-]. by apply wf_set_socks.
  - intros [= <-]. by apply wf_set_socks.
Qed.

Lemma run_wf es w w' : wf w -> run w es = Some w' -> wf w'.
Proof.
  revert w. induction es as [|e es IH]; intros w Hwf; cbn [run]; [by intros [= <-]|].
  destruct (step w e) as [w1|] eqn:E1; [|done]. cbn. apply IH. by eapply step_wf.
Qed.

Lemma reachable_wf w : reachable w -> wf w.
Proof. intros [es H]. eapply run_wf; [apply wf_init|exact H]. Qed.

End Invariant.

(** ** Every callback returns *)

Section Totality.
Context {Y : YEngine}.
Implicit Types (w : World Y) (doc d : docref) (c : conn).

Lemma send_total doc c m w : is_Some (send doc c m w).
Proof.
  destruct (healthy_dec w c) as [Hh|Hh].
  - rewrite send_healthy by done. eauto.
  - rewrite send_unhealthy by done. apply closeConn_total.
Qed.

Lemma forEach_total (f : conn -> World Y -> option (World Y)) doc keys w :
  (forall c w, is_Some (f c w)) -> is_Some (forEach_conns f doc keys w).
Proof.
  intros Hf. revert w. induction keys as [|c keys IH]; intros w; cbn [forEach_conns]; [eauto|].
  destruct (conns_has c (conns_of w doc)); [|apply IH].
  destruct (Hf c w) as [w1 ->]. cbn. apply IH.
Qed.

Lemma awarenessChangeHandler_total doc ch origin w :
  is_Some (awarenessChangeHandler doc ch origin w).
Proof.
  unfold awarenessChangeHandler, awarenessChangeHandler_with.
  apply forEach_total. intros c x. apply send_total.
Qed.

Lemma docUpdateHandler_total doc u origin w : is_Some (docUpdateHandler doc u origin w).
Proof.
  unfold docUpdateHandler. apply forEach_total. intros c x.
  case_bool_decide; [apply send_total|eauto].
Qed.

Lemma onMessage_total doc ws message w : is_Some (onMessage doc ws message w).
Proof.
  unfold onMessage.
  destruct (onMessage_try doc ws message w) as [r|w1] eqn:Et; [|eauto].
  unfold onMessage_try in Et.
  destruct (readVarUint message) as [[messageType decoder]|]; [|done].
  destruct (messageType =? messageSync).
  { destruct (readSyncMessage decoder (writeVarUint messageSync) doc ws w) as [r'|w2] eqn:Er;
      [|done]. injection Et as <-.
    unfold readSyncMessage in Er.
    destruct (readVarUint decoder) as [[t d1]|]; [|done].
    destruct (t =? messageYjsSyncStep1).
    { destruct (readVarUint8Array d1) as [[sv ?]|]; [|done].
      destruct (Y_encodeStateAsUpdate (ydoc_of w doc) sv); [|done].
      injection Er as <-. cbn [mbind option_bind].
      case_bool_decide; [apply send_total|eauto]. }
    destruct ((t =? messageYjsSyncStep2) || (t =? messageYjsUpdate)); [|done].
    destruct (readVarUint8Array d1) as [[update ?]|]; [|done].
    destruct (Y_applyUpdate (ydoc_of w doc) update) as [[y emitted]|]; [|done].
    injection Er as <-.
    assert (Hs : is_Some (match emitted with
      | Some u => if observed_of (set_ydoc doc y w) doc
                  then docUpdateHandler doc u ws (set_ydoc doc y w)
                  else Some (set_ydoc doc y w)
      | None => Some (set_ydoc doc y w)
      end)).
    { destruct emitted; [|eauto]. destruct (observed_of _ doc); [|eauto].
      apply docUpdateHandler_total. }
    destruct Hs as [w2 ->]. cbn [mbind option_bind].
    case_bool_decide; [apply send_total|eauto]. }
  destruct (messageType =? messageAwareness).
  { destruct (readVarUint8Array decoder) as [[awarenessUpdate ?]|]; [|done].
    destruct (applyAwarenessUpdate (awareness_of w doc) awarenessUpdate) as [a [ch|]];
      [|done].
    injection Et as <-.
    assert (Hs : is_Some (if observed_of (set_awareness doc a w) doc
                             && negb (bool_decide (added ch ++ updated ch ++ removed ch = []))
                          then awarenessChangeHandler doc ch (Some ws) (set_awareness doc a w)
                          else Some (set_awareness doc a w))).
    { destruct (_ && _); [apply awarenessChangeHandler_total|eauto]. }
    destruct Hs as [w2 ->]. cbn [mbind option_bind].
    apply forEach_total. intros c x. cbn beta.
    match goal with |- is_Some (if ?b then _ else _) => destruct b end;
      [apply send_total|eauto]. }
  destruct (messageType =? messageStats).
  { injection Et as <-. apply send_total. }
  injection Et as <-. eauto.
Qed.

Lemma setupConnection_total ws docName w : is_Some (setupConnection ws docName w).
Proof.
  unfold setupConnection. destruct (getYDoc docName w) as [doc w1].
  match goal with |- context [send doc ws ?m ?x] =>
    destruct (send_total doc ws m x) as [w4 ->] end.
  cbn [mbind option_bind]. case_bool_decide; [apply send_total|eauto].
Qed.

Lemma step_total w e : is_Some (step w e).
Proof.
  destruct e as [ws url|ws message|ws|ws|ws|ws]; cbn [step]; eauto.
  - destruct (socks w !! ws); [eauto|apply setupConnection_total].
  - destruct (handlers w !! ws); [apply onMessage_total|eauto].
  - destruct (handlers w !! ws); [apply closeConn_total|eauto].
  - destruct (handlers w !! ws); [apply closeConn_total|eauto].
Qed.

Lemma run_total es w : is_Some (run w es).
Proof.
  revert w. induction es as [|e es IH]; intros w; cbn [run]; [eauto|].
  destruct (step_total w e) as [w1 ->]. cbn. apply IH.
Qed.

End Totality.

(** ** The presence table under the effects of [closeConn] *)

Section Presence.
Context {Y : YEngine} {L : YEngineLaws Y}.
Implicit Types (w : World Y) (doc d : docref) (c : conn) (forced : conn -> Prop)
  (xf : conn -> bytes -> Prop).

Lemma effect_states doc forced xf w w' i :
  effect doc forced xf w w' ->
  i ∈ getStates (awareness_of w' doc) -> i ∈ getStates (awareness_of w doc).
Proof.
  intros H. destruct H as [c w Hc|ids w|c m w Hh Hreg Hm|w Hnil|c w Hc].
  - by replace (awareness_of (set_conns doc _ w) doc) with (awareness_of w doc)
      by solve_heap_read.
  - unfold awareness_of at 1. unfold set_awareness, set_heap. cbn [heap].
    rewrite lookup_alter_eq. destruct (heap w !! doc) as [room|] eqn:E; cbn.
    + rewrite removeAwarenessStates_states. by intros [_ ?]%list_elem_of_filter.
    + unfold awareness_of. by rewrite E.
  - done.
  - by replace (awareness_of (set_docs _ (destroy doc w)) doc) with (awareness_of w doc)
      by solve_heap_read.
  - done.
Qed.

Lemma effects_states doc forced xf w w' i :
  effects doc forced xf w w' ->
  i ∈ getStates (awareness_of w' doc) -> i ∈ getStates (awareness_of w doc).
Proof.
  induction 1 as [|w1 w2 w3 H12 _ IH]; [done|].
  intros Hi. eapply effect_states; [exact H12|]. by apply IH.
Qed.

End Presence.

(** ** A broadcast in a room where every selected connection is healthy *)

Section Healthy.
Context {Y : YEngine}.
Implicit Types (w : World Y) (doc d : docref) (c : conn).

Lemma forEach_healthy doc (F : bytes) (sel : conn -> bool)
    (f : conn -> World Y -> option (World Y)) keys w :
  (forall c w, f c w = if sel c then send doc c F w else Some w) ->
  NoDup keys ->
  (forall c, c ∈ keys -> registered w doc c -> sel c = true -> healthy w c) ->
  exists w', forEach_conns f doc keys w = Some w'
    /\ docs w' = docs w /\ heap w' = heap w
    /\ handlers w' = handlers w /\ errors w' = errors w
    /\ forall c, socks w' !! c =
         if decide (c ∈ keys /\ sel c = true /\ registered w doc c)
         then ws_send F <$> socks w !! c else socks w !! c.
Proof.
  intros Hf. revert w. induction keys as [|c0 keys IH]; intros w Hnd Hall.
  { exists w. do 5 (split; [done|]). intros c. rewrite decide_False; [done|].
    intros [Hin _]. inversion Hin. }
  apply NoDup_cons in Hnd as [Hc0 Hnd]. cbn [forEach_conns].
  assert (Hskip : ~ (sel c0 = true /\ registered w doc c0) ->
    exists w', forEach_conns f doc keys w = Some w'
    /\ docs w' = docs w /\ heap w' = heap w
    /\ handlers w' = handlers w /\ errors w' = errors w
    /\ forall c, socks w' !! c =
         if decide (c ∈ c0 :: keys /\ sel c = true /\ registered w doc c)
         then ws_send F <$> socks w !! c else socks w !! c).
  { intros Hno. destruct (IH w Hnd) as (w' & E & Ed & Eh & Eha & Ee & Hs).
    { intros c Hin. apply Hall. by right. }
    exists w'. do 5 (split; [done|]). intros c. rewrite Hs.
    destruct (decide (c = c0)) as [->|Hne].
    - rewrite !decide_False; [done| |]; intros (? & ? & ?); [by apply Hno|done].
    - destruct (decide (c ∈ keys /\ sel c = true /\ registered w doc c))
        as [(H1 & H2 & H3)|Hn].
      + rewrite decide_True; [done|]. split; [by right|done].
      + rewrite decide_False; [done|]. intros (H1 & H2 & H3). apply Hn.
        split; [|done]. by apply elem_of_cons in H1 as [?|?]. }
  destruct (conns_has c0 (conns_of w doc)) eqn:Ehas.
  2:{ apply Hskip. intros [_ Hr]. apply conns_has_registered in Hr. congruence. }
  apply conns_has_registered in Ehas. rewrite Hf.
  destruct (sel c0) eqn:Esel.
  2:{ cbn. apply Hskip. by intros [? _]. }
  assert (Hh : healthy w c0) by (apply Hall; [by left|done|done]).
  rewrite send_healthy by done. cbn.
  set (w1 := set_socks (alter (ws_send F) c0) w).
  destruct (IH w1 Hnd) as (w' & E & Ed & Eh & Eha & Ee & Hs).
  { intros c Hin Hreg Hs. destruct (Hall c) as [Hr Ht]; [by right|done|done|].
    assert (Hne : c ≠ c0) by (by intros ->).
    unfold healthy, readyState_of, sendThrows_of in *. subst w1. cbn [socks set_socks].
    by rewrite lookup_alter_ne. }
  exists w'. do 5 (split; [done|]). intros c. rewrite Hs.
  change (registered w1 doc c) with (registered w doc c).
  destruct (decide (c = c0)) as [->|Hne].
  - rewrite decide_False by (by intros [? _]).
    rewrite decide_True by (split; [by left|done]).
    subst w1. cbn [socks set_socks]. by rewrite lookup_alter_eq.
  - subst w1. cbn [socks set_socks]. rewrite lookup_alter_ne by done.
    destruct (decide (c ∈ keys /\ sel c = true /\ registered w doc c))
      as [(H1 & H2 & H3)|Hn].
    + rewrite decide_True; [done|]. split; [by right|done].
    + rewrite decide_False; [done|]. intros (H1 & H2 & H3). apply Hn.
      split; [|done]. by apply elem_of_cons in H1 as [?|?].
Qed.

End Healthy.

(** ** What [closeConn] cleans up *)

Section Cleanup.
Context {Y : YEngine}.
Implicit Types (w : World Y) (doc d : docref) (c : conn).

Lemma socks_reclaim doc w : socks (reclaim doc w) = socks w.
Proof. unfold reclaim. by case_bool_decide. Qed.

Lemma awareness_of_reclaim doc d w : awareness_of (reclaim doc w) d = awareness_of w d.
Proof.
  unfold reclaim. case_bool_decide; [|done].
  destruct (decide (d = doc)) as [->|Hd]; solve_heap_read.
Qed.

Lemma sent_of_close c c' w : sent_of (set_socks (alter ws_close c) w) c' = sent_of w c'.
Proof.
  unfold sent_of. cbn [socks set_socks]. destruct (decide (c' = c)) as [->|Hne].
  - rewrite lookup_alter_eq. by destruct (socks w !! c).
  - by rewrite lookup_alter_ne.
Qed.

Lemma sent_of_reclaim doc c w : sent_of (reclaim doc w) c = sent_of w c.
Proof. unfold sent_of. by rewrite socks_reclaim. Qed.

Lemma conns_of_unlinked doc c ids w :
  registered w doc c ->
  conns_of (unlinked doc c ids w) doc = conns_delete c (conns_of w doc).
Proof.
  intros Hreg. unfold unlinked.
  rewrite conns_of_set_awareness, conns_of_set_conns; [done|].
  by eapply registered_alive.
Qed.

Lemma awareness_of_unlinked doc c ids w :
  registered w doc c ->
  awareness_of (unlinked doc c ids w) doc
  = (removeAwarenessStates (awareness_of w doc) ids).1.
Proof.
  intros Hreg. destruct (registered_alive _ _ _ Hreg) as [room E].
  unfold unlinked. unfold awareness_of at 1. unfold set_awareness, set_conns, set_heap.
  cbn [heap]. rewrite !lookup_alter_eq, E. done.
Qed.

Lemma closeConn_cleanup doc c w w' :
  closeConn doc c w = Some w' ->
  ~ registered w' doc c
  /\ (registered w doc c -> conns_of w' doc = [] ->
        docs w' !! name_of w doc = None /\ observed_of w' doc = false)
  /\ sent_of w' c = sent_of w c
  /\ (forall s, socks w !! c = Some s ->
        exists s', socks w' !! c = Some s' /\ readyState s' ≠ OPEN
                   /\ (closeCalls s < closeCalls s')%nat).
Proof.
  intros E.
  split. { unfold registered. rewrite (closeConn_deregisters _ _ _ _ E). by intros [? ?]. }
  destruct (conns_get c (conns_of w doc)) as [ids|] eqn:Eg.
  2:{ rewrite closeConn_unregistered in E by done. injection E as <-.
      split.
      { intros [? Hr]. unfold registered in *. congruence. }
      split; [apply sent_of_close|].
      intros s Es. exists (ws_close s). cbn [socks set_socks].
      rewrite lookup_alter_eq, Es. split; [done|]. split; [|cbn; lia].
      cbn. by destruct (readyState s). }
  assert (Hreg : registered w doc c) by (unfold registered; rewrite Eg; eauto).
  destruct (closeConn_registered _ _ _ _ _ Eg E) as (w3 & H3 & _ & _ & ->).
  fold (unlinked doc c ids w) in H3.
  pose proof (effects_confined _ _ _ _ _ H3) as C3.
  split; [|split].
  - intros _.
    change (conns_of (set_socks (alter ws_close c) (reclaim doc w3)) doc)
      with (conns_of (reclaim doc w3) doc).
    rewrite conns_of_reclaim. intros Hnil.
    assert (En : name_of w3 doc = name_of w doc).
    { rewrite (confined_name _ _ _ _ _ C3). unfold unlinked. solve_heap_read. }
    unfold reclaim. rewrite Hnil. cbn [length]. rewrite bool_decide_eq_true_2 by done.
    split.
    + cbn [docs set_socks set_docs]. rewrite En. apply lookup_delete_eq.
    + destruct (registered_alive _ _ _ Hreg) as [room Er].
      pose proof (proj2 (confined_alive _ _ _ _ _ C3)) as Hal.
      destruct Hal as [room3 E3].
      { unfold unlinked, set_awareness, set_conns, set_heap. cbn [heap].
        by rewrite !lookup_alter_is_Some. }
      unfold observed_of, destroy, set_docs, set_socks, set_heap. cbn [heap].
      by rewrite lookup_alter_eq, E3.
  - rewrite sent_of_close, sent_of_reclaim.
    destruct (confined_sent _ _ _ _ _ c C3) as (extra & Ex & _ & Hne).
    destruct extra as [|x extra]; [by rewrite app_nil_r in Ex|].
    destruct Hne as [_ Hr]; [done|]. unfold registered in Hr.
    rewrite conns_of_unlinked, conns_get_delete in Hr by done.
    rewrite decide_True in Hr by done. by destruct Hr.
  - intros s Es. pose proof (confined_socks _ _ _ _ _ C3 c) as Hs.
    change (socks (unlinked doc c ids w)) with (socks w) in Hs. rewrite Es in Hs.
    destruct Hs as (s3 & E3 & _ & _ & Hcl & _).
    exists (ws_close s3). cbn [socks set_socks].
    rewrite lookup_alter_eq, socks_reclaim, E3. split; [done|]. split; [|cbn; lia].
    cbn. by destruct (readyState s3).
Qed.

(** The ids the connection controlled are gone from the presence table. *)
Lemma closeConn_presence {L : YEngineLaws Y} doc c ids w w' i :
  closeConn doc c w = Some w' ->
  conns_get c (conns_of w doc) = Some ids -> i ∈ ids ->
  i ∉ getStates (awareness_of w' doc).
Proof.
  intros E Eg Hi.
  assert (Hreg : registered w doc c) by (unfold registered; rewrite Eg; eauto).
  destruct (closeConn_registered _ _ _ _ _ Eg E) as (w3 & H3 & _ & _ & ->).
  fold (unlinked doc c ids w) in H3.
  change (awareness_of (set_socks (alter ws_close c) (reclaim doc w3)) doc)
    with (awareness_of (reclaim doc w3) doc).
  rewrite awareness_of_reclaim. intros Hin.
  apply (effects_states _ _ _ _ _ _ H3) in Hin.
  rewrite awareness_of_unlinked, removeAwarenessStates_states in Hin by done.
  by apply list_elem_of_filter in Hin as [? _].
Qed.

(** The presence listener on a removal that no connection originated *)
Lemma awarenessChangeHandler_removed doc gone w :
  awarenessChangeHandler doc (mkChanges [] [] gone) None w
  = forEach_conns
      (fun c => send doc c (writeVarUint messageAwareness
                            ++ writeVarUint8Array
                                 (encodeAwarenessUpdate (awareness_of w doc) gone)))
      doc (conns_keys (conns_of w doc)) w.
Proof. reflexivity. Qed.

End Cleanup.

(** ** A new connection *)

Section Setup.
Context {Y : YEngine}.
Implicit Types (w : World Y) (doc d : docref) (c ws : conn).

(** The socket the runtime hands to the ['connection'] listener *)
Lemma getYDoc_cases docName w :
  match docs w !! docName with
  | Some d => getYDoc docName w = (d, w)
  | None =>
      getYDoc docName w
      = (fresh (dom (heap w)),
         set_docs (insert docName (fresh (dom (heap w))))
           (set_heap (insert (fresh (dom (heap w))) (new_WSSharedDoc docName)) w))
      /\ heap w !! fresh (dom (heap w)) = None
  end.
Proof.
  unfold getYDoc. destruct (docs w !! docName); [done|]. split; [done|].
  apply not_elem_of_dom, is_fresh.
Qed.

Lemma getYDoc_alive docName w doc w1 :
  wf w -> getYDoc docName w = (doc, w1) ->
  is_Some (heap w1 !! doc) /\ docs w1 !! docName = Some doc
  /\ socks w1 = socks w /\ handlers w1 = handlers w /\ errors w1 = errors w
  /\ (forall d, d ≠ doc -> heap w1 !! d = heap w !! d).
Proof.
  intros Hwf. pose proof (getYDoc_cases docName w) as Hc.
  destruct (docs w !! docName) as [d|] eqn:Ed.
  - rewrite Hc. intros [= <- <-]. split; [|done].
    destruct (wf_registry _ Hwf _ _ Ed) as (_ & Hne & _).
    unfold conns_of in Hne. destruct (heap w !! d); [eauto|done].
  - destruct Hc as [-> Hf]. intros [= <- <-]. cbn [heap docs socks handlers errors
      set_docs set_heap]. rewrite !lookup_insert_eq. split; [eauto|].
    repeat split; try done. intros d Hd. by rewrite lookup_insert_ne.
Qed.

(** [setupConnection] for a socket that is open and writes: both frames of
    the handshake are written, and nothing else happens. *)
Lemma setupConnection_healthy ws docName w doc w1 :
  wf w -> healthy w ws -> getYDoc docName w = (doc, w1) ->
  let w3 := set_handlers (insert ws doc)
              (set_conns doc (conns_set ws [] (conns_of w1 doc)) w1) in
  let step1 := writeVarUint messageSync
               ++ (writeVarUint messageYjsSyncStep1
                   ++ writeVarUint8Array (Y_encodeStateVector (ydoc_of w1 doc))) in
  let participants := getStates (awareness_of w1 doc) in
  let snapshot := writeVarUint messageAwareness
                  ++ writeVarUint8Array
                       (encodeAwarenessUpdate (awareness_of w1 doc) participants) in
  setupConnection ws docName w
  = Some (if decide (participants = [])
          then set_socks (alter (ws_send step1) ws) w3
          else set_socks (alter (ws_send snapshot) ws)
                 (set_socks (alter (ws_send step1) ws) w3)).
Proof.
  intros Hwf Hh Eg w3 step1 participants snapshot.
  destruct (getYDoc_alive _ _ _ _ Hwf Eg) as ([room Er] & _ & Es & _).
  unfold setupConnection. rewrite Eg. fold w3.
  assert (Ey : ydoc_of w3 doc = ydoc_of w1 doc) by (subst w3; solve_heap_read).
  assert (Hh3 : healthy w3 ws).
  { unfold healthy, readyState_of, sendThrows_of in *. subst w3.
    cbn [socks set_handlers set_conns set_heap]. by rewrite Es. }
  rewrite Ey. fold step1. rewrite send_healthy by done. cbn [mbind option_bind].
  set (w4 := set_socks (alter (ws_send step1) ws) w3).
  assert (Ea : awareness_of w4 doc = awareness_of w1 doc) by (subst w4 w3; solve_heap_read).
  rewrite Ea. fold participants. fold snapshot.
  destruct (decide (participants = [])) as [Ep|Ep].
  - rewrite Ep. cbn [length]. by rewrite bool_decide_eq_false_2 by lia.
  - rewrite bool_decide_eq_true_2 by (destruct participants; [done|cbn; lia]).
    apply send_healthy.
    destruct Hh3 as [Hr Ht]. unfold healthy, readyState_of, sendThrows_of in *.
    subst w4. cbn [socks set_socks]. rewrite lookup_alter_eq.
    destruct (socks w3 !! ws); cbn in *; done.
Qed.

(** The ['connection'] event for a new socket *)
Lemma connection_result ws url w :
  wf w -> socks w !! ws = None ->
  exists w' doc w1,
    getYDoc (docNameOf url) (set_socks (insert ws (mkWebSocket OPEN [] false 0)) w)
    = (doc, w1)
    /\ step w (Connection ws url) = Some w'
    /\ docs w' !! docNameOf url = Some doc
    /\ conns_of w' doc = conns_set ws [] (conns_of w1 doc)
    /\ ydoc_of w' doc = ydoc_of w1 doc
    /\ awareness_of w' doc = awareness_of w1 doc
    /\ sent_of w' ws =
         (let step1 := writeVarUint messageSync
                       ++ (writeVarUint messageYjsSyncStep1
                           ++ writeVarUint8Array (Y_encodeStateVector (ydoc_of w1 doc))) in
          let participants := getStates (awareness_of w1 doc) in
          let snapshot := writeVarUint messageAwareness
                          ++ writeVarUint8Array
                               (encodeAwarenessUpdate (awareness_of w1 doc) participants) in
          if decide (participants = []) then [step1] else [step1; snapshot])
    /\ (forall c, c ≠ ws -> socks w' !! c = socks w !! c).
Proof.
  intros Hwf Hnew.
  set (w0 := set_socks (insert ws (mkWebSocket OPEN [] false 0)) w).
  assert (Hwf0 : wf w0) by (by apply wf_set_socks).
  assert (Hh0 : healthy w0 ws).
  { unfold healthy, readyState_of, sendThrows_of. subst w0. cbn [socks set_socks].
    by rewrite lookup_insert_eq. }
  destruct (getYDoc (docNameOf url) w0) as [doc w1] eqn:Eg.
  pose proof (setupConnection_healthy ws _ w0 doc w1 Hwf0 Hh0 Eg) as Hs. cbn zeta in Hs.
  destruct (getYDoc_alive _ _ _ _ Hwf0 Eg) as ([room Er] & Ed & Es & _).
  assert (Es1 : socks w1 !! ws = Some (mkWebSocket OPEN [] false 0)).
  { rewrite Es. subst w0. cbn [socks set_socks]. by rewrite lookup_insert_eq. }
  assert (Hoth : forall c, c ≠ ws -> socks w1 !! c = socks w !! c).
  { intros c Hc. rewrite Es. subst w0. cbn [socks set_socks]. by rewrite lookup_insert_ne. }
  eexists _, doc, w1. split; [done|]. split.
  { cbn [step]. rewrite Hnew. exact Hs. }
  destruct (decide (getStates (awareness_of w1 doc) = [])) as [Ep|Ep].
  - split; [exact Ed|]. split.
    { change (conns_of (set_conns doc (conns_set ws [] (conns_of w1 doc)) w1) doc
              = conns_set ws [] (conns_of w1 doc)).
      apply conns_of_set_conns. eauto. }
    split; [solve_heap_read|]. split; [solve_heap_read|]. split.
    + unfold sent_of. cbn [socks set_socks set_handlers set_conns set_heap].
      rewrite lookup_alter_eq, Es1. cbn zeta. by rewrite decide_True.
    + intros c Hc. cbn [socks set_socks set_handlers set_conns set_heap].
      rewrite lookup_alter_ne by done. by apply Hoth.
  - split; [exact Ed|]. split.
    { change (conns_of (set_conns doc (conns_set ws [] (conns_of w1 doc)) w1) doc
              = conns_set ws [] (conns_of w1 doc)).
      apply conns_of_set_conns. eauto. }
    split; [solve_heap_read|]. split; [solve_heap_read|]. split.
    + unfold sent_of. cbn [socks set_socks set_handlers set_conns set_heap].
      rewrite !lookup_alter_eq, Es1. cbn zeta. by rewrite decide_False.
    + intros c Hc. cbn [socks set_socks set_handlers set_conns set_heap].
      rewrite !lookup_alter_ne by done. by apply Hoth.
Qed.

End Setup.

(** ** The reference engine keeps the laws *)


Lemma lookup_id_keys {A} (i : clientID) (m : list (clientID * A)) :
  is_Some (Reference.lookup_id i m) <-> i ∈ m.*1.
Proof.
  unfold Reference.lookup_id. induction m as [|e m IH]; cbn.
  - split; [by intros [? ?] | intros H; inversion H].
  - case_bool_decide as He; cbn.
    + split; [intros _; rewrite He; by left | eauto].
    + rewrite IH. split; [by right|].
      intros H. apply elem_of_cons in H as [H|H]; [congruence|done].
Qed.

Lemma delete_id_keys {A} (i : clientID) (m : list (clientID * A)) :
  (Reference.delete_id i m).*1 = filter (fun j => j ≠ i) m.*1.
Proof.
  unfold Reference.delete_id. induction m as [|e m IH]; [done|].
  cbn [List.filter]. rewrite fmap_cons, filter_cons. case_bool_decide as He; cbn [negb].
  - rewrite decide_False by (by intros ?). exact IH.
  - rewrite decide_True by done. by rewrite fmap_cons, IH.
Qed.

Lemma filter_agree {A} (P Q : A -> Prop) `{!forall x, Decision (P x)}
    `{!forall x, Decision (Q x)} (l : list A) :
  (forall x, x ∈ l -> (P x <-> Q x)) -> filter P l = filter Q l.
Proof.
  induction l as [|x l IH]; intros Hpq; [done|]. rewrite !filter_cons.
  assert (Hx : P x <-> Q x) by (apply Hpq; by left).
  rewrite IH by (intros y Hy; apply Hpq; by right).
  destruct (decide (P x)), (decide (Q x)); tauto.
Qed.

Lemma reference_removed_states (a : Reference.Table) (ids : list clientID) :
  (Reference.states (Reference.removeAwarenessStates a ids).1).*1
  = filter (fun i => i ∉ ids) (Reference.states a).*1.
Proof.
  revert a. induction ids as [|i ids IH]; intros a; cbn [Reference.removeAwarenessStates].
  - cbn [fst]. symmetry.
    induction (Reference.states a).*1 as [|x l IHl]; [done|].
    rewrite filter_cons_True by apply not_elem_of_nil. by f_equal.
  - case_bool_decide as Hp.
    + destruct (Reference.removeAwarenessStates _ ids) as [a' gone] eqn:Er.
      cbn [fst]. replace a' with (Reference.removeAwarenessStates
        {| Reference.states := Reference.delete_id i (Reference.states a);
           Reference.meta := if bool_decide (i = Reference.localID a)
                             then Reference.set_id i
                                    (default 0 (Reference.lookup_id i (Reference.meta a)) + 1)
                                    (Reference.meta a)
                             else Reference.meta a;
           Reference.localID := Reference.localID a |} ids).1 by (by rewrite Er).
      rewrite IH. cbn [Reference.states]. rewrite delete_id_keys, list_filter_filter.
      apply list_filter_iff. intros x. rewrite not_elem_of_cons. tauto.
    + rewrite IH. apply filter_agree. intros x Hx. rewrite not_elem_of_cons.
      split; [|tauto]. intros Hn. split; [|done]. intros ->.
      apply Hp. by apply lookup_id_keys.
Qed.

Lemma reference_removed_ids (a : Reference.Table) (ids : list clientID) (i : clientID) :
  i ∈ (Reference.removeAwarenessStates a ids).2
  <-> i ∈ ids /\ i ∈ (Reference.states a).*1.
Proof.
  revert a. induction ids as [|j ids IH]; intros a; cbn [Reference.removeAwarenessStates].
  - cbn. split; [intros H; inversion H | intros [H _]; inversion H].
  - case_bool_decide as Hp.
    + destruct (Reference.removeAwarenessStates _ ids) as [a' gone] eqn:Er.
      cbn [snd]. replace gone with (Reference.removeAwarenessStates
        {| Reference.states := Reference.delete_id j (Reference.states a);
           Reference.meta := if bool_decide (j = Reference.localID a)
                             then Reference.set_id j
                                    (default 0 (Reference.lookup_id j (Reference.meta a)) + 1)
                                    (Reference.meta a)
                             else Reference.meta a;
           Reference.localID := Reference.localID a |} ids).2 by (by rewrite Er).
      rewrite elem_of_cons, IH. cbn [Reference.states].
      rewrite delete_id_keys, list_elem_of_filter, elem_of_cons.
      apply lookup_id_keys in Hp.
      destruct (decide (i = j)) as [->|Hne]; [tauto|]. tauto.
    + rewrite IH, elem_of_cons. split; [tauto|].
      intros [[->|Hin] Hk]; [|done]. exfalso. apply Hp. by apply lookup_id_keys.
Qed.

#[global] Instance reference_laws : YEngineLaws Reference.engine.
Proof.
  split.
  - intros a ids. apply reference_removed_states.
  - intros a ids i. apply reference_removed_ids.
Qed.


(** * What the relay guarantees *)

Section Guarantees.
Context {Y : YEngine}.
Implicit Types (w : World Y) (doc d : docref) (c ws : conn).

(** C10 — Closing is idempotent on the room state.  For a connection that
    is not registered in the room, or is no longer registered because
    [closeConn] already ran for it (a failed send followed by the
    transport's own close event), [closeConn] leaves the registry, the
    room objects with their presence tables and connection maps, and
    every outbox as they are: nothing is broadcast, no room is destroyed,
    only [close()] is called on the transport once more. *)
Theorem closeConn_idempotent doc c w :
  ~ registered w doc c \/ (exists w0, closeConn doc c w0 = Some w) ->
  exists w', closeConn doc c w = Some w'
    /\ docs w' = docs w /\ heap w' = heap w
    /\ handlers w' = handlers w /\ errors w' = errors w
    /\ socks w' = alter ws_close c (socks w)
    /\ forall c', sent_of w' c' = sent_of w c'.
Proof.
  intros H.
  assert (Eg : conns_get c (conns_of w doc) = None).
  { destruct H as [H|[w0 H]]; [|by eapply closeConn_deregisters].
    unfold registered in H. destruct (conns_get c (conns_of w doc)); [|done].
    exfalso. apply H. eauto. }
  exists (set_socks (alter ws_close c) w).
  split; [by apply closeConn_unregistered|]. repeat split.
  intros c'. unfold sent_of. cbn [socks set_socks].
  destruct (decide (c' = c)) as [->|Hne].
  - rewrite lookup_alter_eq. by destruct (socks w !! c).
  - by rewrite lookup_alter_ne.
Qed.







(** C7 — A send to a connection whose transport is not open, or whose
    write throws, treats the connection as closed.  Nothing is written to
    it; [send] is [closeConn]: afterwards the connection is not in the
    room's connection map, the ids it controlled are in no entry of the
    presence table, [close()] was called on the transport, which is not
    open, and a room left without connections is destroyed and no longer
    in the registry.  A write that fails later (the callback of
    [conn.send] gets an error) runs the same [closeConn], whatever the
    state of the transport is by then, also when it is still open and
    writable. *)
Theorem send_dead_transport {L : YEngineLaws Y} doc c (m : bytes) w :
  exists w', closeConn doc c w = Some w'
    /\ (~ healthy w c -> send doc c m w = Some w')
    /\ (handlers w !! c = Some doc -> step w (SendFailed c) = Some w')
    /\ sent_of w' c = sent_of w c
    /\ ~ registered w' doc c
    /\ (forall ids i, conns_get c (conns_of w doc) = Some ids -> i ∈ ids ->
          i ∉ getStates (awareness_of w' doc))
    /\ (registered w doc c -> conns_of w' doc = [] ->
          docs w' !! name_of w doc = None /\ observed_of w' doc = false)
    /\ (forall s, socks w !! c = Some s ->
          exists s', socks w' !! c = Some s' /\ readyState s' ≠ OPEN
                     /\ (closeCalls s < closeCalls s')%nat).
Proof.
  destruct (closeConn_total doc c w) as [w' E]. exists w'.
  split; [done|]. split; [intros Hn; by rewrite send_unhealthy|].
  split; [intros Hh; cbn [step]; by rewrite Hh|].
  destruct (closeConn_cleanup _ _ _ _ E) as (H1 & H2 & H3 & H4).
  split; [done|]. split; [done|]. split.
  { intros ids i Eg Hi. by eapply closeConn_presence. }
  by split.
Qed.


(** C6 (amended) — Closing a registered connection removes every id it
    controls from the presence table.  If at least one of those ids was
    still in the table, one presence frame that encodes the removal of the
    ids that were there reaches every remaining registered connection that
    is healthy: its transport is open and the write to it does not throw
    (and it is the only frame written when all of them are healthy).  A
    remaining connection that is not healthy, be its transport open or
    not, gets nothing and is deregistered in turn.  If none of the ids
    was in the table, nothing is sent. *)
Theorem close_broadcasts_removal {L : YEngineLaws Y} doc c ids w :
  wf w ->
  conns_get c (conns_of w doc) = Some ids ->
  let r := removeAwarenessStates (awareness_of w doc) ids in
  let F := writeVarUint messageAwareness
           ++ writeVarUint8Array (encodeAwarenessUpdate r.1 r.2) in
  exists w', closeConn doc c w = Some w'
    /\ (forall i, i ∈ ids -> i ∉ getStates (awareness_of w' doc))
    /\ (forall i, i ∈ r.2 <-> i ∈ ids /\ i ∈ getStates (awareness_of w doc))
    /\ (r.2 ≠ [] -> forall c', c' ≠ c -> registered w doc c' -> healthy w c' ->
          delivered F w w' c' /\ registered w' doc c')
    /\ (r.2 ≠ [] -> (forall c', c' ≠ c -> registered w doc c' -> healthy w c') ->
          forall c', c' ≠ c -> registered w doc c' -> sent_of w' c' = sent_of w c' ++ [F])
    /\ (r.2 = [] -> forall c', sent_of w' c' = sent_of w c')
    /\ (r.2 ≠ [] -> forall c', c' ≠ c -> registered w doc c' -> ~ healthy w c' ->
          sent_of w' c' = sent_of w c' /\ ~ registered w' doc c').
Proof.
  intros Hwf Eg r F.
  assert (Hreg : registered w doc c) by (unfold registered; rewrite Eg; eauto).
  destruct (closeConn_total doc c w) as [w' E]. exists w'. split; [done|].
  split. { intros i Hi. by eapply closeConn_presence. }
  split.
  { intros i. subst r. apply removeAwarenessStates_removed. }
  destruct (closeConn_registered _ _ _ _ _ Eg E) as (w3 & H3 & Hsame & Hhandler & ->).
  set (w2 := unlinked doc c ids w).
  change (observed_of w doc = false \/ r.2 = [] -> w3 = w2) in Hsame.
  change (observed_of w doc = true -> r.2 ≠ [] ->
          awarenessChangeHandler doc (mkChanges [] [] r.2) None w2 = Some w3) in Hhandler.
  assert (Hobs : observed_of w doc = true).
  { assert (Hne : conns_of w doc ≠ []) by (intros En; by rewrite En in Eg).
    by destruct (wf_registry _ Hwf _ _ (wf_live _ Hwf doc Hne)) as (_ & _ & ?). }
  assert (Hc2 : conns_of w2 doc = conns_delete c (conns_of w doc))
    by (by apply conns_of_unlinked).
  assert (Hnd : NoDup (conns_keys (conns_of w2 doc))).
  { rewrite Hc2, conns_delete_filter. apply conns_keys_filter_NoDup, (wf_keys _ Hwf). }
  assert (Hbuff : writeVarUint messageAwareness ++
            writeVarUint8Array (encodeAwarenessUpdate (awareness_of w2 doc) r.2) = F).
  { subst F w2. by rewrite awareness_of_unlinked. }
  assert (Hreg2 : forall c', c' ≠ c -> registered w doc c' -> registered w2 doc c').
  { intros c' Hne Hr. unfold registered. rewrite Hc2, conns_get_delete.
    by rewrite decide_False. }
  split; [|split; [|split]].
  - intros Hgone c' Hne Hr Hh.
    specialize (Hhandler Hobs Hgone).
    rewrite awarenessChangeHandler_removed, Hbuff in Hhandler.
    destruct (forEach_deliver doc F (fun _ => true) (fun c0 => send doc c0 F)
                (conns_keys (conns_of w2 doc)) w2)
      as (w3' & E3 & _ & Hdel & _ & _); [done|done|].
    rewrite Hhandler in E3. injection E3 as <-.
    destruct (Hdel c') as (Hd & _ & Eg'); [done|by apply Hreg2| |done|].
    { apply conns_get_keys. by apply Hreg2. }
    split.
    + destruct Hd as (pre & post & Es & Hpre & Hpost). exists pre, post.
      rewrite sent_of_close, sent_of_reclaim. by split.
    + unfold registered.
      change (conns_of (set_socks (alter ws_close c) (reclaim doc w3)) doc)
        with (conns_of (reclaim doc w3) doc).
      rewrite conns_of_reclaim, Eg'. by apply Hreg2.
  - intros Hgone Hall c' Hne Hr.
    specialize (Hhandler Hobs Hgone).
    rewrite awarenessChangeHandler_removed, Hbuff in Hhandler.
    destruct (forEach_healthy doc F (fun _ => true) (fun c0 => send doc c0 F)
                (conns_keys (conns_of w2 doc)) w2)
      as (w3' & E3 & _ & _ & _ & _ & Hs); [done|done| |].
    { intros c0 Hin Hr0 _. apply (Hall c0).
      - intros ->. unfold registered in Hr0. rewrite Hc2, conns_get_delete in Hr0.
        rewrite decide_True in Hr0 by done. by destruct Hr0.
      - unfold registered in *. rewrite Hc2, conns_get_delete in Hr0.
        by case_decide; [destruct Hr0|]. }
    rewrite Hhandler in E3. injection E3 as <-.
    rewrite sent_of_close, sent_of_reclaim. unfold sent_of. rewrite Hs.
    rewrite decide_True.
    2:{ split; [|split; [done|by apply Hreg2]]. apply conns_get_keys. by apply Hreg2. }
    change (socks w2) with (socks w).
    destruct (Hall c' Hne Hr) as [Ho _]. unfold readyState_of in Ho.
    by destruct (socks w !! c').
  - intros Hgone c'. rewrite (Hsame (or_intror Hgone)).
    by rewrite sent_of_close, sent_of_reclaim.
  - intros Hgone c' Hne Hr Hn.
    specialize (Hhandler Hobs Hgone).
    rewrite awarenessChangeHandler_removed, Hbuff in Hhandler.
    destruct (forEach_deliver doc F (fun _ => true) (fun c0 => send doc c0 F)
                (conns_keys (conns_of w2 doc)) w2)
      as (w3' & E3 & _ & _ & _ & Hdead); [done|done|].
    rewrite Hhandler in E3. injection E3 as <-.
    destruct (Hdead c') as [Hn3 Hs3]; [done|by apply conns_get_keys, Hreg2|done|].
    split.
    + by rewrite sent_of_close, sent_of_reclaim.
    + unfold registered.
      change (conns_of (set_socks (alter ws_close c) (reclaim doc w3)) doc)
        with (conns_of (reclaim doc w3) doc).
      by rewrite conns_of_reclaim.
Qed.


(** C5 (amended) — On a new connection the relay first sends Sync Step 1
    with the state vector of the room's document; then, if the room's
    presence table is not empty, one presence frame with the encoded state
    of every participant in the table.  These are the first frames in the
    outbox of the connection, in this order, so no presence delta comes
    before them.  For an empty table no presence frame is sent. *)
Theorem handshake_on_connect ws url w :
  wf w ->
  socks w !! ws = None ->
  exists w' doc, step w (Connection ws url) = Some w'
    /\ docs w' !! docNameOf url = Some doc
    /\ registered w' doc ws
    /\ let step1 := writeVarUint messageSync
                    ++ (writeVarUint messageYjsSyncStep1
                        ++ writeVarUint8Array (Y_encodeStateVector (ydoc_of w' doc))) in
       let participants := getStates (awareness_of w' doc) in
       let snapshot := writeVarUint messageAwareness
                       ++ writeVarUint8Array
                            (encodeAwarenessUpdate (awareness_of w' doc) participants) in
       sent_of w' ws = if decide (participants = []) then [step1] else [step1; snapshot].
Proof.
  intros Hwf Hnew.
  destruct (connection_result ws url w Hwf Hnew)
    as (w' & doc & w1 & _ & Es & Ed & Ec & Ey & Ea & Esent & _).
  exists w', doc. split; [done|]. split; [done|]. split.
  - unfold registered. rewrite Ec, conns_get_set, decide_True by done. eauto.
  - cbn zeta. by rewrite Ey, Ea.
Qed.

(** C4 — One room per name.  In every reachable state: two room objects
    that have connections have different names; every registered name
    leads to a room of that name that has a connection, and every room
    with a connection is the one registered under its name, so no room
    without connections is registered.  [closeConn] that takes the last
    connection out of a room destroys the room and drops its name from
    the registry before it returns.  A new connection to a registered name
    joins that room, whose document, presence table and other connections
    are as they were; a new connection to a name that is not registered
    gets a new room object with a new document and presence table and no
    other connection. *)
Theorem one_room_per_name w :
  reachable w ->
  (forall d1 d2, conns_of w d1 ≠ [] -> conns_of w d2 ≠ [] ->
     name_of w d1 = name_of w d2 -> d1 = d2)
  /\ (forall n d, docs w !! n = Some d -> name_of w d = n /\ conns_of w d ≠ [])
  /\ (forall d, conns_of w d ≠ [] -> docs w !! name_of w d = Some d)
  /\ (forall doc c w', registered w doc c -> closeConn doc c w = Some w' ->
        conns_of w' doc = [] ->
        docs w' !! name_of w doc = None /\ observed_of w' doc = false)
  /\ (forall ws url, socks w !! ws = None ->
        exists w' doc, step w (Connection ws url) = Some w'
          /\ docs w' !! docNameOf url = Some doc
          /\ registered w' doc ws
          /\ match docs w !! docNameOf url with
             | Some d =>
                 doc = d
                 /\ ydoc_of w' d = ydoc_of w d
                 /\ awareness_of w' d = awareness_of w d
                 /\ forall c, c ≠ ws ->
                      conns_get c (conns_of w' d) = conns_get c (conns_of w d)
             | None =>
                 heap w !! doc = None
                 /\ ydoc_of w' doc = Y_Doc
                 /\ awareness_of w' doc = new_Awareness
                 /\ conns_of w' doc = [(ws, [])]
             end).
Proof.
  intros Hr. pose proof (reachable_wf w Hr) as Hwf.
  split; [|split; [|split; [|split]]].
  - intros d1 d2 H1 H2 En.
    pose proof (wf_live _ Hwf d1 H1) as L1. pose proof (wf_live _ Hwf d2 H2) as L2.
    rewrite En in L1. congruence.
  - intros n d Hd. by destruct (wf_registry _ Hwf n d Hd) as (? & ? & _).
  - apply (wf_live _ Hwf).
  - intros doc c w' Hreg E Hnil.
    by destruct (closeConn_cleanup _ _ _ _ E) as (_ & H2 & _); apply H2.
  - intros ws url Hnew.
    destruct (connection_result ws url w Hwf Hnew)
      as (w' & doc & w1 & Eg & Es & Ed & Ec & Ey & Ea & _ & _).
    exists w', doc. split; [done|]. split; [done|]. split.
    { unfold registered. rewrite Ec, conns_get_set, decide_True by done. eauto. }
    pose proof (getYDoc_cases (docNameOf url)
                  (set_socks (insert ws (mkWebSocket OPEN [] false 0)) w)) as Hc.
    change (docs (set_socks (insert ws (mkWebSocket OPEN [] false 0)) w)) with (docs w) in Hc.
    change (heap (set_socks (insert ws (mkWebSocket OPEN [] false 0)) w)) with (heap w) in Hc.
    destruct (docs w !! docNameOf url) as [d|] eqn:Edn.
    + rewrite Eg in Hc. injection Hc as -> ->.
      split; [done|]. split; [by rewrite Ey|]. split; [by rewrite Ea|].
      intros c Hne. rewrite Ec, conns_get_set. by rewrite decide_False.
    + destruct Hc as [Hc Hfresh]. rewrite Eg in Hc. injection Hc as -> ->.
      split; [done|].
      split. { rewrite Ey. unfold ydoc_of, set_docs, set_heap. cbn [heap].
               by rewrite lookup_insert_eq. }
      split. { rewrite Ea. unfold awareness_of, set_docs, set_heap. cbn [heap].
               by rewrite lookup_insert_eq. }
      rewrite Ec. unfold conns_of, set_docs, set_heap. cbn [heap].
      by rewrite lookup_insert_eq.
Qed.

End Guarantees.

(** ** A presence frame, for every engine *)

Section PresenceFrame.
Context {Y : YEngine}.
Implicit Types (w : World Y) (doc d : docref) (c ws : conn).

Lemma delivered_quiet (F : bytes) w1 w2 w3 c :
  delivered F w1 w2 c -> quiet w2 w3 c -> delivered F w1 w3 c.
Proof.
  intros (pre & post & E1 & Hpre & Hpost) (e2 & E2 & H2).
  exists pre, (post ++ e2). split; [|split; [done|by apply Forall_app]].
  rewrite E2, E1, <- !app_assoc. done.
Qed.

Lemma delivered_presence_quiet (F : bytes) w1 w2 c :
  presenceFrame F -> delivered F w1 w2 c -> quiet w1 w2 c.
Proof.
  intros HF (pre & post & E1 & Hpre & Hpost). exists (pre ++ F :: post).
  split; [done|]. apply Forall_app. split; [done|]. by apply Forall_cons.
Qed.

(** A presence frame of a healthy, registered connection [ws], merged
    with a change: the state after the callback.  [ids'] is the set of
    ids [ws] controls afterwards. *)
Lemma presence_frame_result doc ws (message decoder awarenessUpdate rest : bytes) a ch ids w :
  wf w ->
  handlers w !! ws = Some doc ->
  readVarUint message = Some (messageAwareness, decoder) ->
  readVarUint8Array decoder = Some (awarenessUpdate, rest) ->
  applyAwarenessUpdate (awareness_of w doc) awarenessUpdate = (a, Some ch) ->
  added ch ++ updated ch ++ removed ch ≠ [] ->
  observed_of w doc = true ->
  conns_get ws (conns_of w doc) = Some ids -> healthy w ws ->
  let echo := writeVarUint messageAwareness
              ++ writeVarUint8Array
                   (encodeAwarenessUpdate a (added ch ++ updated ch ++ removed ch)) in
  let raw := writeVarUint messageAwareness ++ writeVarUint8Array awarenessUpdate in
  let ids' := foldl (fun s i => set_delete i s)
                (foldl (fun s i => set_add i s) ids (added ch)) (removed ch) in
  exists w', step w (Message ws message) = Some w'
    /\ delivered echo w w' ws
    /\ (forall c, c ≠ ws -> registered w doc c -> healthy w c ->
          exists pre mid post,
            sent_of w' c = sent_of w c ++ pre ++ echo :: mid ++ raw :: post
            /\ Forall presenceFrame pre /\ Forall presenceFrame mid
            /\ Forall presenceFrame post)
    /\ healthy w' ws
    /\ conns_get ws (conns_of w' doc) = Some ids'.
Proof.
  intros Hwf Hh E0 E1 Ea Hch Hobs Eids Hhl echo raw ids'.
  assert (Hreg : registered w doc ws) by (unfold registered; rewrite Eids; eauto).
  destruct (registered_alive _ _ _ Hreg) as [room Er].
  set (w1 := set_awareness doc a w).
  set (w1' := set_conns doc (conns_set ws ids' (conns_of w1 doc)) w1).
  assert (Ec1 : conns_of w1 doc = conns_of w doc) by apply conns_of_set_awareness.
  assert (Hwf1 : wf w1) by (by apply wf_set_awareness).
  assert (Hreg1 : registered w1 doc ws) by (unfold registered; rewrite Ec1, Eids; eauto).
  assert (Hwf1' : wf w1') by (by apply wf_set_controlled).
  assert (Ec1' : conns_of w1' doc = conns_set ws ids' (conns_of w doc)).
  { subst w1'. rewrite conns_of_set_conns, Ec1; [done|].
    subst w1. unfold set_awareness, set_heap. cbn [heap].
    by rewrite lookup_alter_is_Some, Er. }
  assert (Ea1' : awareness_of w1' doc = a).
  { subst w1' w1. unfold awareness_of, set_conns, set_awareness, set_heap. cbn [heap].
    by rewrite !lookup_alter_eq, Er. }
  assert (Hregs : forall c, registered w doc c -> registered w1' doc c).
  { intros c [x Hx]. unfold registered. rewrite Ec1', conns_get_set.
    case_decide; [eauto|]. rewrite Hx. eauto. }
  (* the listener *)
  destruct (forEach_deliver doc echo (fun _ => true) (fun c => send doc c echo)
              (conns_keys (conns_of w1' doc)) w1')
    as (w2 & E2 & _ & Hdel2 & _ & _); [done|apply (wf_keys _ Hwf1')|].
  assert (Hwf2 : wf w2).
  { eapply forEach_wf; [|exact Hwf1'|exact E2]. intros c x x' Hx. by apply send_wf. }
  (* the forward *)
  destruct (forEach_deliver doc raw (fun c => bool_decide (c ≠ ws))
              (fun c w' => if bool_decide (c ≠ ws) then send doc c raw w' else Some w')
              (conns_keys (conns_of w2 doc)) w2)
    as (w3 & E3 & Heff3 & Hdel3 & Hquiet3 & _); [done|apply (wf_keys _ Hwf2)|].
  exists w3. split.
  { cbn [step]. rewrite Hh. unfold onMessage, onMessage_try. rewrite E0.
    cbn [N.eqb messageSync messageAwareness Pos.eqb]. rewrite E1, Ea. fold w1.
    replace (observed_of w1 doc) with (observed_of w doc) by (subst w1; solve_heap_read).
    rewrite Hobs, bool_decide_eq_false_2 by done. cbn [andb negb].
    assert (Eh : awarenessChangeHandler doc ch (Some ws) w1 = Some w2).
    { unfold awarenessChangeHandler, awarenessChangeHandler_with.
      cbn [mbind option_bind]. rewrite Ec1, Eids. cbn [fmap option_fmap option_map].
      fold ids'. rewrite <- Ec1. fold w1'. rewrite Ea1'. exact E2. }
    rewrite Eh. cbn [mbind option_bind]. exact E3. }
  assert (Hhl1' : forall c, healthy w c -> healthy w1' c) by done.
  destruct (Hdel2 ws) as (Hd & Hh2 & Eg2);
    [by apply Hhl1'|by apply Hregs|by apply conns_get_keys, Hregs|done|].
  destruct (confined_keeps doc (fun _ => False)
              (fun c m => bool_decide (c ≠ ws) = true /\ m = raw) w2 w3 ws)
    as [Hh3 Eg3]; [by apply effects_confined|done|by intros ?|].
  split; [|split; [|split]].
  - eapply delivered_quiet; [exact Hd|].
    apply Hquiet3. right. apply bool_decide_eq_false_2. by intros ?.
  - intros c Hne Hr Hc.
    destruct (Hdel2 c) as (Hdc & Hh2c & Eg2c);
      [by apply Hhl1'|by apply Hregs|by apply conns_get_keys, Hregs|done|].
    assert (Hr2 : registered w2 doc c).
    { unfold registered. rewrite Eg2c. by apply Hregs. }
    destruct (Hdel3 c) as (Hd3 & _ & _);
      [done|done|by apply conns_get_keys|by apply bool_decide_eq_true_2|].
    destruct Hdc as (pre2 & post2 & Es2 & Hpre2 & Hpost2).
    destruct Hd3 as (pre3 & post3 & Es3 & Hpre3 & Hpost3).
    exists pre2, (post2 ++ pre3), post3. split; [|split; [done|split; [|done]]].
    + rewrite Es3, Es2. change (sent_of w1' c) with (sent_of w c).
      rewrite <- !app_assoc. reflexivity.
    + by apply Forall_app.
  - exact Hh3.
  - rewrite Eg3, Eg2, Ec1', conns_get_set. by rewrite decide_True.
Qed.


End PresenceFrame.

(** ** The footprint of a callback *)

Section FootprintLemmas.
Context {Y : YEngine}.
Implicit Types (w : World Y) (doc d : docref) (c ws : conn).

Lemma registered_dec w doc c : {registered w doc c} + {~ registered w doc c}.
Proof.
  unfold registered. destruct (conns_get c (conns_of w doc)); [left; eauto|right].
  by intros [? ?].
Defined.

Lemma presenceFrame_relayFrame (m : bytes) : presenceFrame m -> relayFrame m.
Proof. intros [p ->]. exists messageAwareness, p. split; [done|]. right. by left. Qed.

Lemma registered_nil w doc :
  (forall c, ~ registered w doc c) -> conns_of w doc = [].
Proof.
  intros H. destruct (conns_of w doc) as [|[c ids] m] eqn:E; [done|].
  exfalso. apply (H c). unfold registered. rewrite E. cbn. rewrite decide_True by done.
  eauto.
Qed.

Lemma footprint_refl doc ws w : footprint doc ws w w.
Proof.
  split; try done; [by left|].
  intros c. exists []. rewrite app_nil_r. split; [done|]. split; [apply Forall_nil_2|done].
Qed.

Lemma footprint_trans doc ws w1 w2 w3 :
  footprint doc ws w1 w2 -> footprint doc ws w2 w3 -> footprint doc ws w1 w3.
Proof.
  intros H12 H23. split.
  - rewrite (fp_handlers _ _ _ _ H23). apply (fp_handlers _ _ _ _ H12).
  - intros d Hd. rewrite (fp_other _ _ _ _ H23 d Hd). by apply (fp_other _ _ _ _ H12).
  - rewrite (fp_name _ _ _ _ H23). apply (fp_name _ _ _ _ H12).
  - assert (Hnil : conns_of w2 doc = [] -> conns_of w3 doc = []).
    { intros E. apply registered_nil. intros c Hc.
      apply (fp_registered _ _ _ _ H23) in Hc. unfold registered in Hc.
      rewrite E in Hc. by destruct Hc. }
    destruct (fp_docs _ _ _ _ H12) as [E1|(N1 & E1 & D1)],
             (fp_docs _ _ _ _ H23) as [E2|(N2 & E2 & D2)].
    + left. congruence.
    + right. split; [|split; [done|]].
      * intros E. apply N2. apply registered_nil. intros c Hc.
        apply (fp_registered _ _ _ _ H12) in Hc. unfold registered in Hc.
        rewrite E in Hc. by destruct Hc.
      * by rewrite D2, (fp_name _ _ _ _ H12), E1.
    + right. split; [done|]. split; [by apply Hnil|congruence].
    + done.
  - intros c Hc. by apply (fp_registered _ _ _ _ H12), (fp_registered _ _ _ _ H23).
  - intros c Hne Hc. rewrite (fp_outside _ _ _ _ H23 c Hne).
    + by apply (fp_outside _ _ _ _ H12).
    + intros Hr. by apply Hc, (fp_registered _ _ _ _ H12).
  - intros c. rewrite (fp_socks _ _ _ _ H23 c). apply (fp_socks _ _ _ _ H12).
  - intros c Hc. by apply (fp_dead _ _ _ _ H23), (fp_dead _ _ _ _ H12).
  - intros c Hr Hn. destruct (registered_dec w2 doc c) as [Hr2|Hn2].
    + by apply (fp_closed _ _ _ _ H23).
    + by apply (fp_dead _ _ _ _ H23), (fp_closed _ _ _ _ H12).
  - intros c Hne Hh. destruct (fp_keeps _ _ _ _ H12 c Hne Hh) as [Hh2 E2].
    destruct (fp_keeps _ _ _ _ H23 c Hne Hh2) as [Hh3 E3]. split; [done|congruence].
  - intros c. destruct (fp_sent _ _ _ _ H12 c) as (e1 & E1 & F1 & O1).
    destruct (fp_sent _ _ _ _ H23 c) as (e2 & E2 & F2 & O2).
    exists (e1 ++ e2). split; [by rewrite E2, E1, app_assoc|].
    split; [by apply Forall_app|].
    intros Hne. destruct e1 as [|m e1]; [|by apply O1].
    destruct (decide (readyState_of w1 c = OPEN)) as [|Hd]; [done|].
    exfalso. apply (fp_dead _ _ _ _ H12 c Hd). apply O2. by intros ->.
Qed.

(** The single moves *)

Lemma footprint_room doc ws w w' :
  handlers w' = handlers w -> socks w' = socks w -> docs w' = docs w ->
  (forall d, d ≠ doc -> heap w' !! d = heap w !! d) ->
  name_of w' doc = name_of w doc ->
  (forall c, registered w' doc c <-> registered w doc c) ->
  (forall c, c ≠ ws -> conns_get c (conns_of w' doc) = conns_get c (conns_of w doc)) ->
  footprint doc ws w w'.
Proof.
  intros Hh Hs Hd Ho Hn Hr Hg.
  assert (Ers : forall c, readyState_of w' c = readyState_of w c)
    by (intros c; unfold readyState_of; by rewrite Hs).
  split; try done.
  - by left.
  - intros c. apply Hr.
  - intros c _ _. by rewrite Hs.
  - intros c. by rewrite Hs.
  - intros c. by rewrite Ers.
  - intros c H1 H2. exfalso. by apply H2, Hr.
  - intros c Hne Hc. split; [|by apply Hg].
    unfold healthy, readyState_of, sendThrows_of in *. by rewrite Hs.
  - intros c. exists []. rewrite app_nil_r. split; [unfold sent_of; by rewrite Hs|].
    split; [apply Forall_nil_2|done].
Qed.

Lemma footprint_awareness doc ws a w : footprint doc ws w (set_awareness doc a w).
Proof.
  apply footprint_room; try done.
  - intros d Hd. unfold set_awareness, set_heap. cbn [heap]. by rewrite lookup_alter_ne.
  - solve_heap_read.
  - intros c. unfold registered. by rewrite conns_of_set_awareness.
  - intros c _. by rewrite conns_of_set_awareness.
Qed.

Lemma footprint_ydoc doc ws y w : footprint doc ws w (set_ydoc doc y w).
Proof.
  apply footprint_room; try done.
  - intros d Hd. unfold set_ydoc, set_heap. cbn [heap]. by rewrite lookup_alter_ne.
  - solve_heap_read.
  - intros c. unfold registered. by rewrite conns_of_set_ydoc.
  - intros c _. by rewrite conns_of_set_ydoc.
Qed.

Lemma footprint_controlled doc ws ids w :
  registered w doc ws ->
  footprint doc ws w (set_conns doc (conns_set ws ids (conns_of w doc)) w).
Proof.
  intros Hr. pose proof (registered_alive _ _ _ Hr) as Hal.
  apply footprint_room; try done.
  - intros d Hd. unfold set_conns, set_heap. cbn [heap]. by rewrite lookup_alter_ne.
  - solve_heap_read.
  - intros c. unfold registered. rewrite conns_of_set_conns, conns_get_set by done.
    case_decide; [subst; split; [done|eauto]|done].
  - intros c Hne. by rewrite conns_of_set_conns, conns_get_set, decide_False.
Qed.

Lemma footprint_log doc ws w : footprint doc ws w (console_error w).
Proof. by apply footprint_room. Qed.

Lemma readyState_of_alter (f : WebSocket -> WebSocket) c c' w :
  readyState_of (set_socks (alter f c) w) c'
  = if decide (c' = c) then from_option (fun s => readyState (f s)) CLOSED (socks w !! c)
    else readyState_of w c'.
Proof.
  unfold readyState_of, set_socks. cbn [socks]. case_decide as E.
  - subst. rewrite lookup_alter_eq. by destruct (socks w !! c).
  - by rewrite lookup_alter_ne.
Qed.

Lemma sent_of_alter (f : WebSocket -> WebSocket) c c' w :
  (forall s, sent (f s) = sent s) ->
  sent_of (set_socks (alter f c) w) c' = sent_of w c'.
Proof.
  intros Hf. unfold sent_of, set_socks. cbn [socks].
  destruct (decide (c' = c)) as [->|E].
  - rewrite lookup_alter_eq. destruct (socks w !! c); cbn; [apply Hf|done].
  - by rewrite lookup_alter_ne.
Qed.

Lemma healthy_alter_ne (f : WebSocket -> WebSocket) c c' w :
  c' ≠ c -> healthy (set_socks (alter f c) w) c' <-> healthy w c'.
Proof.
  intros E. unfold healthy, readyState_of, sendThrows_of, set_socks. cbn [socks].
  by rewrite lookup_alter_ne.
Qed.

(** A frame written to a healthy connection of the room, or to [ws] *)
Lemma footprint_write doc ws c (m : bytes) w :
  registered w doc c \/ c = ws -> healthy w c -> relayFrame m ->
  footprint doc ws w (set_socks (alter (ws_send m) c) w).
Proof.
  intros Hc Hh Hm. split.
  - done.
  - done.
  - done.
  - by left.
  - done.
  - intros c' Hne Hn. unfold set_socks. cbn [socks]. rewrite lookup_alter_ne; [done|].
    intros ->. destruct Hc; [by apply Hn|done].
  - intros c'. unfold set_socks. cbn [socks]. apply lookup_alter_is_Some.
  - intros c' Hd. rewrite readyState_of_alter. case_decide; [subst|done].
    unfold readyState_of in Hd. by destruct (socks w !! c).
  - intros c' H1 H2. exfalso. apply H2. exact H1.
  - intros c' Hne [Hr Ht]. split; [|done].
    unfold healthy, readyState_of, sendThrows_of, set_socks in *. cbn [socks].
    destruct (decide (c' = c)) as [->|E].
    + rewrite lookup_alter_eq. by destruct (socks w !! c).
    + by rewrite lookup_alter_ne.
  - intros c'. rewrite sent_of_write. case_decide as E.
    + subst. destruct Hh as [Hr _]. unfold readyState_of in Hr.
      destruct (socks w !! c) eqn:Es; [|done].
      exists [m]. split; [done|]. split; [by apply Forall_singleton|].
      intros _. unfold readyState_of. by rewrite Es.
    + exists []. rewrite app_nil_r. split; [done|]. split; [apply Forall_nil_2|done].
Qed.

(** The socket of [ws] changes without a write and without reopening. *)
Lemma footprint_socket doc ws (f : WebSocket -> WebSocket) w :
  (forall s, sent (f s) = sent s) ->
  (forall s, readyState s ≠ OPEN -> readyState (f s) ≠ OPEN) ->
  footprint doc ws w (set_socks (alter f ws) w).
Proof.
  intros Hs Hr. split.
  - done.
  - done.
  - done.
  - by left.
  - done.
  - intros c Hne _. unfold set_socks. cbn [socks]. by rewrite lookup_alter_ne.
  - intros c. unfold set_socks. cbn [socks]. apply lookup_alter_is_Some.
  - intros c Hd. rewrite readyState_of_alter. case_decide; [subst|done].
    unfold readyState_of in Hd. destruct (socks w !! ws); cbn in *; [by apply Hr|done].
  - intros c H1 H2. exfalso. apply H2. exact H1.
  - intros c Hne Hh. split; [|done]. by apply healthy_alter_ne.
  - intros c. exists []. rewrite app_nil_r. split; [by apply sent_of_alter|].
    split; [apply Forall_nil_2|done].
Qed.

Lemma ws_close_not_open (s : WebSocket) : readyState (ws_close s) ≠ OPEN.
Proof. unfold ws_close. cbn. by destruct (readyState s). Qed.

Lemma name_of_reclaim doc d w : name_of (reclaim doc w) d = name_of w d.
Proof.
  unfold reclaim. case_bool_decide; [|done].
  destruct (decide (d = doc)) as [->|Hd]; solve_heap_read.
Qed.

Lemma heap_reclaim_other doc d w : d ≠ doc -> heap (reclaim doc w) !! d = heap w !! d.
Proof.
  intros Hd. unfold reclaim. case_bool_decide; [|done].
  unfold set_docs, destroy, set_heap. cbn [heap]. by rewrite lookup_alter_ne.
Qed.

Lemma handlers_reclaim doc w : handlers (reclaim doc w) = handlers w.
Proof. unfold reclaim. by case_bool_decide. Qed.

Lemma docs_reclaim doc w :
  (conns_of w doc ≠ [] /\ docs (reclaim doc w) = docs w)
  \/ (conns_of w doc = [] /\ docs (reclaim doc w) = delete (name_of w doc) (docs w)).
Proof.
  unfold reclaim. case_bool_decide as Hl.
  - right. split; [by apply length_zero_iff_nil|].
    unfold set_docs. cbn [docs]. change (docs (destroy doc w)) with (docs w).
    by replace (name_of (destroy doc w) doc) with (name_of w doc) by solve_heap_read.
  - left. split; [|done]. intros E. apply Hl. by rewrite E.
Qed.

(** [closeConn] for a registered connection, around what the presence
    listener did in between *)
Lemma footprint_close doc ws c ids w w3 :
  conns_get c (conns_of w doc) = Some ids ->
  ~ healthy w c \/ c = ws ->
  footprint doc ws (unlinked doc c ids w) w3 ->
  footprint doc ws w (set_socks (alter ws_close c) (reclaim doc w3)).
Proof.
  intros Eg Hwhy H.
  assert (Hreg : registered w doc c) by (unfold registered; rewrite Eg; eauto).
  set (w2 := unlinked doc c ids w) in *.
  assert (Ec2 : conns_of w2 doc = conns_delete c (conns_of w doc))
    by (by apply conns_of_unlinked).
  assert (Es2 : socks w2 = socks w) by done.
  assert (En2 : name_of w2 doc = name_of w doc) by (subst w2; unfold unlinked; solve_heap_read).
  assert (Hn3 : ~ registered w3 doc c).
  { intros Hr. apply (fp_registered _ _ _ _ H) in Hr. unfold registered in Hr.
    rewrite Ec2, conns_get_delete, decide_True in Hr by done. by destruct Hr. }
  assert (Ers2 : forall c', readyState_of w2 c' = readyState_of w c') by done.
  split.
  - change (handlers (reclaim doc w3) = handlers w).
    rewrite handlers_reclaim. apply (fp_handlers _ _ _ _ H).
  - intros d Hd. change (heap (reclaim doc w3) !! d = heap w !! d).
    rewrite heap_reclaim_other, (fp_other _ _ _ _ H) by done.
    subst w2. unfold unlinked, set_awareness, set_conns, set_heap. cbn [heap].
    by rewrite !lookup_alter_ne.
  - change (name_of (reclaim doc w3) doc = name_of w doc).
    by rewrite name_of_reclaim, (fp_name _ _ _ _ H).
  - assert (Hne : conns_of w doc ≠ []).
    { intros E0. rewrite E0 in Eg. done. }
    change (docs (set_socks (alter ws_close c) (reclaim doc w3)))
      with (docs (reclaim doc w3)).
    change (conns_of (set_socks (alter ws_close c) (reclaim doc w3)) doc)
      with (conns_of (reclaim doc w3) doc).
    rewrite conns_of_reclaim.
    destruct (docs_reclaim doc w3) as [[N3 E3]|[N3 E3]],
             (fp_docs _ _ _ _ H) as [E2|(N2 & E2 & D2)].
    + left. by rewrite E3, E2.
    + done.
    + right. split; [done|]. split; [done|].
      by rewrite E3, E2, (fp_name _ _ _ _ H), En2.
    + right. split; [done|]. split; [done|].
      rewrite E3, D2, (fp_name _ _ _ _ H), En2. apply delete_delete_eq.
  - intros c'. change (registered (reclaim doc w3) doc c' -> registered w doc c').
    unfold registered at 1. rewrite conns_of_reclaim. intros Hr.
    apply (fp_registered _ _ _ _ H) in Hr. unfold registered in *.
    rewrite Ec2, conns_get_delete in Hr. by case_decide.
  - intros c' Hne Hn. unfold set_socks. cbn [socks].
    assert (c' ≠ c) by (by intros ->).
    rewrite lookup_alter_ne, socks_reclaim by done.
    rewrite (fp_outside _ _ _ _ H) by
      (try done; unfold registered; rewrite Ec2, conns_get_delete, decide_False by done;
       exact Hn).
    done.
  - intros c'. unfold set_socks. cbn [socks].
    rewrite lookup_alter_is_Some, socks_reclaim, (fp_socks _ _ _ _ H). by rewrite Es2.
  - intros c' Hd. rewrite readyState_of_alter. case_decide.
    + subst. rewrite socks_reclaim. destruct (socks w3 !! c); cbn; [|done].
      apply ws_close_not_open.
    + unfold readyState_of. rewrite socks_reclaim.
      apply (fp_dead _ _ _ _ H). by rewrite Ers2.
  - intros c' Hr Hn. rewrite readyState_of_alter. case_decide.
    + subst. rewrite socks_reclaim. destruct (socks w3 !! c); cbn; [|done].
      apply ws_close_not_open.
    + unfold readyState_of. rewrite socks_reclaim.
      apply (fp_closed _ _ _ _ H).
      * unfold registered. by rewrite Ec2, conns_get_delete, decide_False.
      * intros Hr3. apply Hn. unfold registered.
        change (conns_of (set_socks (alter ws_close c) (reclaim doc w3)) doc)
          with (conns_of (reclaim doc w3) doc).
        by rewrite conns_of_reclaim.
  - intros c' Hne Hh.
    assert (c' ≠ c) by (intros ->; by destruct Hwhy).
    destruct (fp_keeps _ _ _ _ H c' Hne) as [Hh3 Eg3]; [done|].
    split.
    + apply healthy_alter_ne; [done|].
      unfold healthy, readyState_of, sendThrows_of in *. by rewrite socks_reclaim.
    + change (conns_of (set_socks (alter ws_close c) (reclaim doc w3)) doc)
        with (conns_of (reclaim doc w3) doc).
      by rewrite conns_of_reclaim, Eg3, Ec2, conns_get_delete, decide_False.
  - intros c'. rewrite sent_of_close, sent_of_reclaim.
    destruct (fp_sent _ _ _ _ H c') as (extra & E & F & O).
    exists extra. split; [done|]. split; [done|]. intros Hne. rewrite <- Ers2. by apply O.
Qed.

(** The cascade: [closeConn], the presence listener it fires, the sends of
    the listener, and the [closeConn] of every send that fails *)

Lemma closeConn_length doc c w w' :
  closeConn doc c w = Some w' ->
  (length (conns_of w' doc) <= length (conns_of w doc))%nat.
Proof.
  intros E.
  destruct (closeConn_effects doc (fun _ => True) (fun _ _ => False) c w)
    as (w'' & E' & Heff); [by right|].
  rewrite E in E'. injection E' as <-.
  eapply confined_length, effects_confined, Heff.
Qed.

Lemma forEach_footprint_bounded doc ws (n : nat)
    (f : conn -> World Y -> option (World Y)) keys :
  (forall c w w', registered w doc c -> (length (conns_of w doc) <= n)%nat ->
     f c w = Some w' ->
     footprint doc ws w w' /\ (length (conns_of w' doc) <= length (conns_of w doc))%nat) ->
  forall w w', (length (conns_of w doc) <= n)%nat ->
    forEach_conns f doc keys w = Some w' -> footprint doc ws w w'.
Proof.
  intros Hf. induction keys as [|c keys IH]; intros w w' Hn E; cbn [forEach_conns] in E.
  - injection E as <-. apply footprint_refl.
  - destruct (conns_has c (conns_of w doc)) eqn:Hc; [|by apply IH].
    apply conns_has_registered in Hc.
    destruct (f c w) as [w1|] eqn:E1; [|done]. cbn in E.
    destruct (Hf c w w1 Hc Hn E1) as [H1 Hl].
    eapply footprint_trans; [exact H1|]. apply IH; [lia|done].
Qed.

Lemma closeConn_footprint_bounded doc ws (n : nat) : forall c w w',
  (length (conns_of w doc) <= n)%nat -> registered w doc c ->
  ~ healthy w c \/ c = ws ->
  closeConn doc c w = Some w' -> footprint doc ws w w'.
Proof.
  induction n as [|n IH]; intros c w w' Hn [ids Eg] Hwhy E.
  { destruct (conns_of w doc); [done|cbn in Hn; lia]. }
  destruct (closeConn_registered doc c w w' ids Eg E) as (w3 & _ & Hsame & Hfire & ->).
  apply (footprint_close doc ws c ids w w3 Eg Hwhy).
  set (r := removeAwarenessStates (awareness_of w doc) ids) in *.
  change (set_awareness doc r.1 (set_conns doc (conns_delete c (conns_of w doc)) w))
    with (unlinked doc c ids w) in *.
  set (w2 := unlinked doc c ids w) in *.
  destruct (observed_of w doc) eqn:Eo; [|rewrite Hsame by (by left); apply footprint_refl].
  destruct (decide (r.2 = [])) as [Eg0|Hg];
    [rewrite Hsame by (by right); apply footprint_refl|].
  specialize (Hfire eq_refl Hg). rewrite awarenessChangeHandler_removed in Hfire.
  assert (Hl2 : (length (conns_of w2 doc) <= n)%nat).
  { subst w2. rewrite conns_of_unlinked by (unfold registered; rewrite Eg; eauto).
    pose proof (conns_delete_length c (conns_of w doc) ids Eg). lia. }
  eapply (forEach_footprint_bounded doc ws n); [|exact Hl2|exact Hfire].
  intros c0 w0 w0' Hr0 Hl0 E0. cbn beta in E0.
  destruct (healthy_dec w0 c0) as [Hh|Hh].
  - rewrite send_healthy in E0 by done. injection E0 as <-. split; [|done].
    apply footprint_write; [by left|done|].
    apply presenceFrame_relayFrame, presenceFrame_buff.
  - rewrite send_unhealthy in E0 by done. split; [|by eapply closeConn_length].
    eapply IH; [exact Hl0|exact Hr0|by left|exact E0].
Qed.

Lemma closeConn_footprint doc ws c w w' :
  registered w doc c -> ~ healthy w c \/ c = ws ->
  closeConn doc c w = Some w' -> footprint doc ws w w'.
Proof. intros. by eapply (closeConn_footprint_bounded doc ws _ c w w' (le_n _)). Qed.

(** [closeConn] for the connection of the callback, registered or not *)
Lemma closeConn_ws_footprint doc ws w w' :
  closeConn doc ws w = Some w' -> footprint doc ws w w'.
Proof.
  intros E. destruct (registered_dec w doc ws) as [Hr|Hn].
  - by eapply closeConn_footprint; [|right|].
  - rewrite closeConn_unregistered in E.
    + injection E as <-. apply footprint_socket; [done|].
      intros s _. apply ws_close_not_open.
    + unfold registered in Hn. destruct (conns_get ws (conns_of w doc)); [|done].
      exfalso. apply Hn. eauto.
Qed.

Lemma send_footprint doc ws c (m : bytes) w w' :
  registered w doc c \/ c = ws -> relayFrame m ->
  send doc c m w = Some w' -> footprint doc ws w w'.
Proof.
  intros Hc Hm E. destruct (healthy_dec w c) as [Hh|Hh].
  - rewrite send_healthy in E by done. injection E as <-. by apply footprint_write.
  - rewrite send_unhealthy in E by done.
    destruct (registered_dec w doc c) as [Hr|Hn].
    + by eapply closeConn_footprint; [|left|].
    + destruct Hc as [? | ->]; [done|]. by apply closeConn_ws_footprint.
Qed.

Lemma forEach_footprint doc ws (f : conn -> World Y -> option (World Y)) keys w w' :
  (forall c w w', registered w doc c -> f c w = Some w' -> footprint doc ws w w') ->
  forEach_conns f doc keys w = Some w' -> footprint doc ws w w'.
Proof.
  intros Hf. revert w. induction keys as [|c keys IH]; intros w E; cbn [forEach_conns] in E.
  - injection E as <-. apply footprint_refl.
  - destruct (conns_has c (conns_of w doc)) eqn:Hc; [|by apply IH].
    apply conns_has_registered in Hc.
    destruct (f c w) as [w1|] eqn:E1; [|done]. cbn in E.
    eapply footprint_trans; [by eapply Hf|by apply IH].
Qed.

(** The two listeners of a room *)

Lemma awarenessChangeHandler_footprint doc ws ch origin w w' :
  origin = Some ws \/ origin = None ->
  awarenessChangeHandler doc ch origin w = Some w' -> footprint doc ws w w'.
Proof.
  intros Ho. unfold awarenessChangeHandler, awarenessChangeHandler_with.
  set (w1 := match _ with Some (o, ids) => _ | None => w end).
  assert (H1 : footprint doc ws w w1).
  { subst w1. destruct Ho as [-> | ->]; cbn [mbind option_bind]; [|apply footprint_refl].
    destruct (conns_get ws (conns_of w doc)) as [ids|] eqn:Eg;
      cbn [fmap option_fmap option_map]; [|apply footprint_refl].
    apply footprint_controlled. unfold registered. rewrite Eg. eauto. }
  intros E. eapply footprint_trans; [exact H1|].
  eapply forEach_footprint; [|exact E].
  intros c w0 w0' Hr E0. cbn beta in E0. eapply send_footprint; [by left| |exact E0].
  apply presenceFrame_relayFrame, presenceFrame_buff.
Qed.

Lemma syncFrame_relayFrame (p : bytes) : relayFrame (writeVarUint messageSync ++ p).
Proof. exists messageSync, p. split; [done|by left]. Qed.

Lemma docUpdateHandler_footprint doc ws u origin w w' :
  docUpdateHandler doc u origin w = Some w' -> footprint doc ws w w'.
Proof.
  unfold docUpdateHandler. intros E. eapply forEach_footprint; [|exact E].
  intros c w0 w0' Hr E0. cbn beta in E0. case_bool_decide.
  - eapply send_footprint; [by left| |exact E0]. apply syncFrame_relayFrame.
  - injection E0 as <-. apply footprint_refl.
Qed.

(** The message listener *)
Lemma onMessage_footprint doc ws message w w' :
  onMessage doc ws message w = Some w' -> footprint doc ws w w'.
Proof.
  unfold onMessage, onMessage_try.
  destruct (readVarUint message) as [[messageType decoder]|];
    [|intros [= <-]; apply footprint_log].
  destruct (messageType =? messageSync).
  { unfold readSyncMessage.
    destruct (readVarUint decoder) as [[t d1]|]; [|intros [= <-]; apply footprint_log].
    destruct (t =? messageYjsSyncStep1).
    { destruct (readVarUint8Array d1) as [[sv rest]|]; [|intros [= <-]; apply footprint_log].
      destruct (Y_encodeStateAsUpdate (ydoc_of w doc) sv) as [u|];
        [|intros [= <-]; apply footprint_log].
      cbn [mbind option_bind]. case_bool_decide.
      - intros E. eapply send_footprint; [by right| |exact E].
        apply syncFrame_relayFrame.
      - intros [= <-]. apply footprint_refl. }
    destruct ((t =? messageYjsSyncStep2) || (t =? messageYjsUpdate));
      [|intros [= <-]; apply footprint_log].
    destruct (readVarUint8Array d1) as [[update rest]|]; [|intros [= <-]; apply footprint_log].
    destruct (Y_applyUpdate (ydoc_of w doc) update) as [[y emitted]|];
      [|intros [= <-]; apply footprint_log].
    set (w1 := set_ydoc doc y w).
    assert (H1 : footprint doc ws w w1) by apply footprint_ydoc.
    set (r := match emitted with Some u => _ | None => Some w1 end).
    assert (H2 : forall w2, r = Some w2 -> footprint doc ws w w2).
    { subst r. intros w2 E2. eapply footprint_trans; [exact H1|].
      destruct emitted as [u|]; [|injection E2 as <-; apply footprint_refl].
      destruct (observed_of w1 doc); [|injection E2 as <-; apply footprint_refl].
      by eapply docUpdateHandler_footprint. }
    destruct r as [w2|]; [|done]. cbn [mbind option_bind]. case_bool_decide.
    - intros E. eapply footprint_trans; [by apply H2|].
      eapply send_footprint; [by right| |exact E]. apply syncFrame_relayFrame.
    - intros [= <-]. by apply H2. }
  destruct (messageType =? messageAwareness).
  { destruct (readVarUint8Array decoder) as [[awarenessUpdate rest]|];
      [|intros [= <-]; apply footprint_log].
    destruct (applyAwarenessUpdate (awareness_of w doc) awarenessUpdate) as [a outcome].
    set (w1 := set_awareness doc a w).
    assert (H1 : footprint doc ws w w1) by apply footprint_awareness.
    destruct outcome as [ch|];
      [|intros [= <-]; eapply footprint_trans; [exact H1|apply footprint_log]].
    match goal with |- (?x ≫= _) = _ -> _ => set (r := x) end.
    assert (H2 : forall w2, r = Some w2 -> footprint doc ws w w2).
    { subst r. intros w2 E2. eapply footprint_trans; [exact H1|].
      destruct (_ && _); [|injection E2 as <-; apply footprint_refl].
      eapply awarenessChangeHandler_footprint; [by left|exact E2]. }
    destruct r as [w2|]; [|done]. cbn [mbind option_bind]. intros E.
    eapply footprint_trans; [by apply H2|].
    eapply forEach_footprint; [|exact E].
    intros c w0 w0' Hr E0. cbn beta in E0. case_bool_decide.
    - eapply send_footprint; [by left| |exact E0].
      apply presenceFrame_relayFrame, presenceFrame_buff.
    - injection E0 as <-. apply footprint_refl. }
  destruct (messageType =? messageStats).
  { intros E. eapply send_footprint; [by right| |exact E].
    exists messageStats, (writeVarUint (N.of_nat (length (conns_of w doc)))).
    split; [done|]. right. by right. }
  intros [= <-]. apply footprint_refl.
Qed.

(** Every callback but a new connection *)
Lemma step_footprint doc e w w' :
  isConnection e = false -> handlers w !! connOf e = Some doc ->
  step w e = Some w' -> footprint doc (connOf e) w w'.
Proof.
  destruct e as [ws url|ws message|ws|ws|ws|ws]; cbn [isConnection connOf step];
    intros Hk Hh; [done| | | | |]; rewrite ?Hh.
  - apply onMessage_footprint.
  - intros E. eapply footprint_trans; [|by apply closeConn_ws_footprint].
    by apply footprint_socket.
  - apply closeConn_ws_footprint.
  - intros [= <-]. apply footprint_socket; [done|]. intros s. cbn. by destruct (readyState s).
  - intros [= <-]. by apply footprint_socket.
Qed.

End FootprintLemmas.

(** ** Connections, listeners and sockets *)

Section Linked.
Context {Y : YEngine}.
Implicit Types (w : World Y) (doc d : docref) (c ws : conn).

(** What a new connection changes *)
Lemma connection_facts ws url w :
  wf w -> socks w !! ws = None ->
  exists w' doc,
    step w (Connection ws url) = Some w'
    /\ docs w' !! docNameOf url = Some doc
    /\ (forall n, n ≠ docNameOf url -> docs w' !! n = docs w !! n)
    /\ ((docs w !! docNameOf url = None /\ heap w !! doc = None)
        \/ docs w !! docNameOf url = Some doc)
    /\ handlers w' = <[ws := doc]> (handlers w)
    /\ (forall c, c ≠ ws -> socks w' !! c = socks w !! c)
    /\ healthy w' ws
    /\ (forall d, d ≠ doc -> heap w' !! d = heap w !! d)
    /\ conns_of w' doc = conns_set ws [] (conns_of w doc).
Proof.
  intros Hwf Hnew.
  set (w0 := set_socks (insert ws (mkWebSocket OPEN [] false 0)) w).
  assert (Hwf0 : wf w0) by (by apply wf_set_socks).
  assert (Hh0 : healthy w0 ws).
  { unfold healthy, readyState_of, sendThrows_of. subst w0. cbn [socks set_socks].
    by rewrite lookup_insert_eq. }
  destruct (getYDoc (docNameOf url) w0) as [doc w1] eqn:Eg.
  pose proof (setupConnection_healthy ws _ w0 doc w1 Hwf0 Hh0 Eg) as Hs. cbn zeta in Hs.
  destruct (getYDoc_alive _ _ _ _ Hwf0 Eg) as ([room Er] & Ed & Es & Eh & _ & Hoth).
  assert (Hdocs : (forall n, n ≠ docNameOf url -> docs w1 !! n = docs w !! n)
                  /\ ((docs w !! docNameOf url = None /\ heap w !! doc = None)
                      \/ docs w !! docNameOf url = Some doc)
                  /\ conns_of w1 doc = conns_of w doc).
  { pose proof (getYDoc_cases (docNameOf url) w0) as Hc.
    change (docs w0) with (docs w) in Hc. change (heap w0) with (heap w) in Hc.
    destruct (docs w !! docNameOf url) as [d0|] eqn:E0.
    - rewrite Eg in Hc. injection Hc as -> ->. split; [done|]. split; [by right|done].
    - destruct Hc as [Hc Hfresh]. rewrite Eg in Hc. injection Hc as -> ->.
      split; [|split; [by left|]].
      + intros n Hn. unfold set_docs. cbn [docs]. by rewrite lookup_insert_ne.
      + unfold conns_of, set_docs, set_heap. cbn [heap].
        by rewrite lookup_insert_eq, Hfresh. }
  destruct Hdocs as (Hdn & Hdd & Ec1).
  set (w3 := set_handlers (insert ws doc)
               (set_conns doc (conns_set ws [] (conns_of w1 doc)) w1)) in *.
  assert (Hg : exists g : gmap conn WebSocket -> gmap conn WebSocket,
             setupConnection ws (docNameOf url) w0 = Some (set_socks g w3)
             /\ (forall m c, c ≠ ws -> g m !! c = m !! c)
             /\ (forall m s, m !! ws = Some s ->
                   exists s', g m !! ws = Some s' /\ readyState s' = readyState s
                              /\ sendThrows s' = sendThrows s)).
  { rewrite Hs. case_decide.
    - eexists. split; [reflexivity|]. split.
      + intros m c Hc. by rewrite lookup_alter_ne.
      + intros m s Em. rewrite lookup_alter_eq, Em. cbn. eauto.
    - eexists (fun m => alter _ ws (alter _ ws m)). split; [reflexivity|]. split.
      + intros m c Hc. by rewrite !lookup_alter_ne.
      + intros m s Em. rewrite !lookup_alter_eq, Em. cbn. eauto. }
  destruct Hg as (g & Eg' & Hgo & Hgw).
  exists (set_socks g w3), doc. split; [cbn [step]; by rewrite Hnew|].
  split; [exact Ed|]. split; [exact Hdn|]. split; [exact Hdd|].
  split; [subst w3; cbn; by rewrite Eh|].
  split.
  { intros c Hc. cbn [socks set_socks]. rewrite Hgo by done.
    change (socks w3) with (socks w1). rewrite Es. subst w0. cbn [socks set_socks].
    by rewrite lookup_insert_ne. }
  split.
  { destruct (Hgw (socks w3) (mkWebSocket OPEN [] false 0)) as (s' & E' & Hr & Ht).
    { change (socks w3) with (socks w1). rewrite Es. subst w0. cbn [socks set_socks].
      by rewrite lookup_insert_eq. }
    unfold healthy, readyState_of, sendThrows_of. cbn [socks set_socks].
    rewrite E'. cbn. by rewrite Hr, Ht. }
  split.
  { intros d Hd. subst w3. unfold set_handlers, set_conns, set_heap. cbn [heap set_socks].
    rewrite lookup_alter_ne by done. by apply Hoth. }
  change (conns_of (set_conns doc (conns_set ws [] (conns_of w1 doc)) w1) doc
          = conns_set ws [] (conns_of w doc)).
  rewrite conns_of_set_conns by eauto. by rewrite Ec1.
Qed.

Lemma linked_init : linked (init (Y := Y)).
Proof.
  split.
  - intros d c [x Hx]. unfold conns_of in Hx.
    change (heap init) with (∅ : gmap docref (WSSharedDoc Y)) in Hx.
    by rewrite lookup_empty in Hx.
  - intros c [x Hx]. change (handlers init) with (∅ : gmap conn docref) in Hx.
    by rewrite lookup_empty in Hx.
  - intros c d Hx. change (handlers init) with (∅ : gmap conn docref) in Hx.
    by rewrite lookup_empty in Hx.
Qed.

Lemma registered_other doc d c w w' :
  heap w' !! d = heap w !! d -> registered w' d c <-> registered w d c.
Proof. intros E. unfold registered, conns_of. by rewrite E. Qed.

Lemma footprint_linked doc ws w w' :
  footprint doc ws w w' -> linked w -> linked w'.
Proof.
  intros H [Lr Ls Lo]. split.
  - intros d c Hr. rewrite (fp_handlers _ _ _ _ H). apply Lr.
    destruct (decide (d = doc)) as [->|Hd].
    + by apply (fp_registered _ _ _ _ H).
    + by apply (registered_other doc d c w w' (fp_other _ _ _ _ H d Hd)).
  - intros c Hc. rewrite (fp_handlers _ _ _ _ H) in Hc.
    by apply (fp_socks _ _ _ _ H), Ls.
  - intros c d Hc Ho. rewrite (fp_handlers _ _ _ _ H) in Hc.
    assert (Ho' : readyState_of w c = OPEN).
    { destruct (decide (readyState_of w c = OPEN)) as [|Hn]; [done|].
      by destruct (fp_dead _ _ _ _ H c Hn). }
    pose proof (Lo c d Hc Ho') as Hr.
    destruct (decide (d = doc)) as [->|Hd].
    + destruct (registered_dec w' doc c) as [|Hn]; [done|].
      by destruct (fp_closed _ _ _ _ H c Hr Hn).
    + by apply (registered_other doc d c w w' (fp_other _ _ _ _ H d Hd)).
Qed.

Lemma linked_socket (f : WebSocket -> WebSocket) ws w :
  (forall s, readyState s ≠ OPEN -> readyState (f s) ≠ OPEN) ->
  linked w -> linked (set_socks (alter f ws) w).
Proof.
  intros Hf [Lr Ls Lo]. split.
  - exact Lr.
  - intros c Hc. cbn [socks set_socks]. apply lookup_alter_is_Some. by apply Ls.
  - intros c d Hc Ho. apply (Lo c d Hc).
    rewrite readyState_of_alter in Ho. case_decide; [subst|done].
    unfold readyState_of. destruct (socks w !! ws) as [s|]; cbn in *; [|done].
    destruct (decide (readyState s = OPEN)) as [|Hn]; [done|]. by destruct (Hf s Hn).
Qed.

Lemma step_linked w e w' : wf w -> linked w -> step w e = Some w' -> linked w'.
Proof.
  intros Hwf L E.
  destruct (isConnection e) eqn:Ek.
  - destruct e as [ws url| | | | |]; try done. cbn [step] in E.
    destruct (socks w !! ws) eqn:Es; [by injection E as <-|].
    assert (E' : step w (Connection ws url) = Some w') by (cbn [step]; by rewrite Es).
    clear E.
    destruct (connection_facts ws url w Hwf Es)
      as (w'' & doc & E & _ & _ & _ & Eh & Hso & Hhl & Hho & Ec).
    rewrite E' in E. injection E as <-.
    destruct L as [Lr Ls Lo].
    assert (Hnh : handlers w !! ws = None).
    { destruct (handlers w !! ws) eqn:Ehw; [|done].
      destruct (Ls ws) as [? ?]; [eauto|congruence]. }
    assert (Hreg : forall d c, registered w' d c <->
                     (d = doc /\ c = ws) \/ registered w d c).
    { intros d c. destruct (decide (d = doc)) as [->|Hd].
      - unfold registered. rewrite Ec, conns_get_set. case_decide.
        + subst. split; [by left|eauto].
        + split; [by right|]. by intros [[_ ?]|?].
      - rewrite (registered_other doc d c w w' (Hho d Hd)).
        split; [by right|]. by intros [[? _]|?]. }
    split.
    + intros d c Hr. rewrite Eh. apply Hreg in Hr as [[-> ->]|Hr].
      * by rewrite lookup_insert_eq.
      * pose proof (Lr d c Hr) as Hc. rewrite lookup_insert_ne; [done|]. congruence.
    + intros c Hc. rewrite Eh in Hc. destruct (decide (c = ws)) as [->|Hne].
      * destruct Hhl as [Hr _]. unfold readyState_of in Hr.
        destruct (socks w' !! ws); [eauto|done].
      * rewrite lookup_insert_ne in Hc by done. rewrite Hso by done. by apply Ls.
    + intros c d Hc Ho. rewrite Eh in Hc. apply Hreg.
      destruct (decide (c = ws)) as [->|Hne].
      * rewrite lookup_insert_eq in Hc. injection Hc as <-. by left.
      * rewrite lookup_insert_ne in Hc by done. right. apply (Lo c d Hc).
        unfold readyState_of in *. by rewrite <- Hso.
  - destruct (handlers w !! connOf e) as [doc|] eqn:Eh.
    + eapply footprint_linked; [|exact L]. by eapply step_footprint.
    + destruct e as [ws url|ws message|ws|ws|ws|ws]; try done; cbn [step connOf] in *;
        rewrite ?Eh in E; injection E as <-; try done.
      * apply linked_socket; [|done]. intros s. cbn. by destruct (readyState s).
      * by apply linked_socket.
Qed.

Lemma reachable_linked w : reachable w -> linked w.
Proof.
  intros [es E].
  assert (G : forall es w0 w1, wf w0 -> linked w0 -> run w0 es = Some w1 -> linked w1).
  { clear. induction es as [|e es IH]; intros w0 w1 Hwf L E; cbn [run] in E.
    - by injection E as <-.
    - destruct (step w0 e) as [w|] eqn:Es; [|done]. cbn in E.
      eapply IH; [| |exact E]; [by eapply step_wf|by eapply step_linked]. }
  eapply G; [apply wf_init|apply linked_init|exact E].
Qed.

End Linked.

(** * Further properties of the relay

    The states are those the events of [Event] lead to; the expiry timer
    that the presence engine runs on its own is not one of them. *)

Section Further.
Context {Y : YEngine}.
Implicit Types (w : World Y) (doc d : docref) (c ws : conn).

(** What one callback appends to an outbox *)
Lemma step_outbox w e w' c :
  wf w -> step w e = Some w' ->
  exists extra, sent_of w' c = sent_of w c ++ extra
    /\ Forall relayFrame extra
    /\ (extra ≠ [] -> readyState_of w c = OPEN \/ socks w !! c = None).
Proof.
  intros Hwf E.
  assert (Hsame : socks w' !! c = socks w !! c ->
            exists extra, sent_of w' c = sent_of w c ++ extra
              /\ Forall relayFrame extra
              /\ (extra ≠ [] -> readyState_of w c = OPEN \/ socks w !! c = None)).
  { intros Es. exists []. rewrite app_nil_r. unfold sent_of. rewrite Es.
    split; [done|]. split; [apply Forall_nil_2|done]. }
  destruct (isConnection e) eqn:Ek.
  - destruct e as [ws url| | | | |]; try done. cbn [step] in E.
    destruct (socks w !! ws) eqn:Es; [injection E as <-; by apply Hsame|].
    assert (E' : step w (Connection ws url) = Some w') by (cbn [step]; by rewrite Es).
    clear E.
    destruct (connection_result ws url w Hwf Es)
      as (w'' & doc & w1 & _ & E & _ & _ & _ & _ & Hsent & Hoth).
    rewrite E' in E. injection E as <-.
    destruct (decide (c = ws)) as [->|Hne]; [|by apply Hsame, Hoth].
    eexists. split; [|split; [|by right]].
    + rewrite Hsent. unfold sent_of. rewrite Es. cbn. reflexivity.
    + cbn zeta. case_decide.
      * apply Forall_singleton, syncFrame_relayFrame.
      * apply Forall_cons. split; [apply syncFrame_relayFrame|].
        apply Forall_singleton, presenceFrame_relayFrame, presenceFrame_buff.
  - destruct (handlers w !! connOf e) as [doc|] eqn:Eh.
    + destruct (fp_sent _ _ _ _ (step_footprint doc e w w' Ek Eh E) c)
        as (extra & Ex & Hf & Ho).
      exists extra. split; [done|]. split; [done|]. intros Hne. left. by apply Ho.
    + destruct e as [ws url|ws message|ws|ws|ws|ws]; try done; cbn [step connOf] in *;
        rewrite ?Eh in E; injection E as <-; try (by apply Hsame).
      * exists []. rewrite app_nil_r. split; [by rewrite sent_of_alter|].
        split; [apply Forall_nil_2|done].
      * exists []. rewrite app_nil_r. split; [by rewrite sent_of_alter|].
        split; [apply Forall_nil_2|done].
Qed.

(** X1 — A connection belongs to one room.  In every reachable state a
    connection found in the connection map of a room is a socket the
    relay knows, its listeners are the ones [setupConnection] attached for
    that very room, and it is in the map of no other room. *)
Theorem connection_in_one_room w d d' c :
  reachable w -> registered w d c ->
  handlers w !! c = Some d /\ is_Some (socks w !! c) /\ (registered w d' c -> d' = d).
Proof.
  intros Hr Hc. destruct (reachable_linked w Hr) as [Lr Ls Lo].
  pose proof (Lr d c Hc) as Hh. split; [done|]. split; [apply Ls; eauto|].
  intros Hc'. pose proof (Lr d' c Hc'). congruence.
Qed.

(** X2 — A connection that was set up and whose transport is open is
    registered.  Read the other way: once [closeConn] has taken a
    connection out of its room, its transport is closing or closed in
    every later state; the listeners stay attached, the socket never
    reopens. *)
Theorem open_connection_registered w c d :
  reachable w -> handlers w !! c = Some d -> readyState_of w c = OPEN ->
  registered w d c.
Proof. intros Hr. apply (linked_open _ (reachable_linked w Hr)). Qed.

(** X3 — Nothing is written to a connection after it was dropped.  If a
    connection that was set up for a room is not in the room's connection
    map, no callback, for whatever connection and room, appends a frame to
    its outbox. *)
Theorem no_write_after_drop w c d e w' :
  reachable w -> handlers w !! c = Some d -> ~ registered w d c ->
  step w e = Some w' -> sent_of w' c = sent_of w c.
Proof.
  intros Hr Hh Hn E. pose proof (reachable_linked w Hr) as L.
  destruct (step_outbox w e w' c (reachable_wf w Hr) E) as (extra & Ex & _ & Ho).
  destruct extra as [|m extra]; [by rewrite app_nil_r in Ex|].
  exfalso. destruct Ho as [Ho|Ho]; [done| |].
  - by apply Hn, (linked_open _ L).
  - destruct (linked_sock _ L c) as [s Hs]; [eauto|congruence].
Qed.

(** X4 — Rooms are isolated.  A callback for a connection of the room
    [doc] (a frame, a close, a failed write, a lost transport) leaves
    every other room object as it is, leaves every other name of the
    registry as it is, and does not touch the socket of any connection
    that was set up for another room: nothing is written to it and it is
    not closed. *)
Theorem room_isolation w e w' doc :
  reachable w -> isConnection e = false -> handlers w !! connOf e = Some doc ->
  step w e = Some w' ->
  (forall d, d ≠ doc -> heap w' !! d = heap w !! d)
  /\ (forall n, n ≠ name_of w doc -> docs w' !! n = docs w !! n)
  /\ (forall c d, handlers w !! c = Some d -> d ≠ doc -> socks w' !! c = socks w !! c).
Proof.
  intros Hr Ek Eh E. pose proof (reachable_linked w Hr) as L.
  pose proof (step_footprint doc e w w' Ek Eh E) as H.
  split; [apply (fp_other _ _ _ _ H)|]. split.
  - intros n Hn. destruct (fp_docs _ _ _ _ H) as [->|(_ & _ & ->)]; [done|].
    by rewrite lookup_delete_ne.
  - intros c d Hc Hd. apply (fp_outside _ _ _ _ H).
    + intros ->. congruence.
    + intros Hreg. pose proof (linked_room _ L doc c Hreg). congruence.
Qed.

(** X5 — A healthy connection is never dropped by someone else's event.
    Whatever happens on another connection (a new connection, a frame, a
    close, a failure), a connection whose transport is open and writable
    stays in its room's connection map with the same set of controlled
    ids, and stays healthy. *)
Theorem healthy_connection_stays w e w' d c ids :
  reachable w -> connOf e ≠ c -> healthy w c ->
  conns_get c (conns_of w d) = Some ids ->
  step w e = Some w' ->
  healthy w' c /\ conns_get c (conns_of w' d) = Some ids.
Proof.
  intros Hr Hne Hh Eg E. pose proof (reachable_wf w Hr) as Hwf.
  assert (Hsame : socks w' !! c = socks w !! c -> heap w' !! d = heap w !! d ->
            healthy w' c /\ conns_get c (conns_of w' d) = Some ids).
  { intros Es Ed. unfold healthy, readyState_of, sendThrows_of, conns_of in *.
    by rewrite Es, Ed. }
  destruct (isConnection e) eqn:Ek.
  - destruct e as [ws url| | | | |]; try done. cbn [connOf] in Hne. cbn [step] in E.
    destruct (socks w !! ws) eqn:Es; [injection E as <-; by apply Hsame|].
    assert (E' : step w (Connection ws url) = Some w') by (cbn [step]; by rewrite Es).
    clear E.
    destruct (connection_facts ws url w Hwf Es)
      as (w'' & doc & E & _ & _ & _ & _ & Hso & _ & Hho & Ec).
    rewrite E' in E. injection E as <-.
    destruct (decide (d = doc)) as [->|Hd]; [|apply Hsame; [by apply Hso|by apply Hho]].
    split.
    + unfold healthy, readyState_of, sendThrows_of in *. by rewrite Hso.
    + rewrite Ec, conns_get_set, decide_False by done. exact Eg.
  - destruct (handlers w !! connOf e) as [doc|] eqn:Eh.
    + pose proof (step_footprint doc e w w' Ek Eh E) as H.
      destruct (fp_keeps _ _ _ _ H c) as [Hh' Eg']; [done|done|].
      split; [done|]. destruct (decide (d = doc)) as [->|Hd]; [congruence|].
      unfold conns_of. rewrite (fp_other _ _ _ _ H d Hd). exact Eg.
    + destruct e as [ws url|ws message|ws|ws|ws|ws]; try done; cbn [step connOf] in *;
        rewrite ?Eh in E; injection E as <-; try (by apply Hsame);
        (split; [by apply healthy_alter_ne|done]).
Qed.

(** X6 — Every frame the relay writes carries one of its three type
    tags.  In every reachable state, every frame in every outbox starts
    with a variable-length integer that reads as 0 (sync), 1 (presence)
    or 10 (stats). *)
Theorem outbox_frames_typed w c (m : bytes) :
  reachable w -> m ∈ sent_of w c ->
  exists t rest, readVarUint m = Some (t, rest)
    /\ (t = messageSync \/ t = messageAwareness \/ t = messageStats).
Proof.
  intros [es E] Hm.
  assert (G : forall es w0 w1, wf w0 -> Forall relayFrame (sent_of w0 c) ->
            run w0 es = Some w1 -> Forall relayFrame (sent_of w1 c)).
  { clear. induction es as [|e es IH]; intros w0 w1 Hwf F E; cbn [run] in E.
    - by injection E as <-.
    - destruct (step w0 e) as [w|] eqn:Es; [|done]. cbn in E.
      eapply IH; [by eapply step_wf| |exact E].
      destruct (step_outbox w0 e w c Hwf Es) as (extra & -> & Hx & _).
      by apply Forall_app. }
  assert (F : Forall relayFrame (sent_of w c)).
  { eapply G; [apply wf_init| |exact E]. unfold sent_of.
    change (socks init) with (∅ : gmap conn WebSocket). rewrite lookup_empty.
    apply Forall_nil_2. }
  rewrite Forall_forall in F. destruct (F m Hm) as (t & rest & -> & Ht).
  exists t, rest. split; [|done]. apply readVarUint_writeVarUint.
  unfold MAX_SAFE_INTEGER, messageSync, messageAwareness, messageStats in *. lia.
Qed.

Lemma conns_set_new c ids (m : ConnMap) :
  conns_get c m = None -> conns_set c ids m = m ++ [(c, ids)].
Proof.
  induction m as [|e m IH]; cbn [conns_get conns_set]; [done|].
  case_decide; [done|]. intros E. by rewrite IH.
Qed.

(** X7 — A new connection is a local change.  The newcomer is put last
    in the connection map of its room with an empty set of controlled ids
    and gets its listeners; no other socket is written to or closed, no
    other room object and no other name of the registry changes. *)
Theorem join_is_local w ws url :
  reachable w -> socks w !! ws = None ->
  exists w' doc, step w (Connection ws url) = Some w'
    /\ docs w' !! docNameOf url = Some doc
    /\ conns_of w' doc = conns_of w doc ++ [(ws, [])]
    /\ handlers w' = <[ws := doc]> (handlers w)
    /\ (forall c, c ≠ ws -> socks w' !! c = socks w !! c)
    /\ (forall d, d ≠ doc -> heap w' !! d = heap w !! d)
    /\ (forall n, n ≠ docNameOf url -> docs w' !! n = docs w !! n).
Proof.
  intros Hr Es. pose proof (reachable_linked w Hr) as L.
  destruct (connection_facts ws url w (reachable_wf w Hr) Es)
    as (w' & doc & E & Ed & Hdn & _ & Eh & Hso & _ & Hho & Ec).
  exists w', doc. split; [done|]. split; [done|]. split; [|done].
  rewrite Ec. apply conns_set_new.
  destruct (conns_get ws (conns_of w doc)) as [ids|] eqn:Eg; [|done].
  assert (Hreg : registered w doc ws) by (unfold registered; rewrite Eg; eauto).
  destruct (linked_sock _ L ws) as [s Hs]; [|congruence].
  rewrite (linked_room _ L doc ws Hreg). eauto.
Qed.


Lemma set_add_foldl_keeps (i : clientID) (l s : list clientID) :
  i ∈ s -> i ∈ foldl (fun s j => set_add j s) s l.
Proof.
  revert s. induction l as [|j l IH]; intros s Hi; cbn [foldl]; [done|].
  apply IH. unfold set_add. case_decide; [done|]. apply elem_of_app. by left.
Qed.

Lemma set_add_foldl_adds (i : clientID) (l s : list clientID) :
  i ∈ l -> i ∈ foldl (fun s j => set_add j s) s l.
Proof.
  revert s. induction l as [|j l IH]; intros s Hi; cbn [foldl]; [inversion Hi|].
  apply elem_of_cons in Hi as [->|Hi]; [|by apply IH].
  apply set_add_foldl_keeps. unfold set_add. case_decide; [done|].
  apply elem_of_app. right. by apply list_elem_of_singleton.
Qed.

Lemma set_delete_foldl_keeps (i : clientID) (l s : list clientID) :
  i ∈ s -> i ∉ l -> i ∈ foldl (fun s j => set_delete j s) s l.
Proof.
  revert s. induction l as [|j l IH]; intros s Hi Hn; cbn [foldl]; [done|].
  apply not_elem_of_cons in Hn as [Hne Hn]. apply IH; [|done].
  unfold set_delete. by apply list_elem_of_filter.
Qed.

(** X9 — A participant leaves with its connection.  If a healthy
    connection announces a participant id (the merge reports it as added
    and not as removed) and the connection is closed right after, the id
    is no longer in the presence table of the room. *)
Theorem participant_leaves_with_connection {L : YEngineLaws Y}
    doc ws (message decoder awarenessUpdate rest : bytes) a ch (i : clientID) w w1 w2 :
  reachable w ->
  handlers w !! ws = Some doc ->
  registered w doc ws -> healthy w ws ->
  readVarUint message = Some (messageAwareness, decoder) ->
  readVarUint8Array decoder = Some (awarenessUpdate, rest) ->
  applyAwarenessUpdate (awareness_of w doc) awarenessUpdate = (a, Some ch) ->
  i ∈ added ch -> i ∉ removed ch ->
  step w (Message ws message) = Some w1 ->
  step w1 (Close ws) = Some w2 ->
  i ∉ getStates (awareness_of w2 doc).
Proof.
  intros Hr Hh [ids Eids] Hhl E0 E1 Ea Hadd Hrem Es1 Es2.
  pose proof (reachable_wf w Hr) as Hwf.
  assert (Hobs : observed_of w doc = true).
  { assert (Hne : conns_of w doc ≠ []) by (intros E; by rewrite E in Eids).
    pose proof (wf_live _ Hwf doc Hne) as Hd.
    by destruct (wf_registry _ Hwf _ _ Hd) as (_ & _ & ?). }
  assert (Hch : added ch ++ updated ch ++ removed ch ≠ []).
  { intros E. apply app_eq_nil in E as [E _]. rewrite E in Hadd. inversion Hadd. }
  destruct (presence_frame_result doc ws message decoder awarenessUpdate rest a ch ids w
              Hwf Hh E0 E1 Ea Hch Hobs Eids Hhl) as (w' & E & _ & _ & _ & Eg).
  rewrite Es1 in E. injection E as <-. cbn zeta in Eg.
  assert (Hh1 : handlers w1 !! ws = Some doc).
  { rewrite (fp_handlers _ _ _ _ (step_footprint doc (Message ws message) w w1
               eq_refl Hh Es1)). exact Hh. }
  cbn [step] in Es2. rewrite Hh1 in Es2.
  eapply (closeConn_presence doc ws _ _ w2 i Es2); [exact Eg|].
  apply set_delete_foldl_keeps; [|done]. by apply set_add_foldl_adds.
Qed.

(** The name is the request path without its first character; a missing
    path, an empty path and a path of one character all lead to the room
    lobby. *)
Lemma docNameOf_nonempty (url : option string) :
  docNameOf url ≠ EmptyString
  /\ (docNameOf url = "lobby"%string
      \/ exists a, url = Some (String a (docNameOf url))).
Proof.
  destruct url as [[|a rest]|]; cbn [docNameOf]; try (split; [done|by left]).
  case_bool_decide as E; [split; [done|by left]|].
  split; [done|]. right. by exists a.
Qed.

(** X10 — No room without a name.  Whatever paths the connections came
    with, the registry never has an entry under the empty name: an empty
    room name falls back to lobby. *)
Theorem no_room_without_name w : reachable w -> docs w !! EmptyString = None.
Proof.
  intros [es E].
  assert (G : forall es w0 w1, wf w0 -> docs w0 !! EmptyString = None ->
            run w0 es = Some w1 -> docs w1 !! EmptyString = None).
  { clear. induction es as [|e es IH]; intros w0 w1 Hwf F E; cbn [run] in E.
    - by injection E as <-.
    - destruct (step w0 e) as [w|] eqn:Es; [|done]. cbn in E.
      eapply IH; [by eapply step_wf| |exact E]. clear IH E.
      destruct (isConnection e) eqn:Ek.
      + destruct e as [ws url| | | | |]; try done. cbn [step] in Es.
        destruct (socks w0 !! ws) eqn:Eso; [by injection Es as <-|].
        assert (E' : step w0 (Connection ws url) = Some w) by (cbn [step]; by rewrite Eso).
        destruct (connection_facts ws url w0 Hwf Eso) as (w'' & doc & E & _ & Hdn & _).
        rewrite E' in E. injection E as <-. rewrite Hdn; [done|].
        intros Hn. by destruct (docNameOf_nonempty url) as [Hne _].
      + destruct (handlers w0 !! connOf e) as [doc|] eqn:Eh.
        * destruct (fp_docs _ _ _ _ (step_footprint doc e w0 w Ek Eh Es))
            as [->|(_ & _ & ->)]; [done|].
          apply lookup_delete_None. by right.
        * destruct e as [ws url|ws message|ws|ws|ws|ws]; try done;
            cbn [step connOf] in *; rewrite ?Eh in Es; by injection Es as <-. }
  eapply G; [apply wf_init| |exact E].
  change (docs init) with (∅ : gmap string docref). apply lookup_empty.
Qed.

(** X11 — A presence frame built by the relay reads back.  The relay
    frames a presence payload as the type tag 1 followed by the
    length-prefixed payload; its own decoder reads such a frame back as
    type 1 and the same payload, with nothing left over.  So a peer that
    decodes with the same two calls merges exactly the payload the relay
    framed. *)
Theorem presence_frame_round_trip (payload : bytes) :
  N.of_nat (length payload) <= MAX_SAFE_INTEGER ->
  readVarUint (writeVarUint messageAwareness ++ writeVarUint8Array payload)
  = Some (messageAwareness, writeVarUint8Array payload)
  /\ readVarUint8Array (writeVarUint8Array payload) = Some (payload, []).
Proof.
  intros Hlen. split.
  - apply readVarUint_writeVarUint. unfold messageAwareness, MAX_SAFE_INTEGER. lia.
  - rewrite <- (app_nil_r (writeVarUint8Array payload)).
    by apply readVarUint8Array_writeVarUint8Array.
Qed.

(** X12 — A frame for a room that is gone is absorbed.  When the room a
    connection was set up for has no connection left (it was destroyed
    and dropped from the registry), a frame that still arrives on that
    connection writes to no socket, leaves the registry as it is (the
    name may belong to a new room by now), brings no connection back into
    the old room, and leaves every other room object untouched. *)
Theorem frame_for_destroyed_room w ws doc (message : bytes) w' :
  reachable w -> handlers w !! ws = Some doc -> conns_of w doc = [] ->
  step w (Message ws message) = Some w' ->
  docs w' = docs w
  /\ conns_of w' doc = []
  /\ (forall c, sent_of w' c = sent_of w c)
  /\ (forall d, d ≠ doc -> heap w' !! d = heap w !! d).
Proof.
  intros Hr Hh Hnil E. pose proof (reachable_linked w Hr) as L.
  pose proof (step_footprint doc (Message ws message) w w' eq_refl Hh E) as H.
  assert (Hnone : forall c, ~ registered w doc c).
  { intros c [x Hx]. by rewrite Hnil in Hx. }
  split; [|split; [|split]].
  - by destruct (fp_docs _ _ _ _ H) as [?|(? & _)].
  - apply registered_nil. intros c Hc. by apply (Hnone c), (fp_registered _ _ _ _ H).
  - intros c. destruct (decide (c = ws)) as [->|Hne].
    + destruct (fp_sent _ _ _ _ H ws) as (extra & Ex & _ & Ho).
      destruct extra as [|m extra]; [by rewrite app_nil_r in Ex|].
      exfalso. apply (Hnone ws), (linked_open _ L ws doc Hh). by apply Ho.
    + unfold sent_of. by rewrite (fp_outside _ _ _ _ H c Hne (Hnone c)).
  - apply (fp_other _ _ _ _ H).
Qed.


(** The document of a room across the cascade *)
Lemma closeConn_ydoc doc c d w w' :
  closeConn doc c w = Some w' -> ydoc_of w' d = ydoc_of w d.
Proof.
  intros E.
  destruct (closeConn_effects doc (fun _ => True) (fun _ _ => False) c w)
    as (w'' & E' & Heff); [by right|].
  rewrite E in E'. injection E' as <-. apply effects_confined in Heff.
  destruct (decide (d = doc)) as [->|Hd]; [apply (confined_ydoc _ _ _ _ _ Heff)|].
  unfold ydoc_of. by rewrite (confined_other _ _ _ _ _ Heff d Hd).
Qed.

Lemma send_ydoc doc c (m : bytes) d w w' :
  send doc c m w = Some w' -> ydoc_of w' d = ydoc_of w d.
Proof.
  destruct (healthy_dec w c) as [Hh|Hh].
  - rewrite send_healthy by done. by intros [= <-].
  - rewrite send_unhealthy by done. apply closeConn_ydoc.
Qed.

Lemma forEach_ydoc (f : conn -> World Y -> option (World Y)) doc d keys w w' :
  (forall c w w', f c w = Some w' -> ydoc_of w' d = ydoc_of w d) ->
  forEach_conns f doc keys w = Some w' -> ydoc_of w' d = ydoc_of w d.
Proof.
  intros Hf. revert w. induction keys as [|c keys IH]; intros w E; cbn [forEach_conns] in E.
  - by injection E as <-.
  - destruct (conns_has c (conns_of w doc)); [|by apply IH].
    destruct (f c w) as [w1|] eqn:E1; [|done]. cbn in E.
    rewrite (IH _ E). by eapply Hf.
Qed.

Lemma awarenessChangeHandler_ydoc doc ch origin d w w' :
  awarenessChangeHandler doc ch origin w = Some w' -> ydoc_of w' d = ydoc_of w d.
Proof.
  unfold awarenessChangeHandler, awarenessChangeHandler_with.
  set (w1 := match _ with Some (o, ids) => _ | None => w end).
  assert (H1 : ydoc_of w1 d = ydoc_of w d).
  { subst w1. destruct (origin ≫= _) as [[o ids]|]; [|done].
    destruct (decide (d = doc)) as [->|Hd]; solve_heap_read. }
  intros E. rewrite <- H1. eapply forEach_ydoc; [|exact E].
  intros c w0 w0'. apply send_ydoc.
Qed.

Lemma docUpdateHandler_ydoc doc u origin d w w' :
  docUpdateHandler doc u origin w = Some w' -> ydoc_of w' d = ydoc_of w d.
Proof.
  unfold docUpdateHandler. intros E. eapply forEach_ydoc; [|exact E].
  intros c w0 w0'. cbn beta. case_bool_decide; [apply send_ydoc|by intros [= <-]].
Qed.

(** X13 — Only a SYNC frame with a Step-2 or Update payload changes a
    document.  If the document of a room object differs after a callback,
    the callback was a frame on a connection set up for that room, the
    type of the frame was 0 and its sub-tag 1 or 2.  A new connection, a
    presence or stats frame, a Step-1 request, a close or a failure never
    change a document. *)
Theorem document_changes_only_by_sync w e w' d :
  reachable w -> step w e = Some w' -> ydoc_of w' d ≠ ydoc_of w d ->
  exists ws (message d0 d1 : bytes) (t : N),
    e = Message ws message /\ handlers w !! ws = Some d
    /\ readVarUint message = Some (messageSync, d0)
    /\ readVarUint d0 = Some (t, d1)
    /\ (t = messageYjsSyncStep2 \/ t = messageYjsUpdate).
Proof.
  intros Hr E Hne. pose proof (reachable_wf w Hr) as Hwf.
  destruct e as [ws url|ws message|ws|ws|ws|ws]; cbn [step] in E.
  - exfalso. apply Hne. destruct (socks w !! ws) eqn:Es; [by injection E as <-|].
    assert (E' : step w (Connection ws url) = Some w') by (cbn [step]; by rewrite Es).
    destruct (connection_result ws url w Hwf Es)
      as (w'' & doc & w1 & Eg & E'' & _ & _ & Ey & _).
    rewrite E' in E''. injection E'' as <-.
    destruct (connection_facts ws url w Hwf Es) as (w'' & doc' & E'' & Ed' & _ & Hdd & _ & _ & _ & Hho & _).
    rewrite E' in E''. injection E'' as <-.
    assert (doc' = doc) as ->.
    { destruct (connection_result ws url w Hwf Es) as (w'' & doc2 & w2 & Eg2 & E2 & Ed2 & _).
      rewrite E' in E2. injection E2 as <-. rewrite Eg in Eg2. injection Eg2 as <- <-.
      congruence. }
    destruct (decide (d = doc)) as [->|Hd]; [|unfold ydoc_of; by rewrite Hho].
    rewrite Ey.
    pose proof (getYDoc_cases (docNameOf url)
                  (set_socks (insert ws (mkWebSocket OPEN [] false 0)) w)) as Hc.
    change (docs (set_socks (insert ws (mkWebSocket OPEN [] false 0)) w)) with (docs w) in Hc.
    change (heap (set_socks (insert ws (mkWebSocket OPEN [] false 0)) w)) with (heap w) in Hc.
    destruct (docs w !! docNameOf url) as [d0|] eqn:E0.
    + rewrite Eg in Hc. by injection Hc as -> ->.
    + destruct Hc as [Hc Hfresh]. rewrite Eg in Hc. injection Hc as -> ->.
      unfold ydoc_of, set_docs, set_heap. cbn [heap].
      by rewrite lookup_insert_eq, Hfresh.
  - destruct (handlers w !! ws) as [doc|] eqn:Eh; [|by injection E as <-].
    unfold onMessage, onMessage_try in E.
    destruct (readVarUint message) as [[messageType decoder]|] eqn:E0;
      [|by injection E as <-].
    destruct (N.eqb_spec messageType messageSync) as [->|Hs].
    { unfold readSyncMessage in E.
      destruct (readVarUint decoder) as [[t d1]|] eqn:E1; [|by injection E as <-].
      destruct (t =? messageYjsSyncStep1) eqn:Et1.
      { exfalso. apply Hne.
        destruct (readVarUint8Array d1) as [[sv rest]|]; [|by injection E as <-].
        destruct (Y_encodeStateAsUpdate (ydoc_of w doc) sv) as [u|];
          [|by injection E as <-].
        cbn [mbind option_bind] in E. case_bool_decide; [|by injection E as <-].
        by eapply send_ydoc. }
      destruct ((t =? messageYjsSyncStep2) || (t =? messageYjsUpdate)) eqn:Et;
        [|by injection E as <-].
      destruct (decide (d = doc)) as [->|Hd].
      { exists ws, message, decoder, d1, t. split; [done|]. split; [done|].
        split; [done|]. split; [done|].
        apply orb_true_iff in Et as [Et|Et]; apply N.eqb_eq in Et; [by left|by right]. }
      exfalso. apply Hne.
      destruct (readVarUint8Array d1) as [[update rest]|]; [|by injection E as <-].
      destruct (Y_applyUpdate (ydoc_of w doc) update) as [[y emitted]|];
        [|by injection E as <-].
      set (w1 := set_ydoc doc y w) in *.
      assert (H1 : ydoc_of w1 d = ydoc_of w d) by (subst w1; solve_heap_read).
      match type of E with ((?x ≫= _) ≫= _) = _ => destruct x as [w2|] eqn:E2 end;
        [|done].
      assert (H2 : ydoc_of w2 d = ydoc_of w d).
      { rewrite <- H1. destruct emitted as [u|]; [|by injection E2 as <-].
        destruct (observed_of w1 doc); [|by injection E2 as <-].
        by eapply docUpdateHandler_ydoc. }
      cbn [mbind option_bind] in E. case_bool_decide.
      - rewrite <- H2. by eapply send_ydoc.
      - by injection E as <-. }
    exfalso. apply Hne.
    destruct (messageType =? messageAwareness).
    { destruct (readVarUint8Array decoder) as [[awarenessUpdate rest]|];
        [|by injection E as <-].
      destruct (applyAwarenessUpdate (awareness_of w doc) awarenessUpdate) as [a outcome].
      set (w1 := set_awareness doc a w) in *.
      assert (H1 : ydoc_of w1 d = ydoc_of w d).
      { subst w1. destruct (decide (d = doc)) as [->|Hd]; solve_heap_read. }
      destruct outcome as [ch|]; [|by injection E as <-].
      match type of E with (?x ≫= _) = _ => destruct x as [w2|] eqn:E2 end; [|done].
      assert (H2 : ydoc_of w2 d = ydoc_of w d).
      { rewrite <- H1. destruct (_ && _); [|by injection E2 as <-].
        by eapply awarenessChangeHandler_ydoc. }
      cbn [mbind option_bind] in E. rewrite <- H2.
      eapply forEach_ydoc; [|exact E].
      intros c w0 w0'. cbn beta.
      destruct (bool_decide (c ≠ ws)); [apply send_ydoc|by intros [= <-]]. }
    destruct (messageType =? messageStats); [by eapply send_ydoc|by injection E as <-].
  - exfalso. apply Hne. destruct (handlers w !! ws) as [doc|]; [|by injection E as <-].
    by rewrite (closeConn_ydoc _ _ _ _ _ E).
  - exfalso. apply Hne. destruct (handlers w !! ws) as [doc|]; [|by injection E as <-].
    by rewrite (closeConn_ydoc _ _ _ _ _ E).
  - exfalso. apply Hne. by injection E as <-.
  - exfalso. apply Hne. by injection E as <-.
Qed.



(** X15 — A close removes exactly the participants the connection
    controls.  When the ['close'] event comes for a registered connection
    and every other connection of the room is healthy, the room's
    connection map afterwards is the old one without that connection, and
    the presence table holds the participants it held before except the
    ids the connection controlled. *)
Theorem close_removes_exactly_controlled {L : YEngineLaws Y} w ws doc ids w' :
  reachable w ->
  handlers w !! ws = Some doc ->
  conns_get ws (conns_of w doc) = Some ids ->
  (forall c, c ≠ ws -> registered w doc c -> healthy w c) ->
  step w (Close ws) = Some w' ->
  conns_of w' doc = conns_delete ws (conns_of w doc)
  /\ getStates (awareness_of w' doc)
     = filter (fun i => i ∉ ids) (getStates (awareness_of w doc)).
Proof.
  intros Hr Hh Eg Hall E. pose proof (reachable_wf w Hr) as Hwf.
  cbn [step] in E. rewrite Hh in E.
  set (w0 := set_socks _ w) in E.
  assert (Eg0 : conns_get ws (conns_of w0 doc) = Some ids) by exact Eg.
  destruct (closeConn_registered doc ws w0 w' ids Eg0 E) as (w3 & _ & Hsame & Hfire & ->).
  change (awareness_of w0 doc) with (awareness_of w doc) in *.
  change (conns_of w0 doc) with (conns_of w doc) in *.
  set (r := removeAwarenessStates (awareness_of w doc) ids) in *.
  change (set_awareness doc r.1 (set_conns doc (conns_delete ws (conns_of w doc)) w0))
    with (unlinked doc ws ids w0) in *.
  set (w2 := unlinked doc ws ids w0) in *.
  assert (Hreg0 : registered w0 doc ws) by (exists ids; exact Eg0).
  assert (Ec2 : conns_of w2 doc = conns_delete ws (conns_of w doc))
    by (subst w2; by rewrite conns_of_unlinked).
  assert (Ea2 : awareness_of w2 doc = r.1)
    by (subst w2; by rewrite awareness_of_unlinked).
  assert (H3 : heap w3 = heap w2).
  { destruct (observed_of w0 doc) eqn:Eo; [|by rewrite Hsame by (by left)].
    destruct (decide (r.2 = [])) as [E0|Hg]; [by rewrite Hsame by (by right)|].
    specialize (Hfire eq_refl Hg). rewrite awarenessChangeHandler_removed in Hfire.
    destruct (forEach_healthy doc
                (writeVarUint messageAwareness
                 ++ writeVarUint8Array (encodeAwarenessUpdate (awareness_of w2 doc) r.2))
                (fun _ => true)
                (fun c => send doc c
                   (writeVarUint messageAwareness
                    ++ writeVarUint8Array (encodeAwarenessUpdate (awareness_of w2 doc) r.2)))
                (conns_keys (conns_of w2 doc)) w2)
      as (w3' & E3 & _ & Hheap & _); [done| | |].
    - rewrite Ec2, conns_delete_filter. apply conns_keys_filter_NoDup, (wf_keys _ Hwf).
    - intros c _ Hc _. unfold registered in Hc.
      rewrite Ec2, conns_get_delete in Hc. case_decide as Hne; [by destruct Hc|].
      assert (Hhc : healthy w c) by (by apply Hall).
      unfold healthy, readyState_of, sendThrows_of in *. subst w2 w0.
      cbn [socks set_socks unlinked set_awareness set_conns set_heap].
      by rewrite lookup_alter_ne.
    - rewrite Hfire in E3. by injection E3 as <-. }
  split.
  - change (conns_of (set_socks (alter ws_close ws) (reclaim doc w3)) doc)
      with (conns_of (reclaim doc w3) doc).
    rewrite conns_of_reclaim. unfold conns_of. rewrite H3. exact Ec2.
  - change (awareness_of (set_socks (alter ws_close ws) (reclaim doc w3)) doc)
      with (awareness_of (reclaim doc w3) doc).
    rewrite awareness_of_reclaim. unfold awareness_of at 1. rewrite H3.
    change (from_option awareness new_Awareness (heap w2 !! doc))
      with (awareness_of w2 doc).
    rewrite Ea2. apply removeAwarenessStates_states.
Qed.

(** X16 — A room that was emptied stays empty.  A room object without
    connections is never given a connection again by any callback: a new
    connection to its name gets a new room object, and frames or closes
    that still arrive for the old object do not bring anything back. *)
Theorem emptied_room_stays_empty w e w' d :
  reachable w -> is_Some (heap w !! d) -> conns_of w d = [] ->
  step w e = Some w' -> conns_of w' d = [].
Proof.
  intros Hr Hal Hnil E. pose proof (reachable_wf w Hr) as Hwf.
  destruct (isConnection e) eqn:Ek.
  - destruct e as [ws url| | | | |]; try done. cbn [step] in E.
    destruct (socks w !! ws) eqn:Es; [by injection E as <-|].
    assert (E' : step w (Connection ws url) = Some w') by (cbn [step]; by rewrite Es).
    destruct (connection_facts ws url w Hwf Es)
      as (w'' & doc & E'' & _ & _ & Hdd & _ & _ & _ & Hho & _).
    rewrite E' in E''. injection E'' as <-.
    assert (Hd : d ≠ doc).
    { intros ->. destruct Hdd as [[_ Hfresh]|Hdd].
      - destruct Hal as [x Hx]. congruence.
      - by destruct (wf_registry _ Hwf _ _ Hdd) as (_ & ? & _). }
    unfold conns_of in *. by rewrite (Hho d Hd).
  - destruct (handlers w !! connOf e) as [doc|] eqn:Eh.
    + pose proof (step_footprint doc e w w' Ek Eh E) as H.
      destruct (decide (d = doc)) as [->|Hd].
      * apply registered_nil. intros c Hc. apply (fp_registered _ _ _ _ H) in Hc.
        destruct Hc as [x Hx]. by rewrite Hnil in Hx.
      * unfold conns_of in *. by rewrite (fp_other _ _ _ _ H d Hd).
    + destruct e as [ws url|ws message|ws|ws|ws|ws]; try done; cbn [step connOf] in *;
        rewrite ?Eh in E; by injection E as <-.
Qed.

End Further.

(** * The whiteboard client *)

Section CanvasProperties.
Context {Element : Type} (id : Element -> string).
Implicit Types (m : gmap string Element) (ks : gset string) (k : string)
  (elements : list Element).

Lemma last_filter_cons k (el : Element) elements :
  last (filter (fun e => id e = k) (el :: elements))
  = match last (filter (fun e => id e = k) elements) with
    | Some e => Some e
    | None => if decide (id el = k) then Some el else None
    end.
Proof.
  rewrite filter_cons. case_decide as E.
  - destruct (filter (fun e => id e = k) elements) as [|e l] eqn:El; [done|].
    rewrite last_cons. by destruct (last (e :: l)).
  - by destruct (last (filter (fun e => id e = k) elements)).
Qed.

Lemma scene_stored elements : forall m ks k,
  let r := foldl (fun '(m, ks) el => (<[id el := el]> m, ks ∖ {[id el]}))
                 (m, ks) elements in
  r.1 !! k = match last (filter (fun e => id e = k) elements) with
             | Some e => Some e
             | None => m !! k
             end
  /\ (k ∈ r.2 <-> k ∈ ks /\ last (filter (fun e => id e = k) elements) = None).
Proof.
  induction elements as [|el elements IH]; intros m ks k; cbn [foldl].
  - cbn. split; [done|]. tauto.
  - cbn zeta. destruct (IH (<[id el := el]> m) (ks ∖ {[id el]}) k) as [H1 H2].
    rewrite H1, H2, last_filter_cons.
    destruct (last (filter (fun e => id e = k) elements)) as [e|].
    + split; [done|]. split; [by intros [_ ?]|by intros [_ ?]].
    + case_decide as E.
      * subst. rewrite lookup_insert_eq. split; [done|].
        split; [|by intros [_ ?]]. intros [Hin _]. set_solver.
      * rewrite lookup_insert_ne by done. split; [done|]. set_solver.
Qed.

Lemma delete_keys m ks k :
  set_fold (fun key m => delete key m) m ks !! k
  = if decide (k ∈ ks) then None else m !! k.
Proof.
  assert (H : forall k, (k ∈ ks -> set_fold (fun key m => delete key m) m ks !! k = None)
                        /\ (k ∉ ks -> set_fold (fun key m => delete key m) m ks !! k
                                      = m !! k)).
  { apply (set_fold_ind_L
             (fun r (X : gset string) =>
                forall k, (k ∈ X -> r !! k = None) /\ (k ∉ X -> r !! k = m !! k))).
    - intros k0. split; [set_solver|done].
    - intros x X r Hx IH k0. destruct (decide (k0 = x)) as [->|Hne].
      + rewrite lookup_delete_eq. split; [done|set_solver].
      + rewrite lookup_delete_ne by done. destruct (IH k0) as [I1 I2].
        split; intros Hk; [apply I1|apply I2]; set_solver. }
  destruct (H k) as [H1 H2]. case_decide; [by apply H1|by apply H2].
Qed.

Lemma syncScene_lookup elements m k :
  Canvas.syncScene id elements m !! k = last (filter (fun e => id e = k) elements).
Proof.
  unfold Canvas.syncScene.
  pose proof (scene_stored elements m (dom m) k) as H. cbn zeta in H.
  destruct (foldl _ (m, dom m) elements) as [m1 ks1]. cbn [fst snd] in H.
  destruct H as [H1 H2]. rewrite delete_keys.
  destruct (last (filter (fun e => id e = k) elements)) as [e|] eqn:El.
  - rewrite decide_False; [done|]. rewrite H2. by intros [_ ?].
  - case_decide as Hk; [done|]. rewrite H1.
    apply not_elem_of_dom. intros Hd. apply Hk, H2. done.
Qed.

(** X17 — A local change makes the shared map the scene.  When the
    component is not applying a remote update and its refs are set,
    [handleChange] leaves the shared map with exactly the elements it was
    given, keyed by id: a key leads to the last element of the scene with
    that id, and a key of no element of the scene is not in the map any
    more, whatever the map held before. *)
Theorem handleChange_stores_scene elements (r : Canvas.Refs) m k :
  Canvas.isLocalChange r = false -> Canvas.yDocRef r = true ->
  Canvas.yElementsRef r = Some m ->
  exists m', Canvas.yElementsRef (Canvas.handleChange id elements r) = Some m'
    /\ m' !! k = last (filter (fun e => id e = k) elements).
Proof.
  intros Hl Hd Hm. unfold Canvas.handleChange. rewrite Hl, Hm, Hd. cbn.
  eexists. split; [done|]. apply syncScene_lookup.
Qed.

End CanvasProperties.

(** * Concrete runs on the reference engine *)

Lemma reachable_after (es : list Event) : reachable (Scenario.after es).
Proof.
  exists es. unfold Scenario.after. by destruct (run_total es init) as [w ->].
Qed.

Lemma after_step (es : list Event) (e : Event) :
  step (Scenario.after es) e = Some (Scenario.after (es ++ [e])).
Proof.
  assert (G : forall es w, run w (es ++ [e]) = w' ← run w es; step w' e).
  { clear es. induction es as [|e0 es IH]; intros w; cbn.
    - by destruct (step w e).
    - destruct (step w e0) as [w1|]; cbn; [apply IH|done]. }
  unfold Scenario.after. rewrite G.
  destruct (run_total es (init (Y := Reference.engine))) as [w ->]. cbn.
  by destruct (step_total w e) as [w' ->].
Qed.

(** C1 — The echo, at a concrete input.  Two connections are in room r1;
    the first sends a presence frame that announces participant 7.  The
    relay writes to the sender a frame that is byte for byte the frame it
    received, and writes that frame to the other connection twice: once
    from the presence listener, once from the explicit forward. *)
Theorem presence_echoed_to_sender :
  let frame := Scenario.presenceMsg 7 1 Scenario.json_obj in
  let w' := Scenario.after [Connection 1 Scenario.r1; Connection 2 Scenario.r1;
                            Message 1 frame] in
  step Scenario.two_conns (Message 1 frame) = Some w'
  /\ sent_of w' 1 = sent_of Scenario.two_conns 1 ++ [frame]
  /\ sent_of w' 2 = sent_of Scenario.two_conns 2 ++ [frame; frame].
Proof.
  cbv zeta. split; [vm_compute; reflexivity|]. split; vm_compute; reflexivity.
Qed.


Lemma one_room_per_name_witness :
  reachable Scenario.two_conns
  /\ (forall n d, docs Scenario.two_conns !! n = Some d ->
        name_of Scenario.two_conns d = n /\ conns_of Scenario.two_conns d ≠ []).
Proof.
  assert (Hr : reachable Scenario.two_conns) by apply reachable_after.
  split; [exact Hr|].
  exact (proj1 (proj2 (one_room_per_name Scenario.two_conns Hr))).
Defined.

Lemma handshake_on_connect_witness :
  (wf Scenario.one_present /\ socks Scenario.one_present !! 3%nat = None)
  /\ exists w' doc, step Scenario.one_present (Connection 3 Scenario.r1) = Some w'
       /\ docs w' !! docNameOf Scenario.r1 = Some doc
       /\ registered w' doc 3.
Proof.
  assert (Hwf : wf Scenario.one_present) by apply reachable_wf, reachable_after.
  assert (Hn : socks Scenario.one_present !! 3%nat = None) by (vm_compute; reflexivity).
  split; [exact (conj Hwf Hn)|].
  destruct (handshake_on_connect 3%nat Scenario.r1 Scenario.one_present Hwf Hn)
    as (w' & doc & E & Ed & Hr & _).
  exists w', doc. exact (conj E (conj Ed Hr)).
Defined.

(** The run behind the witness of C5: the third connection to room r1,
    where participant 7 is present, gets Sync Step 1 and then the
    snapshot with participant 7. *)
Example handshake_with_snapshot :
  sent_of (Scenario.after [Connection 1 Scenario.r1; Connection 2 Scenario.r1;
                           Message 1 (Scenario.presenceMsg 7 1 Scenario.json_obj);
                           Connection 3 Scenario.r1]) 3
  = [[x00; x00; x01; x00]; Scenario.presenceMsg 7 1 Scenario.json_obj].
Proof. vm_compute. reflexivity. Qed.

(** C5, as stated, fails for a room without participants: the first
    connection to room r1 gets Sync Step 1 and no presence frame. *)
Lemma handshake_without_snapshot_counterexample :
  step init (Connection 1 Scenario.r1) = Some Scenario.one_conn
  /\ getStates (awareness_of Scenario.one_conn 0) = []
  /\ sent_of Scenario.one_conn 1 = [[x00; x00; x01; x00]]
  /\ ~ presenceFrame [x00; x00; x01; x00].
Proof.
  split; [vm_compute; reflexivity|]. split; [vm_compute; reflexivity|].
  split; [vm_compute; reflexivity|].
  intros [p Hp]. change (writeVarUint messageAwareness) with [x01] in Hp. discriminate.
Qed.

Lemma close_broadcasts_removal_witness :
  (wf Scenario.one_present
   /\ conns_get 1%nat (conns_of Scenario.one_present 0) = Some [7])
  /\ exists w', closeConn 0 1 Scenario.one_present = Some w'
       /\ (forall i, i ∈ [7] -> i ∉ getStates (awareness_of w' 0))
       /\ delivered (Scenario.presenceMsg 7 1 Reference.JSON_null)
            Scenario.one_present w' 2.
Proof.
  assert (Hwf : wf Scenario.one_present) by apply reachable_wf, reachable_after.
  assert (Eg : conns_get 1%nat (conns_of Scenario.one_present 0) = Some [7])
    by (vm_compute; reflexivity).
  assert (Hr2 : registered Scenario.one_present 0 2).
  { exists []. vm_compute. reflexivity. }
  assert (Hh2 : healthy Scenario.one_present 2).
  { split; vm_compute; reflexivity. }
  assert (Hne : 2%nat ≠ 1%nat) by discriminate.
  assert (Hgone : (removeAwarenessStates (awareness_of Scenario.one_present 0) [7]).2 ≠ []).
  { vm_compute. discriminate. }
  assert (EF : writeVarUint messageAwareness
               ++ writeVarUint8Array
                    (encodeAwarenessUpdate
                       (removeAwarenessStates (awareness_of Scenario.one_present 0) [7]).1
                       (removeAwarenessStates (awareness_of Scenario.one_present 0) [7]).2)
               = Scenario.presenceMsg 7 1 Reference.JSON_null)
    by (vm_compute; reflexivity).
  split; [exact (conj Hwf Eg)|].
  destruct (close_broadcasts_removal 0%nat 1%nat [7] Scenario.one_present Hwf Eg)
    as (w' & E & Hrm & _ & Hd & _).
  exists w'. split; [exact E|]. split; [exact Hrm|].
  rewrite <- EF. exact (proj1 (Hd Hgone 2%nat Hne Hr2 Hh2)).
Defined.

(** C6, as stated, fails in two ways.

    No frame at all: connection 1 announced participant 7 and so controls
    it; connection 2 then announced that 7 left.  When connection 1
    closes, it controls one id, and no frame is written to connection 2.
    The same holds for a connection that controls no id.

    No frame for a remaining connection that cannot be written to:
    connection 1 controls participant 7, which is in the table, and
    connection 2 is registered.  If the transport of connection 2 has
    left the open state, or is open but the write to it throws, the close
    of connection 1 writes nothing to connection 2. *)
Lemma close_without_broadcast_counterexample :
  (conns_get 1%nat (conns_of Scenario.one_withdrawn 0) = Some [7]
   /\ conns_get 2%nat (conns_of Scenario.one_withdrawn 0) = Some []
   /\ readyState_of Scenario.one_withdrawn 2 = OPEN
   /\ step Scenario.one_withdrawn (Close 1)
      = Some (Scenario.after [Connection 1 Scenario.r1; Connection 2 Scenario.r1;
                Message 1 (Scenario.presenceMsg 7 1 Scenario.json_obj);
                Message 2 (Scenario.presenceMsg 7 2 Reference.JSON_null); Close 1])
   /\ sent_of (Scenario.after [Connection 1 Scenario.r1; Connection 2 Scenario.r1;
                Message 1 (Scenario.presenceMsg 7 1 Scenario.json_obj);
                Message 2 (Scenario.presenceMsg 7 2 Reference.JSON_null); Close 1]) 2
      = sent_of Scenario.one_withdrawn 2
   /\ conns_get 1%nat (conns_of Scenario.two_conns 0) = Some []
   /\ step Scenario.two_conns (Close 1)
      = Some (Scenario.after [Connection 1 Scenario.r1; Connection 2 Scenario.r1; Close 1])
   /\ sent_of (Scenario.after [Connection 1 Scenario.r1; Connection 2 Scenario.r1;
                               Close 1]) 2
      = sent_of Scenario.two_conns 2)
  /\ (forall fault : Event, fault = TransportLost 2 \/ fault = WriteBroken 2 ->
        let es := [Connection 1 Scenario.r1; Connection 2 Scenario.r1;
                   Message 1 (Scenario.presenceMsg 7 1 Scenario.json_obj); fault] in
        conns_get 1%nat (conns_of (Scenario.after es) 0) = Some [7]
        /\ getStates (awareness_of (Scenario.after es) 0) = [7]
        /\ is_Some (conns_get 2%nat (conns_of (Scenario.after es) 0))
        /\ step (Scenario.after es) (Close 1) = Some (Scenario.after (es ++ [Close 1]))
        /\ getStates (awareness_of (Scenario.after (es ++ [Close 1])) 0) = []
        /\ sent_of (Scenario.after (es ++ [Close 1])) 2 = sent_of (Scenario.after es) 2)
  /\ readyState_of (Scenario.after [Connection 1 Scenario.r1; Connection 2 Scenario.r1;
                      Message 1 (Scenario.presenceMsg 7 1 Scenario.json_obj);
                      WriteBroken 2]) 2 = OPEN.
Proof.
  split; [|split].
  - split; [vm_compute; reflexivity|]. split; [vm_compute; reflexivity|].
    split; [vm_compute; reflexivity|]. split; [vm_compute; reflexivity|].
    split; [vm_compute; reflexivity|]. split; [vm_compute; reflexivity|].
    split; vm_compute; reflexivity.
  - intros fault [-> | ->]; cbv zeta.
    + split; [vm_compute; reflexivity|]. split; [vm_compute; reflexivity|].
      split; [exists []; vm_compute; reflexivity|]. split; [exact (after_step _ _)|].
      split; vm_compute; reflexivity.
    + split; [vm_compute; reflexivity|]. split; [vm_compute; reflexivity|].
      split; [exists []; vm_compute; reflexivity|]. split; [exact (after_step _ _)|].
      split; vm_compute; reflexivity.
  - vm_compute. reflexivity.
Qed.

Lemma send_dead_transport_witness :
  (~ healthy Scenario.two_conns_one_broken 1
   /\ exists w', send 0 1 [x0a; x02] Scenario.two_conns_one_broken = Some w'
        /\ sent_of w' 1 = sent_of Scenario.two_conns_one_broken 1
        /\ ~ registered w' 0 1)
  /\ (healthy Scenario.two_conns 1
      /\ handlers Scenario.two_conns !! 1%nat = Some 0%nat
      /\ exists w', step Scenario.two_conns (SendFailed 1) = Some w'
           /\ sent_of w' 1 = sent_of Scenario.two_conns 1
           /\ ~ registered w' 0 1).
Proof.
  assert (Hn : ~ healthy Scenario.two_conns_one_broken 1).
  { intros [_ Ht]. vm_compute in Ht. discriminate. }
  assert (Hh : healthy Scenario.two_conns 1) by (split; vm_compute; reflexivity).
  assert (Hl : handlers Scenario.two_conns !! 1%nat = Some 0%nat)
    by (vm_compute; reflexivity).
  destruct (send_dead_transport 0%nat 1%nat [x0a; x02] Scenario.two_conns_one_broken)
    as (w1 & _ & E1 & _ & Hs1 & Hr1 & _).
  destruct (send_dead_transport 0%nat 1%nat [x0a; x02] Scenario.two_conns)
    as (w2 & _ & _ & E2 & Hs2 & Hr2 & _).
  exact (conj (conj Hn (ex_intro _ w1 (conj (E1 Hn) (conj Hs1 Hr1))))
              (conj Hh (conj Hl (ex_intro _ w2 (conj (E2 Hl) (conj Hs2 Hr2)))))).
Defined.





(** The reply of that run: type tag 10, then the count 2. *)
Example stats_reply_bytes :
  sent_of (Scenario.after [Connection 1 Scenario.r1; Connection 2 Scenario.r1;
                           Message 2 Scenario.statsMsg]) 2
  = sent_of Scenario.two_conns 2 ++ [[x0a; x02]].
Proof. vm_compute. reflexivity. Qed.


Lemma closeConn_idempotent_witness :
  (~ registered Scenario.after_send_failure 0 1
   \/ exists w0, closeConn 0 1 w0 = Some Scenario.after_send_failure)
  /\ exists w', closeConn 0 1 Scenario.after_send_failure = Some w'
       /\ docs w' = docs Scenario.after_send_failure
       /\ heap w' = heap Scenario.after_send_failure
       /\ handlers w' = handlers Scenario.after_send_failure
       /\ errors w' = errors Scenario.after_send_failure
       /\ socks w' = alter ws_close 1%nat (socks Scenario.after_send_failure)
       /\ forall c', sent_of w' c' = sent_of Scenario.after_send_failure c'.
Proof.
  assert (H : ~ registered Scenario.after_send_failure 0 1
              \/ exists w0, closeConn 0 1 w0 = Some Scenario.after_send_failure).
  { right. exists Scenario.two_conns_one_broken. vm_compute. reflexivity. }
  exact (conj H (closeConn_idempotent 0%nat 1%nat Scenario.after_send_failure H)).
Defined.

(** * Concrete runs for the further properties *)

Lemma connection_in_one_room_witness :
  registered Scenario.one_conn 0 1
  /\ handlers Scenario.one_conn !! 1%nat = Some 0%nat
  /\ is_Some (socks Scenario.one_conn !! 1%nat).
Proof.
  assert (Hc : registered Scenario.one_conn 0 1) by (exists []; vm_compute; reflexivity).
  destruct (connection_in_one_room Scenario.one_conn 0%nat 0%nat 1%nat
              (reachable_after _) Hc) as (H1 & H2 & _).
  exact (conj Hc (conj H1 H2)).
Defined.

Lemma open_connection_registered_witness :
  (handlers Scenario.one_conn !! 1%nat = Some 0%nat
   /\ readyState_of Scenario.one_conn 1 = OPEN)
  /\ registered Scenario.one_conn 0 1.
Proof.
  assert (Hh : handlers Scenario.one_conn !! 1%nat = Some 0%nat)
    by (vm_compute; reflexivity).
  assert (Ho : readyState_of Scenario.one_conn 1 = OPEN) by (vm_compute; reflexivity).
  exact (conj (conj Hh Ho)
           (open_connection_registered Scenario.one_conn 1%nat 0%nat
              (reachable_after _) Hh Ho)).
Defined.

Lemma no_write_after_drop_witness :
  let w := Scenario.after [Connection 1 Scenario.r1; Close 1] in
  let w' := Scenario.after ([Connection 1 Scenario.r1; Close 1]
                            ++ [Message 1 Scenario.statsMsg]) in
  (handlers w !! 1%nat = Some 0%nat /\ ~ registered w 0 1
   /\ step w (Message 1 Scenario.statsMsg) = Some w')
  /\ sent_of w' 1 = sent_of w 1.
Proof.
  cbv zeta.
  assert (Hh : handlers (Scenario.after [Connection 1 Scenario.r1; Close 1]) !! 1%nat
               = Some 0%nat) by (vm_compute; reflexivity).
  assert (Eg : conns_get 1 (conns_of (Scenario.after [Connection 1 Scenario.r1; Close 1]) 0)
               = None) by (vm_compute; reflexivity).
  assert (Hn : ~ registered (Scenario.after [Connection 1 Scenario.r1; Close 1]) 0 1).
  { intros [x Hx]. rewrite Eg in Hx. discriminate. }
  pose proof (after_step [Connection 1 Scenario.r1; Close 1]
                (Message 1 Scenario.statsMsg)) as E.
  exact (conj (conj Hh (conj Hn E))
           (no_write_after_drop _ 1%nat 0%nat _ _ (reachable_after _) Hh Hn E)).
Defined.

Lemma room_isolation_witness :
  let w := Scenario.after [Connection 1 Scenario.r1; Connection 2 (Some "/r2"%string)] in
  let w' := Scenario.after ([Connection 1 Scenario.r1; Connection 2 (Some "/r2"%string)]
                            ++ [Message 1 Scenario.statsMsg]) in
  (handlers w !! 1%nat = Some 0%nat /\ handlers w !! 2%nat = Some 1%nat
   /\ step w (Message 1 Scenario.statsMsg) = Some w')
  /\ heap w' !! 1%nat = heap w !! 1%nat
  /\ socks w' !! 2%nat = socks w !! 2%nat.
Proof.
  cbv zeta.
  set (es := [Connection 1 Scenario.r1; Connection 2 (Some "/r2"%string)]).
  assert (Hh : handlers (Scenario.after es) !! connOf (Message 1 Scenario.statsMsg)
               = Some 0%nat) by (vm_compute; reflexivity).
  assert (Hh2 : handlers (Scenario.after es) !! 2%nat = Some 1%nat)
    by (vm_compute; reflexivity).
  pose proof (after_step es (Message 1 Scenario.statsMsg)) as E.
  destruct (room_isolation (Scenario.after es) (Message 1 Scenario.statsMsg) _ 0%nat
              (reachable_after _) eq_refl Hh E) as (H1 & _ & H3).
  assert (Hne : 1%nat ≠ 0%nat) by discriminate.
  exact (conj (conj Hh (conj Hh2 E)) (conj (H1 1%nat Hne) (H3 2%nat 1%nat Hh2 Hne))).
Defined.

Lemma healthy_connection_stays_witness :
  let w' := Scenario.after ([Connection 1 Scenario.r1; Connection 2 Scenario.r1]
                            ++ [Close 1]) in
  (healthy Scenario.two_conns 2
   /\ conns_get 2 (conns_of Scenario.two_conns 0) = Some []
   /\ step Scenario.two_conns (Close 1) = Some w')
  /\ healthy w' 2 /\ conns_get 2 (conns_of w' 0) = Some [].
Proof.
  cbv zeta.
  assert (Hh : healthy Scenario.two_conns 2) by (split; vm_compute; reflexivity).
  assert (Eg : conns_get 2 (conns_of Scenario.two_conns 0) = Some [])
    by (vm_compute; reflexivity).
  pose proof (after_step [Connection 1 Scenario.r1; Connection 2 Scenario.r1] (Close 1)) as E.
  assert (Hne : connOf (Close 1) ≠ 2%nat) by discriminate.
  exact (conj (conj Hh (conj Eg E))
           (healthy_connection_stays Scenario.two_conns (Close 1) _ 0%nat 2%nat []
              (reachable_after _) Hne Hh Eg E)).
Defined.

Lemma outbox_frames_typed_witness :
  [x00; x00; x01; x00] ∈ sent_of Scenario.one_conn 1
  /\ exists t rest, readVarUint [x00; x00; x01; x00] = Some (t, rest)
       /\ (t = messageSync \/ t = messageAwareness \/ t = messageStats).
Proof.
  assert (E : sent_of Scenario.one_conn 1 = [[x00; x00; x01; x00]])
    by (vm_compute; reflexivity).
  assert (Hin : [x00; x00; x01; x00] ∈ sent_of Scenario.one_conn 1).
  { rewrite E. apply list_elem_of_singleton. reflexivity. }
  exact (conj Hin (outbox_frames_typed Scenario.one_conn 1%nat [x00; x00; x01; x00]
                     (reachable_after _) Hin)).
Defined.

Lemma join_is_local_witness :
  socks Scenario.one_conn !! 2%nat = None
  /\ exists w' doc, step Scenario.one_conn (Connection 2 Scenario.r1) = Some w'
       /\ conns_of w' doc = conns_of Scenario.one_conn doc ++ [(2%nat, [])]
       /\ forall c, c ≠ 2%nat -> socks w' !! c = socks Scenario.one_conn !! c.
Proof.
  assert (Es : socks Scenario.one_conn !! 2%nat = None) by (vm_compute; reflexivity).
  destruct (join_is_local Scenario.one_conn 2%nat Scenario.r1 (reachable_after _) Es)
    as (w' & doc & E & _ & Ec & _ & Hs & _).
  exact (conj Es (ex_intro _ w' (ex_intro _ doc (conj E (conj Ec Hs))))).
Defined.

(** The facts about the frame [01 06 01 07 01 02 7b 7d] in the room of
    two connections that the next runs share *)
Lemma presence_scenario :
  let frame := Scenario.presenceMsg 7 1 Scenario.json_obj in
  let table := {| Reference.states := [(7, Scenario.json_obj)];
                  Reference.meta := [(4294967295, 1); (7, 1)];
                  Reference.localID := 4294967295 |} in
  handlers Scenario.two_conns !! 1%nat = Some 0%nat
  /\ readVarUint frame = Some (messageAwareness, [x06; x01; x07; x01; x02; x7b; x7d])
  /\ readVarUint8Array [x06; x01; x07; x01; x02; x7b; x7d]
     = Some ([x01; x07; x01; x02; x7b; x7d], [])
  /\ applyAwarenessUpdate (awareness_of Scenario.two_conns 0)
       [x01; x07; x01; x02; x7b; x7d]
     = (table, Some (mkChanges [7] [] []))
  /\ observed_of Scenario.two_conns 0 = true
  /\ conns_get 1 (conns_of Scenario.two_conns 0) = Some []
  /\ healthy Scenario.two_conns 1.
Proof.
  cbv zeta. repeat split; vm_compute; reflexivity.
Qed.


Lemma participant_leaves_with_connection_witness :
  let frame := Scenario.presenceMsg 7 1 Scenario.json_obj in
  7 ∈ getStates (awareness_of
         (Scenario.after ([Connection 1 Scenario.r1; Connection 2 Scenario.r1]
                          ++ [Message 1 frame])) 0)
  /\ 7 ∉ getStates (awareness_of
           (Scenario.after (([Connection 1 Scenario.r1; Connection 2 Scenario.r1]
                             ++ [Message 1 frame]) ++ [Close 1])) 0).
Proof.
  cbv zeta. destruct presence_scenario as (Hh & E0 & E1 & Ea & Ho & Eg & Hl).
  set (es := [Connection 1 Scenario.r1; Connection 2 Scenario.r1]).
  set (frame := Scenario.presenceMsg 7 1 Scenario.json_obj) in *.
  assert (Hin : 7 ∈ getStates (awareness_of (Scenario.after (es ++ [Message 1 frame])) 0)).
  { assert (E : getStates (awareness_of (Scenario.after (es ++ [Message 1 frame])) 0) = [7])
      by (vm_compute; reflexivity).
    rewrite E. apply list_elem_of_singleton. reflexivity. }
  assert (Hr1 : registered Scenario.two_conns 0 1) by (exists []; exact Eg).
  assert (Hadd : 7 ∈ added (mkChanges [7] [] [])) by (apply list_elem_of_singleton; reflexivity).
  assert (Hrem : 7 ∉ removed (mkChanges [7] [] [])) by apply not_elem_of_nil.
  exact (conj Hin
           (participant_leaves_with_connection 0%nat 1%nat _ _ _ _ _ _ 7
              Scenario.two_conns _ _ (reachable_after es) Hh Hr1 Hl E0 E1 Ea Hadd Hrem
              (after_step es (Message 1 frame))
              (after_step (es ++ [Message 1 frame]) (Close 1)))).
Defined.

Lemma no_room_without_name_witness :
  docs (Scenario.after [Connection 1 (Some "/"%string)]) !! EmptyString = None.
Proof.
  exact (no_room_without_name _ (reachable_after [Connection 1 (Some "/"%string)])).
Defined.

Lemma presence_frame_round_trip_witness :
  N.of_nat (length [x01; x07; x01; x02; x7b; x7d]) <= MAX_SAFE_INTEGER
  /\ readVarUint8Array (writeVarUint8Array [x01; x07; x01; x02; x7b; x7d])
     = Some ([x01; x07; x01; x02; x7b; x7d], []).
Proof.
  assert (Hl : N.of_nat (length [x01; x07; x01; x02; x7b; x7d]) <= MAX_SAFE_INTEGER)
    by (vm_compute; discriminate).
  exact (conj Hl (proj2 (presence_frame_round_trip [x01; x07; x01; x02; x7b; x7d] Hl))).
Defined.

Lemma frame_for_destroyed_room_witness :
  let w := Scenario.after [Connection 1 Scenario.r1; Close 1] in
  let w' := Scenario.after ([Connection 1 Scenario.r1; Close 1]
                            ++ [Message 1 Scenario.updateMsg]) in
  (handlers w !! 1%nat = Some 0%nat /\ conns_of w 0 = []
   /\ step w (Message 1 Scenario.updateMsg) = Some w')
  /\ docs w' = docs w /\ conns_of w' 0 = [].
Proof.
  cbv zeta. set (es := [Connection 1 Scenario.r1; Close 1]).
  assert (Hh : handlers (Scenario.after es) !! 1%nat = Some 0%nat)
    by (vm_compute; reflexivity).
  assert (Hn : conns_of (Scenario.after es) 0 = []) by (vm_compute; reflexivity).
  pose proof (after_step es (Message 1 Scenario.updateMsg)) as E.
  destruct (frame_for_destroyed_room (Scenario.after es) 1%nat 0%nat Scenario.updateMsg _
              (reachable_after _) Hh Hn E) as (H1 & H2 & _).
  exact (conj (conj Hh (conj Hn E)) (conj H1 H2)).
Defined.

Lemma document_changes_only_by_sync_witness :
  let w' := Scenario.after ([Connection 1 Scenario.r1; Connection 2 Scenario.r1]
                            ++ [Message 1 Scenario.updateMsg]) in
  (step Scenario.two_conns (Message 1 Scenario.updateMsg) = Some w'
   /\ ydoc_of w' 0 ≠ ydoc_of Scenario.two_conns 0)
  /\ exists ws (message d0 d1 : bytes) (t : N),
       Message 1 Scenario.updateMsg = Message ws message
       /\ handlers Scenario.two_conns !! ws = Some 0%nat
       /\ readVarUint message = Some (messageSync, d0)
       /\ readVarUint d0 = Some (t, d1)
       /\ (t = messageYjsSyncStep2 \/ t = messageYjsUpdate).
Proof.
  cbv zeta. set (es := [Connection 1 Scenario.r1; Connection 2 Scenario.r1]).
  pose proof (after_step es (Message 1 Scenario.updateMsg)) as E.
  assert (E1 : ydoc_of (Scenario.after (es ++ [Message 1 Scenario.updateMsg])) 0 = [[x09]])
    by (vm_compute; reflexivity).
  assert (E2 : ydoc_of Scenario.two_conns 0 = []) by (vm_compute; reflexivity).
  assert (Hne : ydoc_of (Scenario.after (es ++ [Message 1 Scenario.updateMsg])) 0
                ≠ ydoc_of Scenario.two_conns 0).
  { rewrite E1, E2. discriminate. }
  exact (conj (conj E Hne)
           (document_changes_only_by_sync Scenario.two_conns _ _ 0%nat
              (reachable_after es) E Hne)).
Defined.


Lemma close_removes_exactly_controlled_witness :
  let w' := Scenario.after ([Connection 1 Scenario.r1; Connection 2 Scenario.r1;
                             Message 1 (Scenario.presenceMsg 7 1 Scenario.json_obj)]
                            ++ [Close 1]) in
  (handlers Scenario.one_present !! 1%nat = Some 0%nat
   /\ conns_get 1 (conns_of Scenario.one_present 0) = Some [7]
   /\ getStates (awareness_of Scenario.one_present 0) = [7])
  /\ conns_of w' 0 = conns_delete 1 (conns_of Scenario.one_present 0)
  /\ getStates (awareness_of w' 0)
     = filter (fun i => i ∉ [7]) (getStates (awareness_of Scenario.one_present 0)).
Proof.
  cbv zeta.
  assert (Hh : handlers Scenario.one_present !! 1%nat = Some 0%nat)
    by (vm_compute; reflexivity).
  assert (Ec : conns_of Scenario.one_present 0 = [(1%nat, [7]); (2%nat, [])])
    by (vm_compute; reflexivity).
  assert (Eg : conns_get 1 (conns_of Scenario.one_present 0) = Some [7])
    by (vm_compute; reflexivity).
  assert (Est : getStates (awareness_of Scenario.one_present 0) = [7])
    by (vm_compute; reflexivity).
  assert (Hl2 : healthy Scenario.one_present 2) by (split; vm_compute; reflexivity).
  assert (Hall : forall c, c ≠ 1%nat -> registered Scenario.one_present 0 c ->
                   healthy Scenario.one_present c).
  { intros c Hne [x Hx]. rewrite Ec in Hx. cbn [conns_get fst snd] in Hx.
    destruct (decide (1%nat = c)) as [Heq|_]; [by destruct Hne|].
    destruct (decide (2%nat = c)) as [<-|_]; [exact Hl2|discriminate]. }
  exact (conj (conj Hh (conj Eg Est))
           (close_removes_exactly_controlled Scenario.one_present 1%nat 0%nat [7] _
              (reachable_after _) Hh Eg Hall
              (after_step [Connection 1 Scenario.r1; Connection 2 Scenario.r1;
                           Message 1 (Scenario.presenceMsg 7 1 Scenario.json_obj)]
                 (Close 1)))).
Defined.

Lemma emptied_room_stays_empty_witness :
  let w := Scenario.after [Connection 1 Scenario.r1; Close 1] in
  let w' := Scenario.after ([Connection 1 Scenario.r1; Close 1]
                            ++ [Connection 2 Scenario.r1]) in
  (is_Some (heap w !! 0%nat) /\ conns_of w 0 = [])
  /\ conns_of w' 0 = [].
Proof.
  cbv zeta. set (es := [Connection 1 Scenario.r1; Close 1]).
  assert (En : name <$> heap (Scenario.after es) !! 0%nat = Some "r1"%string)
    by (vm_compute; reflexivity).
  assert (Hal : is_Some (heap (Scenario.after es) !! 0%nat)).
  { destruct (heap (Scenario.after es) !! 0%nat) as [r|]; [by exists r|discriminate]. }
  assert (Hn : conns_of (Scenario.after es) 0 = []) by (vm_compute; reflexivity).
  exact (conj (conj Hal Hn)
           (emptied_room_stays_empty (Scenario.after es) (Connection 2 Scenario.r1) _ 0%nat
              (reachable_after _) Hal Hn (after_step es (Connection 2 Scenario.r1)))).
Defined.

(** A scene of three elements, two of them with the id [a], reported to
    a component whose map holds an element [c] *)
Lemma handleChange_stores_scene_witness :
  let els : list (string * nat) := [("a", 1%nat); ("b", 2%nat); ("a", 3%nat)]%string in
  let r := Canvas.mkRefs false true (Some {["c"%string := ("c"%string, 0%nat)]}) in
  exists m', Canvas.yElementsRef (Canvas.handleChange fst els r) = Some m'
    /\ m' !! "a"%string = last (filter (fun e => e.1 = "a"%string) els).
Proof.
  cbv zeta.
  exact (handleChange_stores_scene fst _
           (Canvas.mkRefs false true (Some {["c"%string := ("c"%string, 0%nat)]}))
           _ "a"%string eq_refl eq_refl eq_refl).
Defined.
